(** * Secure group messaging API: membership engine and message log

    A shallow embedding of [src/controllers/groupController.js] and
    [src/controllers/messageController.js] together with the Mongoose
    models they use, followed by the properties of the membership state
    machine and of the message log.

    Conventions of the embedding:
    - an ObjectId is represented by its canonical hex string (24
      lower-case digits), so that [m.toString() === id] is string
      equality; [req.user.id] is the [sub] of a token signed by the
      server, i.e. the canonical string of a stored user id; an id string
      taken from the URL or from the body is any string, and Mongoose
      casts it when it looks a document up by it or stores it:
      [castObjectId] gives the canonical string of the ObjectId it is
      cast to;
    - a JavaScript string that is an id, a name, a token or a base64
      payload is a Rocq string; a message text is the list of its UTF-16
      code units (the length that zod bounds is their number), a [Buffer]
      the list of its bytes;
    - a [Date] is its number of milliseconds since the epoch; the
      quotient [hours] of [requestJoinPrivate] is an exact rational (the
      double the runtime computes compares with 48 and rounds up to the
      same integers for any realistic clock value);
    - a Mongo collection is the list of its documents in insertion
      order; [findOne], [updateOne] and [deleteOne] act on the first
      document matching the filter, a unique index makes an insert with
      a duplicate key throw;
    - what the runtime supplies (the clock, a new document's [_id], the
      random invite token and the cipher's nonce) is an explicit argument
      of the handler; what Node and Mongoose compute (the validity and
      the cast of an id string, SHA-256, base64, UTF-8 and AES-128-GCM) is
      a parameter;
    - every handler is a function from the database and the request to
      the HTTP response and the database after the request; requests are
      handled one after the other. *)

From Stdlib Require Import ZArith QArith Qround Ascii String List Lia Bool.
From stdpp Require Import base list strings sorting.
Import ListNotations.
Local Open Scope Z_scope.
Local Open Scope string_scope.

(** ** Data model (src/models) *)

Abbreviation ObjectId := string.
Abbreviation Date := Z.

Inductive GroupType := open | private.
Inductive Status := pending | approved | declined.

#[global] Instance GroupType_eq_dec : EqDecision GroupType.
Proof. solve_decision. Defined.
#[global] Instance Status_eq_dec : EqDecision Status.
Proof. solve_decision. Defined.

Module Group.
Record t := mk {
  _id : ObjectId;
  name : string;
  type : GroupType;
  owner : ObjectId;
  maxMembers : Z;
  members : list ObjectId;
  bannedUsers : list ObjectId }.

Definition set_owner (o : ObjectId) (g : t) : t :=
  mk (_id g) (name g) (type g) o (maxMembers g) (members g) (bannedUsers g).
Definition set_members (ms : list ObjectId) (g : t) : t :=
  mk (_id g) (name g) (type g) (owner g) (maxMembers g) ms (bannedUsers g).
Definition set_bannedUsers (bs : list ObjectId) (g : t) : t :=
  mk (_id g) (name g) (type g) (owner g) (maxMembers g) (members g) bs.
End Group.

Module JoinRequest.
Record t := mk {
  _id : ObjectId;
  group : ObjectId;
  user : ObjectId;
  status : Status;
  createdAt : Date }.

Definition set_status (s : Status) (jr : t) : t :=
  mk (_id jr) (group jr) (user jr) s (createdAt jr).
End JoinRequest.

Module LeaveHistory.
Record t := mk {
  group : ObjectId;
  user : ObjectId;
  leftAt : Date }.
End LeaveHistory.

Module Invite.
Record t := mk {
  group : ObjectId;
  owner : ObjectId;
  tokenHash : string;
  maxUses : Z;
  uses : Z;
  expiresAt : Date;
  disabled : bool }.
End Invite.

Module Message.
Record t := mk {
  _id : ObjectId;
  group : ObjectId;
  sender : ObjectId;
  payload : string;
  createdAt : Date }.
End Message.

Module User.
Record t := mk {
  _id : ObjectId;
  email : string }.
End User.

(** The database: one list of documents per model. *)
Record Db := mkDb {
  groups : list Group.t;
  joinRequests : list JoinRequest.t;
  leaveHistories : list LeaveHistory.t;
  invites : list Invite.t;
  messages : list Message.t;
  users : list User.t }.

Definition set_groups (gs : list Group.t) (db : Db) : Db :=
  mkDb gs (joinRequests db) (leaveHistories db) (invites db) (messages db) (users db).
Definition set_joinRequests (jrs : list JoinRequest.t) (db : Db) : Db :=
  mkDb (groups db) jrs (leaveHistories db) (invites db) (messages db) (users db).
Definition set_leaveHistories (ls : list LeaveHistory.t) (db : Db) : Db :=
  mkDb (groups db) (joinRequests db) ls (invites db) (messages db) (users db).
Definition set_invites (ivs : list Invite.t) (db : Db) : Db :=
  mkDb (groups db) (joinRequests db) (leaveHistories db) ivs (messages db) (users db).
Definition set_messages (ms : list Message.t) (db : Db) : Db :=
  mkDb (groups db) (joinRequests db) (leaveHistories db) (invites db) ms (users db).

(** ** Collections *)

Section Collection.
Context {A : Type}.

(** [Model.findOne(filter)]: the first document that matches. *)
Definition findOne (p : A -> bool) (c : list A) : option A := List.find p c.

(** [Model.updateOne(filter, update)] and [doc.save()]: the first
    document that matches is replaced, nothing happens without a match. *)
Fixpoint updateOne (p : A -> bool) (f : A -> A) (c : list A) : list A :=
  match c with
  | [] => []
  | x :: c' => if p x then f x :: c' else x :: updateOne p f c'
  end.

(** [doc.deleteOne()]. *)
Fixpoint deleteOne (p : A -> bool) (c : list A) : list A :=
  match c with
  | [] => []
  | x :: c' => if p x then c' else x :: deleteOne p c'
  end.

(** [array.some(p)]. *)
Definition some (p : A -> bool) (l : list A) : bool := existsb p l.

(** [array.findIndex(p)], [None] standing for -1. *)
Fixpoint findIndex (p : A -> bool) (l : list A) : option nat :=
  match l with
  | [] => None
  | x :: l' => if p x then Some 0%nat else S <$> findIndex p l'
  end.

(** [array.splice(idx, 1)]. *)
Definition splice1 (idx : nat) (l : list A) : list A := delete idx l.
End Collection.

Arguments findOne : simpl never.
Arguments some : simpl never.

(** [new Set(array)] spread back into an array: the first occurrence of
    every element, in order. *)
Fixpoint newSet (l : list string) : list string :=
  match l with
  | [] => []
  | x :: l' => x :: List.filter (fun y => negb (String.eqb y x)) (newSet l')
  end.

(** ** Responses and errors *)

(** What a handler can throw into [next(err)]: an [Error] carrying
    [err.status], a plain [Error], or an error of Mongoose, the driver or
    the cipher; only the first carries a status. *)
Inductive Thrown :=
  | HttpError (status : Z) (message : string)
  | PlainError (message : string)
  | CastError
  | ValidationError
  | DuplicateKeyError
  | DecryptError.

(** One message as [listMessages] returns it. *)
Record MessageView := mkView {
  v_id : ObjectId;
  v_sender_id : option ObjectId;
  v_sender_email : option string;
  v_createdAt : Date;
  v_text : list N }.

(** The JSON bodies the handlers send. *)
Inductive Json :=
  | JError (error : string)
  | JErrorDetails (error : string)
  | JErrorStatus (error : string) (status : Status)
  | JCooldown (hours : Z)
  | JThrown (err : Thrown)
  | JMessage (message : string)
  | JMessageRequest (message : string) (requestId : ObjectId)
  | JMessageStatus (message : string) (status : Status)
  | JMessageGroup (message : string) (groupId : ObjectId)
  | JGroup (group : Group.t)
  | JInvite (token : string) (expiresAt : Date) (maxUses : Z)
  | JSent (id : ObjectId) (createdAt : Date)
  | JMessages (out : list MessageView)
  | JPoll (newMessages : nat) (lastChecked : Date).

Record Response := mkRes { status : Z; body : Json }.

(** [res.json(body)] answers 200. *)
Definition json (b : Json) : Response := mkRes 200 b.

(** [errorHandler] of src/middleware/error.js:
    [status = err.status || 500], body [{ error: err.message }]. *)
Definition errorHandler (err : Thrown) : Response :=
  match err with
  | HttpError st msg => mkRes (if (st =? 0)%Z then 500 else st) (JError msg)
  | PlainError msg => mkRes 500 (JError msg)
  | _ => mkRes 500 (JThrown err)
  end.

(** [new Date(ms)] is a date for at most 8.64e15 milliseconds either side
    of the epoch and an Invalid Date beyond; sums and products of integers
    in that range are exact in the runtime's doubles. *)
Definition validDate (ms : Z) : bool := (Z.abs ms <=? 8640000000000000)%Z.

(** ** Request bodies and their schemas (src/validators) *)

(** The body of [POST /groups]. A missing [initialMemberIds] is [None]. *)
Record GroupCreateBody := mkGroupCreateBody {
  b_name : string;
  b_type : string;
  b_maxMembers : Z;
  b_initialMemberIds : option (list string) }.

(** [groupCreateSchema.safeParse]: a non-empty name, a type of the enum,
    a capacity that is 0 or at least 2, the member list defaulting to []. *)
Definition groupCreateSchema (b : GroupCreateBody)
  : option (string * GroupType * Z * list string) :=
  if b_name b =? EmptyString then None
  else
    match (if b_type b =? "private" then Some private
           else if b_type b =? "open" then Some open else None) with
    | None => None
    | Some ty =>
      if (0 <=? b_maxMembers b)%Z
         && ((b_maxMembers b =? 0)%Z || (2 <=? b_maxMembers b)%Z)
      then Some (b_name b, ty, b_maxMembers b, default [] (b_initialMemberIds b))
      else None
    end.

(** The body of [POST /groups/:groupId/invites]; an absent field is [None]. *)
Record CreateInviteBody := mkCreateInviteBody {
  b_maxUses : option Z;
  b_expiresInMinutes : option Z }.

(** [createInviteSchema.safeParse]: [maxUses] non-negative, default 1;
    [expiresInMinutes] positive, default 60. *)
Definition createInviteSchema (b : CreateInviteBody) : option (Z * Z) :=
  let maxUses := default 1 (b_maxUses b) in
  let expiresInMinutes := default 60 (b_expiresInMinutes b) in
  if (0 <=? maxUses)%Z && (0 <? expiresInMinutes)%Z
  then Some (maxUses, expiresInMinutes) else None.

(** [z.object({ decision: z.enum(['approve', 'decline']) })]. *)
Inductive JoinDecision := approve | decline.

Definition decisionSchema (decision : string) : option JoinDecision :=
  if decision =? "approve" then Some approve
  else if decision =? "decline" then Some decline else None.

(** ** src/controllers/groupController.js *)

Definition COOLDOWN_HOURS : Q := 48.

(** Capacity helper: 0 => unlimited, else hard cap. *)
Definition capacityOk (group : Group.t) : bool :=
  (Group.maxMembers group =? 0)%Z
  || (Z.of_nat (length (Group.members group)) <? Group.maxMembers group)%Z.

Definition byGroupId (id : ObjectId) (g : Group.t) : bool := Group._id g =? id.
Definition byRequestId (id : ObjectId) (jr : JoinRequest.t) : bool :=
  JoinRequest._id jr =? id.

(** The filter [{ group: group._id, user: uid }], the unique pair. *)
Definition byGroupUser (gid uid : ObjectId) (jr : JoinRequest.t) : bool :=
  (JoinRequest.group jr =? gid) && (JoinRequest.user jr =? uid).

(** [group.save()]. *)
Definition saveGroup (g : Group.t) (db : Db) : Db :=
  set_groups (updateOne (byGroupId (Group._id g)) (fun _ => g) (groups db)) db.

(** [jr.save()]. *)
Definition saveJoinRequest (jr : JoinRequest.t) (db : Db) : Db :=
  set_joinRequests
    (updateOne (byRequestId (JoinRequest._id jr)) (fun _ => jr) (joinRequests db)) db.

(** [JoinRequest.findOneAndUpdate({ group, user }, { $set: { status:
    'pending' } }, { upsert: true, new: true, setDefaultsOnInsert: true })]:
    the pair's request is set to pending, or a pending one is inserted under
    a new [_id]; the document after the update is returned. *)
Definition upsertPending (newId : ObjectId) (now : Date) (gid uid : ObjectId)
    (jrs : list JoinRequest.t) : Thrown + JoinRequest.t * list JoinRequest.t :=
  match findOne (byGroupUser gid uid) jrs with
  | Some jr =>
    inr (JoinRequest.set_status pending jr,
         updateOne (byGroupUser gid uid) (JoinRequest.set_status pending) jrs)
  | None =>
    if some (byRequestId newId) jrs then inl DuplicateKeyError
    else
      let jr := JoinRequest.mk newId gid uid pending now in
      inr (jr, (jrs ++ [jr])%list)
  end.

(** Throws 403 if user is banned; also ensures a pending JoinRequest exists
    for owner review. The result is what was thrown, if anything. *)
Definition ensureNotBanned (db : Db) (newId : ObjectId) (now : Date)
    (group : Group.t) (uid : ObjectId) : option Thrown * Db :=
  if some (fun u => u =? uid) (Group.bannedUsers group) then
    match upsertPending newId now (Group._id group) uid (joinRequests db) with
    | inl err => (Some err, db)
    | inr (_, jrs) =>
      (Some (HttpError 403
               "You are banned. A join request is now pending for owner approval."),
       set_joinRequests jrs db)
    end
  else (None, db).

(** The order of [.sort({ leftAt: -1 })]. *)
Definition leftAt_desc (a b : LeaveHistory.t) : Prop :=
  (LeaveHistory.leftAt b <= LeaveHistory.leftAt a)%Z.

#[global] Instance leftAt_desc_dec a b : Decision (leftAt_desc a b).
Proof. unfold leftAt_desc. apply _. Defined.

#[global] Instance leftAt_desc_trans : Transitive leftAt_desc.
Proof. unfold leftAt_desc. intros a b c ? ?. lia. Qed.

#[global] Instance leftAt_desc_total : Total leftAt_desc.
Proof. unfold leftAt_desc. intros a b. lia. Qed.

Section Controllers.
(** [mongoose.isValidObjectId], the cast of Mongoose and the SHA-256 of
    src/utils/token.js (Node's crypto) are taken as they come.
    [castObjectId s] is the canonical string of the ObjectId that a query
    or a save casts the string [s] to; the handlers reach a cast only with
    strings that [isValidObjectId] accepts. Two spellings of one id, as
    upper-case and lower-case digits are, have the same cast. *)
Variable isValidObjectId : string -> bool.
Variable castObjectId : string -> ObjectId.
Variable sha256 : string -> string.

(** POST /groups *)
Definition createGroup (db : Db) (newId : ObjectId) (user : ObjectId)
    (body : GroupCreateBody) : Response * Db :=
  match groupCreateSchema body with
  | None => (mkRes 400 (JErrorDetails "Validation failed"), db)
  | Some (name, type, maxMembers, initialMemberIds) =>
    let ownerId := user in
    let uniqueIds :=
      newSet (List.filter (fun id => negb (id =? EmptyString) && negb (id =? ownerId))
                          initialMemberIds) in
    match List.find (fun id => negb (isValidObjectId id)) uniqueIds with
    | Some id =>
      (mkRes 400 (JError ("Invalid userId in initialMemberIds: " ++ id)), db)
    | None =>
      let total := (1 + Z.of_nat (length uniqueIds))%Z in
      if negb (maxMembers =? 0)%Z && (maxMembers <? total)%Z then
        (mkRes 400 (JError "Too many initial members for this group capacity"), db)
      else if some (byGroupId newId) (groups db) then
        (errorHandler DuplicateKeyError, db)
      else
        let group :=
          Group.mk newId name type ownerId maxMembers
            (ownerId :: List.map castObjectId uniqueIds) [] in
        (mkRes 201 (JGroup group), set_groups (groups db ++ [group])%list db)
    end
  end.

(** POST /groups/:groupId/join-open *)
Definition joinOpenGroup (db : Db) (newId : ObjectId) (now : Date)
    (user : ObjectId) (groupId : string) : Response * Db :=
  if negb (isValidObjectId groupId) then
    (mkRes 400 (JError "Invalid groupId"), db)
  else
    match findOne (byGroupId (castObjectId groupId)) (groups db) with
    | None => (mkRes 404 (JError "Group not found or not open"), db)
    | Some group =>
      if negb (bool_decide (Group.type group = open)) then
        (mkRes 404 (JError "Group not found or not open"), db)
      else
        match ensureNotBanned db newId now group user with
        | (Some err, db1) => (errorHandler err, db1)
        | (None, db1) =>
          if some (fun m => m =? user) (Group.members group) then
            (json (JMessage "Already a member"), db1)
          else if negb (capacityOk group) then
            (mkRes 400 (JError "Group is full"), db1)
          else
            let group' :=
              Group.set_members (Group.members group ++ [user])%list group in
            (json (JMessage "Joined"), saveGroup group' db1)
        end
    end.

(** The filter [{ group: group._id, user: uid }] on leaves. *)
Definition leaveOf (gid uid : ObjectId) (l : LeaveHistory.t) : bool :=
  (LeaveHistory.group l =? gid) && (LeaveHistory.user l =? uid).

(** [LeaveHistory.findOne({ group, user }).sort({ leftAt: -1 })]: the
    pair's most recent leave. *)
Definition lastLeaveOf (gid uid : ObjectId) (ls : list LeaveHistory.t)
  : option LeaveHistory.t :=
  head (merge_sort leftAt_desc (List.filter (leaveOf gid uid) ls)).

(** Lines 183-196 of [requestJoinPrivate]: a pending request is echoed
    back, anything else is (re)opened by an upsert. *)
Definition submitJoinRequest (db : Db) (newId : ObjectId) (now : Date)
    (group : Group.t) (uid : ObjectId) : Response * Db :=
  let upsert :=
    match upsertPending newId now (Group._id group) uid (joinRequests db) with
    | inl err => (errorHandler err, db)
    | inr (jr, jrs) =>
      (json (JMessageRequest "Join request submitted" (JoinRequest._id jr)),
       set_joinRequests jrs db)
    end in
  match findOne (byGroupUser (Group._id group) uid) (joinRequests db) with
  | Some existing =>
    if bool_decide (JoinRequest.status existing = pending) then
      (json (JMessageRequest "Join request already submitted"
               (JoinRequest._id existing)), db)
    else upsert
  | None => upsert
  end.

(** POST /groups/:groupId/request-join. [hours] is the quotient of the
    elapsed milliseconds by 36e5, taken exactly. *)
Definition requestJoinPrivate (db : Db) (newId : ObjectId) (now : Date)
    (user : ObjectId) (groupId : string) : Response * Db :=
  if negb (isValidObjectId groupId) then
    (mkRes 400 (JError "Invalid groupId"), db)
  else
    match findOne (byGroupId (castObjectId groupId)) (groups db) with
    | None => (mkRes 404 (JError "Group not found or not private"), db)
    | Some group =>
      if negb (bool_decide (Group.type group = private)) then
        (mkRes 404 (JError "Group not found or not private"), db)
      else
        let uid := user in
        if some (fun m => m =? uid) (Group.members group) then
          (mkRes 200 (JMessage "Already a member"), db)
        else
          match ensureNotBanned db newId now group uid with
          | (Some err, db1) => (errorHandler err, db1)
          | (None, db1) =>
            match lastLeaveOf (Group._id group) uid (leaveHistories db1) with
            | Some lastLeave =>
              let hours :=
                (inject_Z (now - LeaveHistory.leftAt lastLeave) / 3600000)%Q in
              if Qlt_le_dec hours COOLDOWN_HOURS then
                (mkRes 400 (JCooldown (Qceiling (COOLDOWN_HOURS - hours))), db1)
              else submitJoinRequest db1 newId now group uid
            | None => submitJoinRequest db1 newId now group uid
            end
          end
    end.
(** The update [{ $pull: { bannedUsers: user }, $addToSet: { members:
    user } }] of [decideJoinRequest]. *)
Definition pullBanned_addMember (user : ObjectId) (g : Group.t) : Group.t :=
  Group.set_members
    (if some (fun m => m =? user) (Group.members g) then Group.members g
     else (Group.members g ++ [user])%list)
    (Group.set_bannedUsers
       (List.filter (fun u => negb (u =? user)) (Group.bannedUsers g)) g).

(** POST /groups/requests/:requestId/decision  (owner: approve|decline) *)
Definition decideJoinRequest (db : Db) (user : ObjectId)
    (requestId : string) (decision : string) : Response * Db :=
  if negb (isValidObjectId requestId) then
    (mkRes 400 (JError "Invalid requestId"), db)
  else
    match decisionSchema decision with
    | None => (mkRes 400 (JError "Invalid decision"), db)
    | Some decision =>
      match findOne (byRequestId (castObjectId requestId)) (joinRequests db) with
      | None => (mkRes 404 (JError "Request not found"), db)
      | Some jr =>
        match findOne (byGroupId (JoinRequest.group jr)) (groups db) with
        | None => (mkRes 404 (JError "Group not found"), db)
        | Some group =>
          if negb (Group.owner group =? user) then
            (mkRes 403 (JError "Only owner"), db)
          else if negb (bool_decide (JoinRequest.status jr = pending)) then
            (mkRes 409 (JErrorStatus "Request already resolved"
                          (JoinRequest.status jr)), db)
          else
            match decision with
            | approve =>
              if negb (capacityOk group) then
                (mkRes 400 (JError "Group is full"), db)
              else
                let db1 :=
                  set_groups
                    (updateOne (byGroupId (Group._id group))
                       (pullBanned_addMember (JoinRequest.user jr)) (groups db))
                    db in
                let jr' := JoinRequest.set_status approved jr in
                (json (JMessageStatus "Decision recorded" (JoinRequest.status jr')),
                 saveJoinRequest jr' db1)
            | decline =>
              let jr' := JoinRequest.set_status declined jr in
              (json (JMessageStatus "Decision recorded" (JoinRequest.status jr')),
               saveJoinRequest jr' db)
            end
        end
      end
    end.

(** POST /groups/:groupId/leave *)
Definition leaveGroup (db : Db) (now : Date) (user : ObjectId)
    (groupId : string) : Response * Db :=
  if negb (isValidObjectId groupId) then
    (mkRes 400 (JError "Invalid groupId"), db)
  else
    match findOne (byGroupId (castObjectId groupId)) (groups db) with
    | None => (mkRes 404 (JError "Group not found"), db)
    | Some group =>
      match findIndex (fun m => m =? user) (Group.members group) with
      | None => (mkRes 400 (JError "Not a member"), db)
      | Some idx =>
        if Group.owner group =? user then
          (mkRes 400 (JError "Owner must transfer ownership before leaving"), db)
        else
          let group' :=
            Group.set_members (splice1 idx (Group.members group)) group in
          let db1 := saveGroup group' db in
          let db2 :=
            if bool_decide (Group.type group' = private) then
              set_leaveHistories
                (leaveHistories db1
                   ++ [LeaveHistory.mk (Group._id group') user now])%list db1
            else db1 in
          (json (JMessage "Left group"), db2)
      end
    end.

(** POST /groups/:groupId/banish (owner). [userId] is a string of the
    body; it gets as far as the [push] only when it equals the string of a
    stored member, so what is stored for it is the string itself. *)
Definition banishMember (db : Db) (user : ObjectId)
    (groupId : string) (userId : string) : Response * Db :=
  if negb (isValidObjectId groupId) then
    (mkRes 400 (JError "Invalid groupId"), db)
  else if negb (isValidObjectId userId) then
    (mkRes 400 (JError "Invalid userId"), db)
  else
    match findOne (byGroupId (castObjectId groupId)) (groups db) with
    | None => (mkRes 404 (JError "Group not found"), db)
    | Some group =>
      if negb (Group.owner group =? user) then
        (mkRes 403 (JError "Only owner"), db)
      else if userId =? user then
        (mkRes 400 (JError "Owner cannot banish self"), db)
      else
        let isMember := some (fun m => m =? userId) (Group.members group) in
        let isBanned := some (fun u => u =? userId) (Group.bannedUsers group) in
        if isBanned then
          (mkRes 200 (JMessage "User is already banned"), db)
        else if negb isMember && negb isBanned then
          (mkRes 400 (JError "User is not a current member"), db)
        else
          let group1 :=
            if isMember then
              Group.set_members
                (List.filter (fun m => negb (m =? userId)) (Group.members group))
                group
            else group in
          let group2 :=
            Group.set_bannedUsers (Group.bannedUsers group1 ++ [userId])%list
              group1 in
          (json (JMessage "User banished"), saveGroup group2 db)
    end.

(** POST /groups/:groupId/transfer-ownership  (owner). [newOwnerId] is a
    string of the body; it becomes the owner only when it equals the
    string of a stored member, so what is stored for it is the string
    itself. *)
Definition transferOwnership (db : Db) (user : ObjectId)
    (groupId : string) (newOwnerId : string) : Response * Db :=
  if negb (isValidObjectId groupId) then
    (mkRes 400 (JError "Invalid groupId"), db)
  else
    match findOne (byGroupId (castObjectId groupId)) (groups db) with
    | None => (mkRes 404 (JError "Group not found"), db)
    | Some group =>
      if negb (Group.owner group =? user) then
        (mkRes 403 (JError "Only owner"), db)
      else if negb (isValidObjectId newOwnerId) then
        (mkRes 400 (JError "Invalid newOwnerId"), db)
      else if negb (some (fun m => m =? newOwnerId) (Group.members group)) then
        (mkRes 400 (JError "New owner must be a member"), db)
      else
        (json (JMessage "Ownership transferred"),
         saveGroup (Group.set_owner newOwnerId group) db)
    end.

(** The same caller deciding the same request again and again. *)
Fixpoint decideEach (db : Db) (user : ObjectId) (requestId : string)
    (decisions : list string) : list Response * Db :=
  match decisions with
  | [] => ([], db)
  | decision :: decisions' =>
    let (res, db1) := decideJoinRequest db user requestId decision in
    let (ress, db2) := decideEach db1 user requestId decisions' in
    (res :: ress, db2)
  end.

(** DELETE /groups/:groupId  (owner; only if sole member) *)
Definition deleteGroup (db : Db) (user : ObjectId) (groupId : string)
  : Response * Db :=
  if negb (isValidObjectId groupId) then
    (mkRes 400 (JError "Invalid groupId"), db)
  else
    match findOne (byGroupId (castObjectId groupId)) (groups db) with
    | None => (mkRes 404 (JError "Group not found"), db)
    | Some group =>
      if negb (Group.owner group =? user) then
        (mkRes 403 (JError "Only owner"), db)
      else if (1 <? length (Group.members group))%nat then
        (mkRes 400 (JError "Group can be deleted only if owner is sole member"), db)
      else
        (json (JMessage "Group deleted"),
         set_groups (deleteOne (byGroupId (Group._id group)) (groups db)) db)
    end.

(** The filter [{ tokenHash }]; the hash is unique, and identifies the
    invite when it is saved. *)
Definition byTokenHash (h : string) (i : Invite.t) : bool :=
  Invite.tokenHash i =? h.

(** POST /groups/:groupId/invites  (owner). [rawToken] is what
    [generateRawToken()] draws. [Invite.create] validates the document
    before it inserts it: an [expiresAt] that is an Invalid Date is
    refused. *)
Definition createInvite (db : Db) (now : Date) (rawToken : string)
    (user : ObjectId) (groupId : string) (body : CreateInviteBody)
  : Response * Db :=
  if negb (isValidObjectId groupId) then
    (mkRes 400 (JError "Invalid groupId"), db)
  else
    match findOne (byGroupId (castObjectId groupId)) (groups db) with
    | None => (mkRes 404 (JError "Group not found"), db)
    | Some group =>
      if negb (Group.owner group =? user) then
        (mkRes 403 (JError "Only owner can create invites"), db)
      else
        match createInviteSchema body with
        | None => (mkRes 400 (JErrorDetails "Invalid invite params"), db)
        | Some (maxUses, expiresInMinutes) =>
          let expiresAt := (now + Z.max 1 expiresInMinutes * 60000)%Z in
          let tokenHash := sha256 rawToken in
          if negb (validDate expiresAt) then
            (errorHandler ValidationError, db)
          else if some (byTokenHash tokenHash) (invites db) then
            (errorHandler DuplicateKeyError, db)
          else
            let invite :=
              Invite.mk (Group._id group) user tokenHash (Z.max 1 maxUses) 0
                expiresAt false in
            (mkRes 201 (JInvite rawToken (Invite.expiresAt invite)
                          (Invite.maxUses invite)),
             set_invites (invites db ++ [invite])%list db)
        end
    end.

(** POST /groups/join-with-invite. A body without [token] is [None]. *)
Definition joinWithInvite (db : Db) (now : Date) (user : ObjectId)
    (token : option string) : Response * Db :=
  match token with
  | None => (mkRes 400 (JError "Missing token"), db)
  | Some token =>
    if token =? EmptyString then (mkRes 400 (JError "Missing token"), db)
    else
      let tokenHash := sha256 token in
      match findOne (byTokenHash tokenHash) (invites db) with
      | None => (mkRes 400 (JError "Invalid invite"), db)
      | Some invite =>
        if Invite.disabled invite then
          (mkRes 400 (JError "Invalid invite"), db)
        else if (Invite.expiresAt invite <=? now)%Z then
          (mkRes 400 (JError "Invite expired"), db)
        else if (Invite.maxUses invite <=? Invite.uses invite)%Z then
          (mkRes 400 (JError "Invite exhausted"), db)
        else
          match findOne (byGroupId (Invite.group invite)) (groups db) with
          | None => (mkRes 404 (JError "Group not found"), db)
          | Some group =>
            if some (fun u => u =? user) (Group.bannedUsers group) then
              (mkRes 403
                 (JError "You are banned. Send a join request to the owner to rejoin."),
               db)
            else if negb (capacityOk group) then
              (mkRes 400 (JError "Group is full"), db)
            else
              let db1 :=
                if negb (some (fun m => m =? user) (Group.members group)) then
                  saveGroup
                    (Group.set_members (Group.members group ++ [user])%list group)
                    db
                else db in
              let uses := (Invite.uses invite + 1)%Z in
              let disabled :=
                if (Invite.maxUses invite <=? uses)%Z then true
                else Invite.disabled invite in
              let invite' :=
                Invite.mk (Invite.group invite) (Invite.owner invite)
                  (Invite.tokenHash invite) (Invite.maxUses invite) uses
                  (Invite.expiresAt invite) disabled in
              (json (JMessageGroup "Joined via invite" (Group._id group)),
               set_invites
                 (updateOne (byTokenHash (Invite.tokenHash invite'))
                    (fun _ => invite') (invites db1)) db1)
          end
      end
  end.
End Controllers.

(** ** JavaScript strings and buffers *)

(** A message text: the UTF-16 code units of the JavaScript string. *)
Abbreviation JsString := (list N).
(** A [Buffer]: its bytes. *)
Abbreviation Buffer := (list Byte.byte).

(** The code units D800 to DBFF and DC00 to DFFF. *)
Definition isHighSurrogate (c : N) : bool := (55296 <=? c)%N && (c <=? 56319)%N.
Definition isLowSurrogate (c : N) : bool := (56320 <=? c)%N && (c <=? 57343)%N.

(** [String.prototype.isWellFormed]: no surrogate stands alone. *)
Fixpoint isWellFormed (s : JsString) : bool :=
  match s with
  | [] => true
  | c :: s' =>
    if isHighSurrogate c then
      match s' with
      | d :: s'' => isLowSurrogate d && isWellFormed s''
      | [] => false
      end
    else negb (isLowSurrogate c) && isWellFormed s'
  end.

(** [String.prototype.toWellFormed]: every lone surrogate is replaced by
    U+FFFD. *)
Fixpoint toWellFormed (s : JsString) : JsString :=
  match s with
  | [] => []
  | c :: s' =>
    if isHighSurrogate c then
      match s' with
      | d :: s'' =>
        if isLowSurrogate d then c :: d :: toWellFormed s''
        else 65533%N :: toWellFormed s'
      | [] => [65533%N]
      end
    else if isLowSurrogate c then 65533%N :: toWellFormed s'
    else c :: toWellFormed s'
  end.

(** What src/utils/crypto.js takes from Node: the base64 and UTF-8
    conversions of [Buffer], and AES-128-GCM of [crypto].
    - [fromBase64 s] is [Buffer.from(s, 'base64')], [toBase64 buf] is
      [buf.toString('base64')];
    - [fromUtf8 s] is the bytes that [cipher.update(s, 'utf8')] reads,
      [toUtf8 buf] is [buf.toString('utf8')];
    - [gcmEncrypt key iv plaintext] is the ciphertext
      ([cipher.update] followed by [cipher.final()]) and the tag
      ([cipher.getAuthTag()]) of [createCipheriv('aes-128-gcm', key, iv)];
    - [gcmDecrypt key iv tag ciphertext] is the plaintext that
      [createDecipheriv('aes-128-gcm', key, iv)] gives after
      [setAuthTag(tag)], or nothing when one of these calls throws, as
      [decipher.final()] does when the tag does not authenticate. *)
Record NodeCrypto := mkNodeCrypto {
  fromBase64 : string -> Buffer;
  toBase64 : Buffer -> string;
  fromUtf8 : JsString -> Buffer;
  toUtf8 : Buffer -> JsString;
  gcmEncrypt : Buffer -> Buffer -> Buffer -> Buffer * Buffer;
  gcmDecrypt : Buffer -> Buffer -> Buffer -> Buffer -> option Buffer }.

(** What Node documents of them, as far as the codec relies on it:
    decoding undoes encoding, for base64 and for the UTF-8 of a well-formed
    string; the UTF-8 of a string is that of the string with its lone
    surrogates replaced by U+FFFD; under a 16-byte key and a 12-byte nonce
    the tag has 16 bytes and decryption with it gives the plaintext
    back. *)
Record NodeCryptoSpec (node : NodeCrypto) : Prop := mkNodeCryptoSpec {
  base64_roundtrip : forall buf, fromBase64 node (toBase64 node buf) = buf;
  utf8_roundtrip : forall s,
    isWellFormed s = true -> toUtf8 node (fromUtf8 node s) = s;
  utf8_replaces : forall s, fromUtf8 node s = fromUtf8 node (toWellFormed s);
  gcm_tag_length : forall key iv plaintext,
    length key = 16%nat -> length iv = 12%nat ->
    length (snd (gcmEncrypt node key iv plaintext)) = 16%nat;
  gcm_roundtrip : forall key iv plaintext,
    length key = 16%nat -> length iv = 12%nat ->
    gcmDecrypt node key iv (snd (gcmEncrypt node key iv plaintext))
      (fst (gcmEncrypt node key iv plaintext))
    = Some plaintext }.

(** ** src/utils/crypto.js *)

Section Crypto.
Variable node : NodeCrypto.
(** [process.env.AES_128_KEY_BASE64]; [None] when it is not set. *)
Variable AES_128_KEY_BASE64 : option string.

(** Resolve a 16-byte AES key from base64 env var. Fail fast if
    misconfigured. *)
Definition getKey : Thrown + Buffer :=
  match AES_128_KEY_BASE64 with
  | None => inl (PlainError "AES_128_KEY_BASE64 env missing")
  | Some b64 =>
    if b64 =? EmptyString then inl (PlainError "AES_128_KEY_BASE64 env missing")
    else
      let key := fromBase64 node b64 in
      if negb (length key =? 16)%nat then
        inl (PlainError "AES-128 key must be 16 bytes")
      else inr key
  end.

(** Encrypts a UTF-8 string, returns base64(IV || TAG || CIPHERTEXT).
    [iv] is what [crypto.randomBytes(12)] draws. *)
Definition encryptMessage (iv : Buffer) (plaintext : JsString) : Thrown + string :=
  match getKey with
  | inl err => inl err
  | inr key =>
    let (ciphertext, tag) := gcmEncrypt node key iv (fromUtf8 node plaintext) in
    let payload := toBase64 node (iv ++ tag ++ ciphertext)%list in
    inr payload
  end.

(** [buf.subarray(start, end)] and [buf.subarray(start)]. *)
Definition subarray (buf : Buffer) (start : nat) (stop : option nat) : Buffer :=
  match stop with
  | Some stop => take (stop - start) (drop start buf)
  | None => drop start buf
  end.

(** Accepts base64(IV || TAG || CIPHERTEXT) and returns the original
    UTF-8 string. *)
Definition decryptMessage (payloadB64 : string) : Thrown + JsString :=
  match getKey with
  | inl err => inl err
  | inr key =>
    let buf := fromBase64 node payloadB64 in
    let iv := subarray buf 0 (Some 12%nat) in
    let tag := subarray buf 12 (Some 28%nat) in
    let ciphertext := subarray buf 28 None in
    match gcmDecrypt node key iv tag ciphertext with
    | None => inl DecryptError
    | Some plaintext => inr (toUtf8 node plaintext)
    end
  end.
End Crypto.

(** ** src/controllers/messageController.js *)

(** The order of [.sort({ createdAt: 1 })]. *)
Definition createdAt_asc (a b : Message.t) : Prop :=
  (Message.createdAt a <= Message.createdAt b)%Z.

#[global] Instance createdAt_asc_dec a b : Decision (createdAt_asc a b).
Proof. unfold createdAt_asc. apply _. Defined.

#[global] Instance createdAt_asc_trans : Transitive createdAt_asc.
Proof. unfold createdAt_asc. intros a b c ? ?. lia. Qed.

#[global] Instance createdAt_asc_total : Total createdAt_asc.
Proof. unfold createdAt_asc. intros a b. lia. Qed.

(** Keep message within reasonable bounds (storage/transport): zod counts
    the UTF-16 code units of the text. *)
Definition sendSchema (text : JsString) : option JsString :=
  if (1 <=? length text)%nat && (length text <=? 5000)%nat
  then Some text else None.

(** [array.map(f)] with an [f] that can throw: the results, or what the
    first call that throws has thrown. *)
Fixpoint mapThrowing {A B} (f : A -> Thrown + B) (l : list A) : Thrown + list B :=
  match l with
  | [] => inr []
  | x :: l' =>
    match f x with
    | inl err => inl err
    | inr y =>
      match mapThrowing f l' with
      | inl err => inl err
      | inr ys => inr (y :: ys)
      end
    end
  end.

Section MessageController.
Variable isValidObjectId : string -> bool.
Variable castObjectId : string -> ObjectId.
Variable node : NodeCrypto.
Variable AES_128_KEY_BASE64 : option string.

(** [Group.findById(req.params.groupId)] without a guard: the id is cast
    and looked up; a string that cannot be cast, which is one that
    [isValidObjectId] refuses, makes the query throw. *)
Definition findGroupById (db : Db) (groupId : string) : Thrown + option Group.t :=
  if isValidObjectId groupId then
    inr (findOne (byGroupId (castObjectId groupId)) (groups db))
  else inl CastError.

(** POST /messages/:groupId *)
Definition sendMessage (db : Db) (newId : ObjectId) (now : Date) (iv : Buffer)
    (user : ObjectId) (groupId : string) (text : JsString) : Response * Db :=
  match sendSchema text with
  | None => (mkRes 400 (JErrorDetails "Validation failed"), db)
  | Some text =>
    match findGroupById db groupId with
    | inl err => (errorHandler err, db)
    | inr None => (mkRes 404 (JError "Group not found"), db)
    | inr (Some group) =>
      if negb (some (fun m => m =? user) (Group.members group)) then
        (mkRes 403 (JError "Join group first"), db)
      else
        match encryptMessage node AES_128_KEY_BASE64 iv text with
        | inl err => (errorHandler err, db)
        | inr payload =>
          if some (fun m => Message._id m =? newId) (messages db) then
            (errorHandler DuplicateKeyError, db)
          else
            let msg := Message.mk newId (Group._id group) user payload now in
            (mkRes 201 (JSent (Message._id msg) (Message.createdAt msg)),
             set_messages (messages db ++ [msg])%list db)
        end
    end
  end.

(** The filter [{ group: group._id }], with [createdAt: { $gt: since }]
    when [since] is given. *)
Definition messageFilter (gid : ObjectId) (since : option Date) (m : Message.t)
  : bool :=
  (Message.group m =? gid)
  && match since with
     | Some since => (since <? Message.createdAt m)%Z
     | None => true
     end.

(** [Message.find(filter).sort({ createdAt: 1 })]. *)
Definition findMessages (db : Db) (gid : ObjectId) (since : option Date)
  : list Message.t :=
  merge_sort createdAt_asc (List.filter (messageFilter gid since) (messages db)).

(** One element of [out]: the populated sender and the decrypted text. *)
Definition viewMessage (db : Db) (m : Message.t) : Thrown + MessageView :=
  let sender := findOne (fun u => User._id u =? Message.sender m) (users db) in
  match decryptMessage node AES_128_KEY_BASE64 (Message.payload m) with
  | inl err => inl err
  | inr text =>
    inr (mkView (Message._id m) (User._id <$> sender) (User.email <$> sender)
           (Message.createdAt m) text)
  end.

(** GET /messages/:groupId. An absent [since] is [None]. *)
Definition listMessages (db : Db) (user : ObjectId) (groupId : string)
    (since : option Date) : Response * Db :=
  match findGroupById db groupId with
  | inl err => (errorHandler err, db)
  | inr None => (mkRes 404 (JError "Group not found"), db)
  | inr (Some group) =>
    if negb (some (fun m => m =? user) (Group.members group)) then
      (mkRes 403 (JError "Join group first"), db)
    else
      let msgs := findMessages db (Group._id group) since in
      match mapThrowing (viewMessage db) msgs with
      | inl err => (errorHandler err, db)
      | inr out => (json (JMessages out), db)
      end
  end.

(** GET /messages/:groupId/poll *)
Definition pollEvents (db : Db) (now : Date) (user : ObjectId)
    (groupId : string) (since : option Date) : Response * Db :=
  match findGroupById db groupId with
  | inl err => (errorHandler err, db)
  | inr None => (mkRes 404 (JError "Group not found"), db)
  | inr (Some group) =>
    if negb (some (fun m => m =? user) (Group.members group)) then
      (mkRes 403 (JError "Join group first"), db)
    else
      let since := default (now - 60000)%Z since in
      let msgs := findMessages db (Group._id group) (Some since) in
      (json (JPoll (length msgs) now), db)
  end.
End MessageController.

(** ** src/routes/groups.js: the requests of the membership engine *)

Inductive GroupRequest :=
  | PostGroup (newId user : ObjectId) (body : GroupCreateBody)
  | PostJoinOpen (newId : ObjectId) (now : Date) (user : ObjectId) (groupId : string)
  | PostRequestJoin (newId : ObjectId) (now : Date) (user : ObjectId) (groupId : string)
  | PostDecision (user : ObjectId) (requestId decision : string)
  | PostLeave (now : Date) (user : ObjectId) (groupId : string)
  | PostBanish (user : ObjectId) (groupId userId : string)
  | PostTransfer (user : ObjectId) (groupId newOwnerId : string)
  | DeleteGroup (user : ObjectId) (groupId : string)
  | PostInvite (now : Date) (rawToken : string) (user : ObjectId)
      (groupId : string) (body : CreateInviteBody)
  | PostJoinWithInvite (now : Date) (user : ObjectId) (token : option string).

Section Router.
Variable isValidObjectId : string -> bool.
Variable castObjectId : string -> ObjectId.
Variable sha256 : string -> string.

Definition groupsRouter (db : Db) (r : GroupRequest) : Response * Db :=
  match r with
  | PostGroup newId user body => createGroup isValidObjectId castObjectId db newId user body
  | PostJoinOpen newId now user groupId =>
    joinOpenGroup isValidObjectId castObjectId db newId now user groupId
  | PostRequestJoin newId now user groupId =>
    requestJoinPrivate isValidObjectId castObjectId db newId now user groupId
  | PostDecision user requestId decision =>
    decideJoinRequest isValidObjectId castObjectId db user requestId decision
  | PostLeave now user groupId => leaveGroup isValidObjectId castObjectId db now user groupId
  | PostBanish user groupId userId =>
    banishMember isValidObjectId castObjectId db user groupId userId
  | PostTransfer user groupId newOwnerId =>
    transferOwnership isValidObjectId castObjectId db user groupId newOwnerId
  | DeleteGroup user groupId => deleteGroup isValidObjectId castObjectId db user groupId
  | PostInvite now rawToken user groupId body =>
    createInvite isValidObjectId castObjectId sha256 db now rawToken user groupId body
  | PostJoinWithInvite now user token => joinWithInvite sha256 db now user token
  end.

(** The database after a list of requests handled one after the other. *)
Definition runRequests (db : Db) (rs : list GroupRequest) : Db :=
  fold_left (fun db r => snd (groupsRouter db r)) rs db.
End Router.

(** ** Invariants of a group *)

(** members ∩ banned = ∅ *)
Definition membersBannedDisjoint (g : Group.t) : Prop :=
  forall u, u ∈ Group.members g -> u ∈ Group.bannedUsers g -> False.

(** capacity = 0 ∨ |members| ≤ capacity *)
Definition withinCapacity (g : Group.t) : Prop :=
  Group.maxMembers g = 0%Z
  \/ (Z.of_nat (length (Group.members g)) <= Group.maxMembers g)%Z.

(** The two invariants as checks that compute. *)
Definition membersBannedDisjointb (g : Group.t) : bool :=
  forallb (fun u => negb (some (fun b => b =? u) (Group.bannedUsers g)))
    (Group.members g).

Definition withinCapacityb (g : Group.t) : bool :=
  (Group.maxMembers g =? 0)%Z
  || (Z.of_nat (length (Group.members g)) <=? Group.maxMembers g)%Z.

(** What one request can do to one stored group: each constructor is one
    of the writes of the controller, with the checks that guard it. *)
Inductive GroupWrite (g : Group.t) : Group.t -> Prop :=
  | WriteJoin u :
      u ∉ Group.bannedUsers g -> u ∉ Group.members g -> capacityOk g = true ->
      GroupWrite g (Group.set_members (Group.members g ++ [u])%list g)
  | WriteApprove u :
      capacityOk g = true -> GroupWrite g (pullBanned_addMember u g)
  | WriteLeave idx :
      GroupWrite g (Group.set_members (splice1 idx (Group.members g)) g)
  | WriteBanish u :
      GroupWrite g
        (Group.set_bannedUsers (Group.bannedUsers g ++ [u])%list
           (Group.set_members
              (List.filter (fun m => negb (m =? u)) (Group.members g)) g))
  | WriteTransfer o :
      o ∈ Group.members g -> GroupWrite g (Group.set_owner o g).

(** A group as [createGroup] stores it. *)
Definition FreshGroup (g : Group.t) : Prop :=
  Group.bannedUsers g = [] /\ withinCapacity g.

(** How the stored groups after a request relate to those before: every
    group is as it was, or a stored group after one [GroupWrite], or a
    group just created. *)
Definition GroupsStep (l l' : list Group.t) : Prop :=
  forall g', g' ∈ l' ->
    g' ∈ l \/ (exists g, g ∈ l /\ GroupWrite g g') \/ FreshGroup g'.

(** ** A concrete database *)

(** 24 hexadecimal digits in either case: strings that every version of
    [mongoose.isValidObjectId] accepts, and that are cast to the id they
    spell, whose canonical string has the digits in lower case. *)
Definition isHexDigit (c : ascii) : bool :=
  let n := Ascii.nat_of_ascii c in
  ((48 <=? n) && (n <=? 57) || (97 <=? n) && (n <=? 102)
   || (65 <=? n) && (n <=? 70))%nat.

Definition isHex24 (s : string) : bool :=
  (String.length s =? 24)%nat && forallb isHexDigit (list_ascii_of_string s).

Definition lowerHexDigit (c : ascii) : ascii :=
  let n := Ascii.nat_of_ascii c in
  if ((65 <=? n) && (n <=? 70))%nat then Ascii.ascii_of_nat (n + 32) else c.

Fixpoint castHex (s : string) : string :=
  match s with
  | EmptyString => EmptyString
  | String c s' => String (lowerHexDigit c) (castHex s')
  end.

(** An injective stand-in for the digest: the examples only need equal
    tokens to have equal digests. *)
Definition tagDigest (token : string) : string := "sha256:" ++ token.

(** A stand-in for Node that meets [NodeCryptoSpec], for the examples:
    base64 writes every byte as one character; the UTF-8 of a string
    writes every code unit of its well-formed version in unary, closed by
    a zero byte; the cipher leaves the plaintext as it is and tags it with
    the key. *)
Fixpoint unary (s : JsString) : Buffer :=
  match s with
  | [] => []
  | c :: s' => (repeat Byte.x01 (N.to_nat c) ++ Byte.x00 :: unary s')%list
  end.

Fixpoint fromUnary (count : nat) (buf : Buffer) : JsString :=
  match buf with
  | [] => []
  | Byte.x00 :: buf' => N.of_nat count :: fromUnary 0 buf'
  | _ :: buf' => fromUnary (S count) buf'
  end.

#[global] Instance byte_eq_dec : EqDecision Byte.byte := Byte.byte_eq_dec.

Definition demoNode : NodeCrypto :=
  mkNodeCrypto list_byte_of_string string_of_list_byte
    (fun s => unary (toWellFormed s)) (fromUnary 0)
    (fun key iv plaintext => (plaintext, key))
    (fun key iv tag ciphertext =>
       if bool_decide (tag = key) then Some ciphertext else None).

(** A key of 16 bytes, and a nonce of 12. *)
Definition demoKey : option string := Some "0123456789abcdef".
Definition demoIv : Buffer := repeat Byte.x2a 12.

(** A text over ASCII as a JavaScript string. *)
Definition jsString (s : string) : JsString :=
  List.map Ascii.N_of_ascii (list_ascii_of_string s).

Definition alice : string := "65a0000000000000000000a1".
Definition bob : string := "65a0000000000000000000b2".
Definition carol : string := "65a0000000000000000000c3".
Definition dave : string := "65a0000000000000000000d4".
Definition erin : string := "65a0000000000000000000e5".

Definition lounge : Group.t :=
  Group.mk "65b000000000000000000001" "lounge" open alice 3 [alice; carol] [bob].
Definition board : Group.t :=
  Group.mk "65b000000000000000000002" "board" private alice 2 [alice; carol] [bob].
Definition club : Group.t :=
  Group.mk "65b000000000000000000003" "club" private alice 0 [alice; carol] [bob].

Definition bobAtClub : JoinRequest.t :=
  JoinRequest.mk "65c000000000000000000001" (Group._id club) bob declined 1000.
Definition erinAtBoard : JoinRequest.t :=
  JoinRequest.mk "65c000000000000000000002" (Group._id board) erin pending 2000.
Definition erinAtClub : JoinRequest.t :=
  JoinRequest.mk "65c000000000000000000003" (Group._id club) erin pending 3000.

Definition clubInvite : Invite.t :=
  Invite.mk (Group._id club) alice (tagDigest "s3cret") 1 0 9000000 false.

Definition demoDb : Db :=
  mkDb [lounge; board; club]
       [bobAtClub; erinAtBoard; erinAtClub]
       [LeaveHistory.mk (Group._id club) dave 1000;
        LeaveHistory.mk (Group._id club) dave 5000]
       [clubInvite]
       []
       [User.mk alice "alice@example.com"; User.mk bob "bob@example.com";
        User.mk carol "carol@example.com"; User.mk dave "dave@example.com";
        User.mk erin "erin@example.com"].

(** An id that no stored user has. *)
Definition frank : string := "65a0000000000000000000f6".

Definition teamBody : GroupCreateBody :=
  mkGroupCreateBody "team" "open" 3 (Some [frank; alice; frank; EmptyString]).

Definition newObjectId : string := "65d000000000000000000009".

(** A second database: a group whose owner is alone, with a request and a
    multi-use invite of its own. *)
Definition soloGroup : Group.t :=
  Group.mk "65b000000000000000000004" "solo" private dave 0 [dave] [].
Definition soloInvite : Invite.t :=
  Invite.mk (Group._id soloGroup) dave (tagDigest "solo-token") 3 1 9000000 false.
Definition soloDb : Db :=
  mkDb [club; soloGroup]
       [JoinRequest.mk "65c000000000000000000004" (Group._id soloGroup) erin pending 10]
       [] [clubInvite; soloInvite] [] (users demoDb).

(** A body that names the owner and one more user, each in a spelling
    that is not the stored one. *)
Definition spellingsBody : GroupCreateBody :=
  mkGroupCreateBody "team" "open" 0
    (Some ["65A0000000000000000000A1"; frank; "65A0000000000000000000F6"]).

(** A verifier for the examples: the token names the user, and is good
    for twelve hours from time 0. *)
Definition tagVerify (now : Z) (token : string) : option (option string * option string) :=
  if (now <? 43200000)%Z then
    match token with
    | String "t"%char (String ":"%char sub) => Some (Some sub, None)
    | _ => None
    end
  else None.

(** ** The read-only routes of src/controllers/groupController.js *)

(** A group document under [.select('-bannedUsers')]. *)
Record PublicGroup := mkPublicGroup {
  pg_id : ObjectId;
  pg_name : string;
  pg_type : GroupType;
  pg_owner : ObjectId;
  pg_maxMembers : Z;
  pg_members : list ObjectId }.

Definition selectWithoutBanned (g : Group.t) : PublicGroup :=
  mkPublicGroup (Group._id g) (Group.name g) (Group.type g) (Group.owner g)
    (Group.maxMembers g) (Group.members g).

(** GET /groups/public: the body of the 200 answer. *)
Definition listPublicGroups (db : Db) : list PublicGroup :=
  List.map selectWithoutBanned
    (List.filter (fun g => bool_decide (Group.type g = open)) (groups db)).

Section Mine.
Variable isValidObjectId : string -> bool.
Variable castObjectId : string -> ObjectId.

(** GET /groups/mine: [Group.find({ members: uid })], whole documents, as
    the body of the 200 answer. [uid] is [new
    mongoose.Types.ObjectId(req.user.id)]: the constructor throws on a
    string that is no ObjectId, and the error goes to [next]; then there
    is no body. *)
Definition myGroups (db : Db) (user : string) : option (list Group.t) :=
  if isValidObjectId user then
    let uid := castObjectId user in
    Some (List.filter (fun g => some (fun m => m =? uid) (Group.members g))
            (groups db))
  else None.
End Mine.

(** A join request under [.populate('user', 'email')]: the user's id and
    email, both absent when no such user is stored. *)
Record RequestView := mkRequestView {
  rv_id : ObjectId;
  rv_group : ObjectId;
  rv_user_id : option ObjectId;
  rv_user_email : option string;
  rv_status : Status;
  rv_createdAt : Date }.

Definition populateUser (db : Db) (jr : JoinRequest.t) : RequestView :=
  let user := findOne (fun u => User._id u =? JoinRequest.user jr) (users db) in
  mkRequestView (JoinRequest._id jr) (JoinRequest.group jr)
    (User._id <$> user) (User.email <$> user)
    (JoinRequest.status jr) (JoinRequest.createdAt jr).

(** The order of [.sort({ createdAt: -1 })] on join requests. *)
Definition requestedAt_desc (a b : JoinRequest.t) : Prop :=
  (JoinRequest.createdAt b <= JoinRequest.createdAt a)%Z.

#[global] Instance requestedAt_desc_dec a b : Decision (requestedAt_desc a b).
Proof. unfold requestedAt_desc. apply _. Defined.

#[global] Instance requestedAt_desc_trans : Transitive requestedAt_desc.
Proof. unfold requestedAt_desc. intros a b c ? ?. lia. Qed.

#[global] Instance requestedAt_desc_total : Total requestedAt_desc.
Proof. unfold requestedAt_desc. intros a b. lia. Qed.

(** The filter [{ group: group._id, status: 'pending' }]. *)
Definition pendingOf (gid : ObjectId) (jr : JoinRequest.t) : bool :=
  (JoinRequest.group jr =? gid) && bool_decide (JoinRequest.status jr = pending).

Section ReadRoutes.
Variable isValidObjectId : string -> bool.
Variable castObjectId : string -> ObjectId.

(** GET /groups/:groupId/requests  (owner; PENDING ONLY). An error answer
    is on the left, the body of the 200 answer on the right. *)
Definition listJoinRequests (db : Db) (user : ObjectId) (groupId : string)
  : Response + list RequestView :=
  if negb (isValidObjectId groupId) then
    inl (mkRes 400 (JError "Invalid groupId"))
  else
    match findOne (byGroupId (castObjectId groupId)) (groups db) with
    | None => inl (mkRes 404 (JError "Group not found"))
    | Some group =>
      if negb (Group.owner group =? user) then
        inl (mkRes 403 (JError "Only owner"))
      else
        let requests :=
          merge_sort requestedAt_desc
            (List.filter (pendingOf (Group._id group)) (joinRequests db)) in
        inr (List.map (populateUser db) requests)
    end.
End ReadRoutes.

(** ** src/middleware/auth.js *)

(** [hdr.slice(n)]. *)
Fixpoint slice (n : nat) (s : string) : string :=
  match n, s with
  | O, _ => s
  | S n', String _ s' => slice n' s'
  | S _, EmptyString => EmptyString
  end.

Section Auth.
(** [jwt.verify(token, process.env.JWT_SECRET)] at a given time: the
    [sub] and [email] of the decoded payload, each absent when the payload
    has no such field, or nothing when it throws. *)
Variable jwtVerify : Date -> string -> option (option string * option string).

(** [authRequired]: the 401 answer on the left, the [req.user] that is
    handed to [next()] on the right: its [id] and [email]. An absent header
    is [None]. *)
Definition authRequired (now : Date) (authorization : option string)
  : Response + option string * option string :=
  let hdr := default EmptyString authorization in
  let token := if String.prefix "Bearer " hdr then Some (slice 7 hdr) else None in
  match token with
  | None => inl (mkRes 401 (JError "Missing token"))
  | Some token =>
    if token =? EmptyString then inl (mkRes 401 (JError "Missing token"))
    else
      match jwtVerify now token with
      | Some (sub, email) => inr (sub, email)
      | None => inl (mkRes 401 (JError "Invalid token"))
      end
  end.
End Auth.

(** ** Invariants of the stored documents *)

(** owner ∈ members *)
Definition ownerIsMember (g : Group.t) : Prop := Group.owner g ∈ Group.members g.

(** members and bannedUsers hold no id twice *)
Definition rostersAreSets (g : Group.t) : Prop :=
  NoDup (Group.members g) /\ NoDup (Group.bannedUsers g).

(** the capacity is 0 or at least 2 *)
Definition capacityValid (g : Group.t) : Prop :=
  Group.maxMembers g = 0%Z \/ (2 <= Group.maxMembers g)%Z.

#[global] Instance ownerIsMember_dec g : Decision (ownerIsMember g).
Proof. unfold ownerIsMember. apply _. Defined.
#[global] Instance rostersAreSets_dec g : Decision (rostersAreSets g).
Proof. unfold rostersAreSets. apply _. Defined.
#[global] Instance capacityValid_dec g : Decision (capacityValid g).
Proof. unfold capacityValid. apply _. Defined.

(** What one request writes to one stored group, with everything the
    controller has checked before the write. *)
Inductive MemberWrite (g : Group.t) : Group.t -> Prop :=
  | MemberJoin u :
      u ∉ Group.bannedUsers g -> u ∉ Group.members g -> capacityOk g = true ->
      MemberWrite g (Group.set_members (Group.members g ++ [u])%list g)
  | MemberApprove u :
      capacityOk g = true -> MemberWrite g (pullBanned_addMember u g)
  | MemberLeave u before after :
      Group.members g = (before ++ u :: after)%list -> u ∉ before ->
      u ≠ Group.owner g ->
      MemberWrite g (Group.set_members (before ++ after)%list g)
  | MemberBanish u :
      u ≠ Group.owner g -> u ∈ Group.members g -> u ∉ Group.bannedUsers g ->
      MemberWrite g
        (Group.set_bannedUsers (Group.bannedUsers g ++ [u])%list
           (Group.set_members
              (List.filter (fun m => negb (m =? u)) (Group.members g)) g))
  | MemberTransfer o :
      o ∈ Group.members g -> MemberWrite g (Group.set_owner o g).

(** A group as [createGroup] stores it. *)
Definition CreatedGroup (g : Group.t) : Prop :=
  Group.bannedUsers g = []
  /\ (exists ids, Group.members g = Group.owner g :: ids)
  /\ capacityValid g
  /\ withinCapacity g.

(** What a request other than a creation does to the collection of
    groups: nothing, one write to one group, or the deletion of a group
    with at most one member. *)
Inductive GroupsRewrite (l : list Group.t) : list Group.t -> Prop :=
  | GroupsSame : GroupsRewrite l l
  | GroupsWrite g g' :
      findOne (byGroupId (Group._id g)) l = Some g -> MemberWrite g g' ->
      GroupsRewrite l (updateOne (byGroupId (Group._id g)) (fun _ => g') l)
  | GroupsDelete g :
      findOne (byGroupId (Group._id g)) l = Some g ->
      (length (Group.members g) <= 1)%nat ->
      GroupsRewrite l (deleteOne (byGroupId (Group._id g)) l).

(** What one request does to the collection of groups. *)
Inductive GroupsChange (l : list Group.t) : list Group.t -> Prop :=
  | GroupsKept l' : GroupsRewrite l l' -> GroupsChange l l'
  | GroupsCreate g' :
      CreatedGroup g' -> findOne (byGroupId (Group._id g')) l = None ->
      GroupsChange l (l ++ [g'])%list.

(** The requests that write the initial members of a new group the way
    they are stored: each id is its own cast. *)
Definition canonicalInitialIds (castObjectId : string -> ObjectId)
    (r : GroupRequest) : Prop :=
  match r with
  | PostGroup _ _ body =>
    Forall (fun id => castObjectId id = id) (default [] (b_initialMemberIds body))
  | _ => True
  end.

(** No two stored groups share an [_id]. *)
Definition groupIdsUnique (db : Db) : Prop := NoDup (List.map Group._id (groups db)).

(** One join request per [_id] and per (group, user) pair. *)
Definition requestKey (jr : JoinRequest.t) : string * string :=
  (JoinRequest.group jr, JoinRequest.user jr).

Definition requestsUnique (db : Db) : Prop :=
  NoDup (List.map JoinRequest._id (joinRequests db))
  /\ NoDup (List.map requestKey (joinRequests db)).

(** An invite has at least one use to give, has given no more than that,
    and is disabled once spent. *)
Definition inviteOk (i : Invite.t) : Prop :=
  (1 <= Invite.maxUses i)%Z
  /\ (0 <= Invite.uses i <= Invite.maxUses i)%Z
  /\ (Invite.uses i = Invite.maxUses i -> Invite.disabled i = true).

#[global] Instance inviteOk_dec i : Decision (inviteOk i).
Proof. unfold inviteOk. apply _. Defined.
#[global] Instance groupIdsUnique_dec db : Decision (groupIdsUnique db).
Proof. unfold groupIdsUnique. apply _. Defined.
#[global] Instance requestsUnique_dec db : Decision (requestsUnique db).
Proof. unfold requestsUnique. apply _. Defined.

(** What one request does to the collection of join requests: nothing, a
    new status for the first request that matches a filter, or a pending
    request under an unused [_id] for a pair that had none. *)
Inductive RequestsChange (l : list JoinRequest.t) : list JoinRequest.t -> Prop :=
  | RequestsSame : RequestsChange l l
  | RequestsStatus p s :
      RequestsChange l (updateOne p (JoinRequest.set_status s) l)
  | RequestsInsert jr :
      findOne (byRequestId (JoinRequest._id jr)) l = None ->
      findOne (byGroupUser (JoinRequest.group jr) (JoinRequest.user jr)) l = None ->
      JoinRequest.status jr = pending ->
      RequestsChange l (l ++ [jr])%list.

(** The invite after one redemption. *)
Definition redeemed (i : Invite.t) : Invite.t :=
  Invite.mk (Invite.group i) (Invite.owner i) (Invite.tokenHash i)
    (Invite.maxUses i) (Invite.uses i + 1) (Invite.expiresAt i)
    (if (Invite.maxUses i <=? Invite.uses i + 1)%Z then true else Invite.disabled i).

(** What one request does to the collection of invites: nothing, a new
    unused invite under an unused hash, or one redemption of an invite
    that is enabled and not spent. *)
Inductive InvitesChange (l : list Invite.t) : list Invite.t -> Prop :=
  | InvitesSame : InvitesChange l l
  | InvitesInsert i :
      findOne (byTokenHash (Invite.tokenHash i)) l = None ->
      Invite.uses i = 0%Z -> (1 <= Invite.maxUses i)%Z ->
      Invite.disabled i = false ->
      InvitesChange l (l ++ [i])%list
  | InvitesRedeem i :
      findOne (byTokenHash (Invite.tokenHash i)) l = Some i ->
      Invite.disabled i = false -> (Invite.uses i < Invite.maxUses i)%Z ->
      InvitesChange l
        (updateOne (byTokenHash (Invite.tokenHash i)) (fun _ => redeemed i) l).

(** No two stored invites share a token hash. *)
Definition tokenHashesUnique (db : Db) : Prop :=
  NoDup (List.map Invite.tokenHash (invites db)).

#[global] Instance tokenHashesUnique_dec db : Decision (tokenHashesUnique db).
Proof. unfold tokenHashesUnique. apply _. Defined.

(** A database in which no group route has written yet. *)
Definition blankDb (ms : list Message.t)
    (us : list User.t) : Db :=
  mkDb [] [] [] [] ms us.

(** * Properties *)

(** ** Collections *)

Lemma some_eqb_true (u : string) (l : list string) :
  some (fun m => m =? u) l = true <-> u ∈ l.
Proof.
  unfold some. rewrite existsb_exists. split.
  - intros (x & Hin & Heq). apply String.eqb_eq in Heq. subst x.
    by apply list_elem_of_In.
  - intros Hin. exists u. split; [by apply list_elem_of_In | apply String.eqb_refl].
Qed.

Lemma some_eqb_false (u : string) (l : list string) :
  some (fun m => m =? u) l = false <-> u ∉ l.
Proof.
  rewrite <- some_eqb_true. destruct (some _ l); split; congruence.
Qed.

Section CollectionFacts.
Context {A : Type}.
Implicit Types (p : A -> bool) (f : A -> A) (c : list A).

Lemma findOne_Some p c x : findOne p c = Some x -> x ∈ c /\ p x = true.
Proof.
  intros H. apply List.find_some in H as [Hin Hp].
  split; [by apply list_elem_of_In | done].
Qed.

Lemma elem_of_updateOne p f c y :
  y ∈ updateOne p f c -> y ∈ c \/ exists x, findOne p c = Some x /\ y = f x.
Proof.
  unfold findOne. induction c as [|a c IH]; simpl; [by left|].
  destruct (p a) eqn:Hp.
  - intros [->|Hin]%elem_of_cons.
    + right. by exists a.
    + left. by right.
  - intros [->|Hin]%elem_of_cons; [left; left|].
    destruct (IH Hin) as [H|(x & Hx & ->)].
    + left. by right.
    + right. by exists x.
Qed.

Lemma elem_of_deleteOne p c y : y ∈ deleteOne p c -> y ∈ c.
Proof.
  induction c as [|a c IH]; simpl; [done|].
  destruct (p a); [by right|].
  intros [->|Hin]%elem_of_cons; [left | right; auto].
Qed.

(** After an update that keeps the filter true, the filter finds the
    updated document. *)
Lemma findOne_updateOne p f c x :
  findOne p c = Some x -> p (f x) = true ->
  findOne p (updateOne p f c) = Some (f x).
Proof.
  unfold findOne. induction c as [|a c IH]; simpl; [done|].
  destruct (p a) eqn:Hp.
  - intros [= ->] Hf. simpl. by rewrite Hf.
  - intros H Hf. simpl. rewrite Hp. auto.
Qed.

Lemma findOne_replace p c x y :
  findOne p c = Some x -> p y = true ->
  findOne p (updateOne p (fun _ => y) c) = Some y.
Proof. intros H Hy. by apply (findOne_updateOne p (fun _ => y) c x). Qed.

(** An update of documents that a second filter [q] rejects, before and
    after, is invisible to [q]. *)
Lemma findOne_updateOne_ne p q f c :
  (forall x, p x = true -> q x = false /\ q (f x) = false) ->
  findOne q (updateOne p f c) = findOne q c.
Proof.
  intros Hq. unfold findOne. induction c as [|a c IH]; simpl; [done|].
  destruct (p a) eqn:Hp; simpl.
  - destruct (Hq a Hp) as [-> ->]. done.
  - by rewrite IH.
Qed.

Lemma findOne_app_l p c c' x :
  findOne p c = Some x -> findOne p (c ++ c') = Some x.
Proof.
  unfold findOne. induction c as [|a c IH]; simpl; [done|].
  destruct (p a); auto.
Qed.

Lemma findOne_app_r p c c' :
  findOne p c = None -> findOne p (c ++ c') = findOne p c'.
Proof.
  unfold findOne. induction c as [|a c IH]; simpl; [done|].
  destruct (p a); [done | auto].
Qed.

Lemma some_findOne p c : some p c = false <-> findOne p c = None.
Proof.
  unfold some, findOne. induction c as [|a c IH]; simpl; [done|].
  destruct (p a); simpl; [split; discriminate | done].
Qed.
End CollectionFacts.

(** ** The ban check *)

Lemma upsertPending_inr newId now gid uid jrs jr jrs' :
  upsertPending newId now gid uid jrs = inr (jr, jrs') ->
  findOne (byGroupUser gid uid) jrs' = Some jr
  /\ JoinRequest.status jr = pending
  /\ JoinRequest.group jr = gid /\ JoinRequest.user jr = uid
  /\ match findOne (byGroupUser gid uid) jrs with
     | Some old =>
       jr = JoinRequest.set_status pending old
       /\ jrs' = updateOne (byGroupUser gid uid) (JoinRequest.set_status pending) jrs
     | None =>
       jr = JoinRequest.mk newId gid uid pending now
       /\ jrs' = (jrs ++ [jr])%list
       /\ findOne (byRequestId newId) jrs = None
     end.
Proof.
  unfold upsertPending.
  destruct (findOne (byGroupUser gid uid) jrs) as [old|] eqn:Hold.
  - intros [= <- <-].
    pose proof (findOne_Some _ _ _ Hold) as [_ Hp].
    unfold byGroupUser in Hp. apply andb_true_iff in Hp as [Hg Hu].
    apply String.eqb_eq in Hg, Hu.
    split; [|by destruct old].
    apply findOne_updateOne; [done|].
    unfold byGroupUser. simpl. rewrite Hg, Hu. by rewrite !String.eqb_refl.
  - destruct (some (byRequestId newId) jrs) eqn:Hid; [done|].
    intros [= <- <-]. simpl. split; [|repeat split; try done; by apply some_findOne].
    rewrite findOne_app_r by done. unfold findOne, byGroupUser. simpl.
    by rewrite !String.eqb_refl.
Qed.

Lemma ensureNotBanned_groups db newId now g u :
  groups (snd (ensureNotBanned db newId now g u)) = groups db.
Proof.
  unfold ensureNotBanned. repeat case_match; done.
Qed.

Lemma ensureNotBanned_None db newId now g u db1 :
  ensureNotBanned db newId now g u = (None, db1) ->
  db1 = db /\ u ∉ Group.bannedUsers g.
Proof.
  unfold ensureNotBanned.
  destruct (some (fun x => x =? u) (Group.bannedUsers g)) eqn:Hb.
  - repeat case_match; done.
  - intros [= <-]. split; [done | by apply some_eqb_false].
Qed.

(** ** Every write to a stored group is one of [GroupWrite] *)

Lemma GroupsStep_refl l : GroupsStep l l.
Proof. intros g' H. by left. Qed.

Lemma GroupsStep_updateOne p f l g :
  findOne p l = Some g -> GroupWrite g (f g) -> GroupsStep l (updateOne p f l).
Proof.
  intros Hfind Hw h [Hin|(x & Hx & ->)]%elem_of_updateOne; [by left|].
  right. left. exists g. rewrite Hfind in Hx. injection Hx as <-.
  split; [|done]. by apply findOne_Some in Hfind as [? _].
Qed.

Lemma findOne_byGroupId gid l g :
  findOne (byGroupId gid) l = Some g -> g ∈ l /\ Group._id g = gid.
Proof.
  intros [Hin Hp]%findOne_Some. split; [done|]. by apply String.eqb_eq in Hp.
Qed.

Section Steps.
Variable isValidObjectId : string -> bool.
Variable castObjectId : string -> ObjectId.
Variable sha256 : string -> string.

Lemma joinOpenGroup_step db newId now user groupId :
  GroupsStep (groups db)
    (groups (snd (joinOpenGroup isValidObjectId castObjectId db newId now user groupId))).
Proof.
  unfold joinOpenGroup.
  destruct (isValidObjectId groupId); simpl; [|apply GroupsStep_refl].
  destruct (findOne _ _) as [group|] eqn:Hg; simpl; [|apply GroupsStep_refl].
  case_bool_decide; simpl; [|apply GroupsStep_refl].
  destruct (ensureNotBanned _ _ _ _ _) as [[err|] db1] eqn:He; simpl.
  - pose proof (ensureNotBanned_groups db newId now group user) as Hgs.
    rewrite He in Hgs. simpl in Hgs. rewrite Hgs. apply GroupsStep_refl.
  - apply ensureNotBanned_None in He as [-> Hnb].
    destruct (some _ (Group.members group)) eqn:Hm; simpl; [apply GroupsStep_refl|].
    destruct (capacityOk group) eqn:Hc; simpl; [|apply GroupsStep_refl].
    apply findOne_byGroupId in Hg as Hg'. destruct Hg' as [Hin Hid].
    apply (GroupsStep_updateOne _ _ _ group); [by rewrite Hid|].
    constructor; [done | by apply some_eqb_false | done].
Qed.

Lemma submitJoinRequest_groups db newId now group uid :
  groups (snd (submitJoinRequest db newId now group uid)) = groups db.
Proof. unfold submitJoinRequest. repeat case_match; done. Qed.

Lemma requestJoinPrivate_groups db newId now user groupId :
  groups (snd (requestJoinPrivate isValidObjectId castObjectId db newId now user groupId))
  = groups db.
Proof.
  unfold requestJoinPrivate.
  repeat (case_match; simpl; try done);
    rewrite ?submitJoinRequest_groups;
    match goal with
    | H : ensureNotBanned ?db ?i ?n ?g ?u = (_, ?db1) |- _ =>
      pose proof (ensureNotBanned_groups db i n g u) as Hgs;
      rewrite H in Hgs; exact Hgs
    end.
Qed.

Lemma decideJoinRequest_step db user requestId decision :
  GroupsStep (groups db)
    (groups (snd (decideJoinRequest isValidObjectId castObjectId db user requestId decision))).
Proof.
  unfold decideJoinRequest.
  repeat (case_match; simpl; try apply GroupsStep_refl).
  match goal with H : findOne (byGroupId _) _ = Some ?g |- _ =>
    apply findOne_byGroupId in H as Hg'; destruct Hg' as [Hin Hid];
    apply (GroupsStep_updateOne _ _ _ g); [by rewrite Hid|]
  end.
  constructor. by destruct (capacityOk _).
Qed.

Lemma leaveGroup_step db now user groupId :
  GroupsStep (groups db)
    (groups (snd (leaveGroup isValidObjectId castObjectId db now user groupId))).
Proof.
  unfold leaveGroup.
  repeat (case_match; simpl; try apply GroupsStep_refl);
  match goal with H : findOne (byGroupId _) _ = Some ?g |- _ =>
    apply findOne_byGroupId in H as Hg'; destruct Hg' as [Hin Hid];
    apply (GroupsStep_updateOne _ _ _ g); [by rewrite Hid|]
  end; constructor.
Qed.

Lemma banishMember_step db user groupId userId :
  GroupsStep (groups db)
    (groups (snd (banishMember isValidObjectId castObjectId db user groupId userId))).
Proof.
  unfold banishMember.
  repeat (case_match; simpl in *; try apply GroupsStep_refl); try done.
  match goal with H : findOne (byGroupId _) _ = Some ?g |- _ =>
    apply findOne_byGroupId in H as Hg'; destruct Hg' as [Hin Hid];
    apply (GroupsStep_updateOne _ _ _ g); [by rewrite Hid|]
  end. constructor.
Qed.

Lemma transferOwnership_step db user groupId newOwnerId :
  GroupsStep (groups db)
    (groups (snd (transferOwnership isValidObjectId castObjectId db user groupId newOwnerId))).
Proof.
  unfold transferOwnership.
  repeat (case_match; simpl in *; try apply GroupsStep_refl); try done.
  match goal with H : findOne (byGroupId _) _ = Some ?g |- _ =>
    apply findOne_byGroupId in H as Hg'; destruct Hg' as [Hin Hid];
    apply (GroupsStep_updateOne _ _ _ g); [by rewrite Hid|]
  end. constructor. apply some_eqb_true. by destruct (some _ _).
Qed.

Lemma deleteGroup_step db user groupId :
  GroupsStep (groups db)
    (groups (snd (deleteGroup isValidObjectId castObjectId db user groupId))).
Proof.
  unfold deleteGroup.
  repeat (case_match; simpl in *; try apply GroupsStep_refl); try done.
  intros g' Hin. left. by apply elem_of_deleteOne in Hin.
Qed.

Lemma createInvite_groups db now rawToken user groupId body :
  groups (snd (createInvite isValidObjectId castObjectId sha256 db now rawToken user groupId body))
  = groups db.
Proof. unfold createInvite. repeat (case_match; simpl; try done). Qed.

Lemma joinWithInvite_step db now user token :
  GroupsStep (groups db) (groups (snd (joinWithInvite sha256 db now user token))).
Proof.
  unfold joinWithInvite.
  repeat (case_match; simpl in *; try apply GroupsStep_refl); try done.
  match goal with H : findOne (byGroupId _) _ = Some ?g |- _ =>
    apply findOne_byGroupId in H as Hg'; destruct Hg' as [Hin Hid];
    apply (GroupsStep_updateOne _ _ _ g); [by rewrite Hid|]
  end.
  constructor.
  - apply some_eqb_false. by destruct (some _ (Group.bannedUsers _)).
  - apply some_eqb_false. by destruct (some _ (Group.members _)).
  - by destruct (capacityOk _).
Qed.

Lemma createGroup_step db newId user body :
  GroupsStep (groups db)
    (groups (snd (createGroup isValidObjectId castObjectId db newId user body))).
Proof.
  unfold createGroup.
  repeat (case_match; simpl in *; try apply GroupsStep_refl); try done.
  intros g' [Hin| ->%list_elem_of_singleton]%elem_of_app; [by left|].
  right. right. split; [done|]. unfold withinCapacity. simpl.
  rewrite length_map.
  match goal with Hc : negb _ && _ = false |- _ =>
    apply andb_false_iff in Hc as [Hc|Hc];
      [left; apply negb_false_iff in Hc; lia | right; lia]
  end.
Qed.

Theorem groupsRouter_step db r :
  GroupsStep (groups db) (groups (snd (groupsRouter isValidObjectId castObjectId sha256 db r))).
Proof.
  destruct r; simpl.
  - apply createGroup_step.
  - apply joinOpenGroup_step.
  - rewrite requestJoinPrivate_groups. apply GroupsStep_refl.
  - apply decideJoinRequest_step.
  - apply leaveGroup_step.
  - apply banishMember_step.
  - apply transferOwnership_step.
  - apply deleteGroup_step.
  - rewrite createInvite_groups. apply GroupsStep_refl.
  - apply joinWithInvite_step.
Qed.
End Steps.

(** ** Group writes keep the invariants *)

Lemma elem_of_List_filter {A} (p : A -> bool) (l : list A) (x : A) :
  x ∈ List.filter p l <-> x ∈ l /\ p x = true.
Proof. rewrite !list_elem_of_In. apply List.filter_In. Qed.

Lemma GroupWrite_id g g' : GroupWrite g g' -> Group._id g' = Group._id g.
Proof. by destruct 1. Qed.

Lemma GroupWrite_maxMembers g g' :
  GroupWrite g g' -> Group.maxMembers g' = Group.maxMembers g.
Proof. by destruct 1. Qed.

Lemma GroupWrite_disjoint g g' :
  GroupWrite g g' -> membersBannedDisjoint g -> membersBannedDisjoint g'.
Proof.
  unfold membersBannedDisjoint.
  destruct 1 as [u Hb Hm Hc|u Hc|idx|u|o Ho]; simpl; intros Hd x Hx Hbx.
  - apply elem_of_app in Hx as [Hx| ->%list_elem_of_singleton]; eauto.
  - apply elem_of_List_filter in Hbx as [Hbx Hne].
    apply negb_true_iff, String.eqb_neq in Hne.
    destruct (some _ (Group.members g)); [eauto|].
    apply elem_of_app in Hx as [Hx| ->%list_elem_of_singleton]; eauto.
  - unfold splice1 in Hx. apply (Hd x); [|done].
    exact (elem_of_sublist _ _ _ Hx (sublist_delete _ _)).
  - apply elem_of_List_filter in Hx as [Hx Hne].
    apply negb_true_iff, String.eqb_neq in Hne.
    apply elem_of_app in Hbx as [Hbx| ->%list_elem_of_singleton]; eauto.
  - eauto.
Qed.

(** A write makes the member list longer by at most one, and only after
    [capacityOk]. *)
Lemma GroupWrite_length g g' :
  GroupWrite g g' ->
  (length (Group.members g') <= length (Group.members g))%nat
  \/ capacityOk g = true
     /\ length (Group.members g') = S (length (Group.members g)).
Proof.
  destruct 1 as [u Hb Hm Hc|u Hc|idx|u|o Ho]; simpl.
  - right. split; [done|]. rewrite length_app. simpl. lia.
  - destruct (some _ (Group.members g)); [by left|].
    right. split; [done|]. rewrite length_app. simpl. lia.
  - left. unfold splice1. apply sublist_length, sublist_delete.
  - left. apply List.filter_length_le.
  - by left.
Qed.

Lemma capacityOk_true g :
  capacityOk g = true <->
  Group.maxMembers g = 0%Z
  \/ (Z.of_nat (length (Group.members g)) < Group.maxMembers g)%Z.
Proof.
  unfold capacityOk. rewrite orb_true_iff, Z.eqb_eq, Z.ltb_lt. done.
Qed.

Lemma GroupWrite_capacity g g' :
  GroupWrite g g' -> withinCapacity g -> withinCapacity g'.
Proof.
  intros Hw Hc. unfold withinCapacity in *.
  rewrite (GroupWrite_maxMembers _ _ Hw).
  destruct (GroupWrite_length _ _ Hw) as [Hle|[Hok Hlen]].
  - destruct Hc as [Hc|Hc]; [by left | right; lia].
  - apply capacityOk_true in Hok as [Hok|Hok]; [by left | right; lia].
Qed.

Lemma pullBanned_addMember_user u g :
  u ∈ Group.members (pullBanned_addMember u g)
  /\ u ∉ Group.bannedUsers (pullBanned_addMember u g).
Proof.
  unfold pullBanned_addMember. simpl. split.
  - destruct (some _ (Group.members g)) eqn:Hm; [by apply some_eqb_true|].
    apply elem_of_app. right. by left.
  - intros [_ Hne]%elem_of_List_filter. by rewrite String.eqb_refl in Hne.
Qed.

Section Invariants.
Variable isValidObjectId : string -> bool.
Variable castObjectId : string -> ObjectId.
Variable sha256 : string -> string.

(** A successful banish leaves the target banned and out of members. *)
Lemma banishMember_effect db user groupId userId res db' :
  banishMember isValidObjectId castObjectId db user groupId userId = (res, db') ->
  body res = JMessage "User banished" ->
  exists g', findOne (byGroupId (castObjectId groupId)) (groups db') = Some g'
             /\ (userId ∉ Group.members g') /\ userId ∈ Group.bannedUsers g'.
Proof.
  unfold banishMember.
  repeat (case_match; simpl in *; try done); intros [= <- <-]; try done.
  all: intros _; simpl;
    match goal with H : findOne (byGroupId _) _ = Some ?g |- _ =>
      pose proof (findOne_byGroupId _ _ _ H) as [Hin Hid];
      rewrite Hid; eexists; split;
        [ apply (findOne_updateOne _ _ _ g);
          [ done
          | unfold byGroupId; simpl; rewrite Hid; apply String.eqb_refl ]
        | ]
    end; simpl.
  split.
  - intros [_ Hne]%elem_of_List_filter. by rewrite String.eqb_refl in Hne.
  - apply elem_of_app. right. by left.
Qed.

(** A successful approval leaves the requester a member and not banned. *)
Lemma decideJoinRequest_approved db user requestId decision res db' :
  decideJoinRequest isValidObjectId castObjectId db user requestId decision = (res, db') ->
  body res = JMessageStatus "Decision recorded" approved ->
  exists jr g',
    findOne (byRequestId (castObjectId requestId)) (joinRequests db) = Some jr
    /\ findOne (byGroupId (JoinRequest.group jr)) (groups db') = Some g'
    /\ JoinRequest.user jr ∈ Group.members g'
    /\ JoinRequest.user jr ∉ Group.bannedUsers g'.
Proof.
  unfold decideJoinRequest.
  repeat (case_match; simpl in *; try done); intros [= <- <-]; try done.
  intros _. simpl.
  match goal with
    H : findOne (byGroupId _) _ = Some ?g, H' : findOne (byRequestId _) _ = Some ?jr |- _ =>
    pose proof (findOne_byGroupId _ _ _ H) as [Hin Hid];
    exists jr, (pullBanned_addMember (JoinRequest.user jr) g);
    split; [done|]; split;
      [ rewrite Hid; apply (findOne_updateOne _ _ _ g);
        [ done
        | unfold byGroupId; simpl; rewrite Hid; apply String.eqb_refl ]
      | apply pullBanned_addMember_user ]
  end.
Qed.

(** C1. For every group and every request of the membership engine
    (create, join-open, request-join, decision, leave, banish, transfer,
    delete, invite creation and redemption): a group stored after the
    request either was just created with members ∩ banned = ∅, or stems
    from a stored group with the same id and has members ∩ banned = ∅
    whenever that group had; so the invariant holds of all groups after
    the request if it held of all groups before. In particular a
    successful banish leaves the target in banned and out of members,
    and a successful approval leaves the requester in members and out of
    banned. *)
Theorem members_banned_disjoint_preserved db r :
  let db' := snd (groupsRouter isValidObjectId castObjectId sha256 db r) in
  (forall g', g' ∈ groups db' ->
     membersBannedDisjoint g' /\ Group.bannedUsers g' = []
     \/ exists g, g ∈ groups db /\ Group._id g' = Group._id g
                  /\ (membersBannedDisjoint g -> membersBannedDisjoint g'))
  /\ (Forall membersBannedDisjoint (groups db) ->
      Forall membersBannedDisjoint (groups db'))
  /\ (forall user groupId userId,
        r = PostBanish user groupId userId ->
        body (fst (groupsRouter isValidObjectId castObjectId sha256 db r))
          = JMessage "User banished" ->
        exists g', findOne (byGroupId (castObjectId groupId)) (groups db') = Some g'
                   /\ (userId ∉ Group.members g')
                   /\ userId ∈ Group.bannedUsers g')
  /\ (forall user requestId decision,
        r = PostDecision user requestId decision ->
        body (fst (groupsRouter isValidObjectId castObjectId sha256 db r))
          = JMessageStatus "Decision recorded" approved ->
        exists jr g',
          findOne (byRequestId (castObjectId requestId)) (joinRequests db) = Some jr
          /\ findOne (byGroupId (JoinRequest.group jr)) (groups db') = Some g'
          /\ JoinRequest.user jr ∈ Group.members g'
          /\ JoinRequest.user jr ∉ Group.bannedUsers g').
Proof.
  intros db'.
  assert (Hper : forall g', g' ∈ groups db' ->
     membersBannedDisjoint g' /\ Group.bannedUsers g' = []
     \/ exists g, g ∈ groups db /\ Group._id g' = Group._id g
                  /\ (membersBannedDisjoint g -> membersBannedDisjoint g')).
  { intros g' Hin.
    destruct (groupsRouter_step isValidObjectId castObjectId sha256 db r g' Hin)
      as [Hold|[(g & Hg & Hw)|[Hb Hc]]].
    - right. by exists g'.
    - right. exists g. split; [done|]. split; [by apply GroupWrite_id|].
      by apply GroupWrite_disjoint.
    - left. split; [|done]. intros u _ Hu. rewrite Hb in Hu. by apply elem_of_nil in Hu. }
  split; [exact Hper|]. split; [|split].
  - rewrite !Forall_forall. intros Hall g' Hin.
    destruct (Hper g' Hin) as [[H _]|(g & Hg & _ & H)]; auto.
  - intros user groupId userId -> Hb. subst db'. simpl in *.
    destruct (banishMember _ _ _ _ _) as [res db1] eqn:He.
    by apply (banishMember_effect _ _ _ _ _ _ He).
  - intros user requestId decision -> Hb. subst db'. simpl in *.
    destruct (decideJoinRequest _ _ _ _ _) as [res db1] eqn:He.
    by apply (decideJoinRequest_approved _ _ _ _ _ _ He).
Qed.

(** C2. For every group and every request of the membership engine,
    handled one after the other: a group stored after the request was
    stored unchanged before, or was just created within its capacity, or
    stems from a stored group with the same id and capacity whose member
    list did not grow, or grew by one after [capacityOk] held of it (the
    capacity is 0 or the member count is strictly below it); so
    capacity = 0 ∨ |members| ≤ capacity holds of all groups after the
    request if it held of all groups before. *)
Theorem within_capacity_preserved db r :
  let db' := snd (groupsRouter isValidObjectId castObjectId sha256 db r) in
  (forall g', g' ∈ groups db' ->
     g' ∈ groups db
     \/ withinCapacity g'
     \/ exists g, g ∈ groups db /\ Group._id g' = Group._id g
          /\ Group.maxMembers g' = Group.maxMembers g
          /\ ((length (Group.members g') <= length (Group.members g))%nat
              \/ capacityOk g = true
                 /\ length (Group.members g') = S (length (Group.members g)))
          /\ (withinCapacity g -> withinCapacity g'))
  /\ (Forall withinCapacity (groups db) -> Forall withinCapacity (groups db')).
Proof.
  intros db'.
  assert (Hper : forall g', g' ∈ groups db' ->
     g' ∈ groups db
     \/ withinCapacity g'
     \/ exists g, g ∈ groups db /\ Group._id g' = Group._id g
          /\ Group.maxMembers g' = Group.maxMembers g
          /\ ((length (Group.members g') <= length (Group.members g))%nat
              \/ capacityOk g = true
                 /\ length (Group.members g') = S (length (Group.members g)))
          /\ (withinCapacity g -> withinCapacity g')).
  { intros g' Hin.
    destruct (groupsRouter_step isValidObjectId castObjectId sha256 db r g' Hin)
      as [Hold|[(g & Hg & Hw)|[Hb Hc]]]; [by left| |by right; left].
    right. right. exists g. split; [done|].
    split; [by apply GroupWrite_id|]. split; [by apply GroupWrite_maxMembers|].
    split; [by apply GroupWrite_length | by apply GroupWrite_capacity]. }
  split; [exact Hper|].
  rewrite !Forall_forall. intros Hall g' Hin.
  destruct (Hper g' Hin) as [H|[H|(g & Hg & _ & _ & _ & H)]]; auto.
Qed.
End Invariants.

Lemma membersBannedDisjointb_spec g :
  membersBannedDisjointb g = true -> membersBannedDisjoint g.
Proof.
  unfold membersBannedDisjointb. rewrite forallb_forall. intros H u Hu Hb.
  apply list_elem_of_In in Hu. specialize (H u Hu).
  apply negb_true_iff in H. apply some_eqb_false in H. done.
Qed.

Lemma membersBannedDisjointb_true l :
  forallb membersBannedDisjointb l = true -> Forall membersBannedDisjoint l.
Proof.
  rewrite forallb_forall, Forall_forall. intros H g Hg.
  apply membersBannedDisjointb_spec, H. by apply list_elem_of_In.
Qed.

Lemma withinCapacityb_true l :
  forallb withinCapacityb l = true -> Forall withinCapacity l.
Proof.
  rewrite forallb_forall, Forall_forall. intros H g Hg.
  apply list_elem_of_In in Hg. specialize (H g Hg).
  unfold withinCapacityb in H. unfold withinCapacity.
  apply orb_true_iff in H as [H|H]; [left | right]; lia.
Qed.

Lemma members_banned_disjoint_preserved_witness :
  Forall membersBannedDisjoint
    (groups (snd (groupsRouter isHex24 castHex tagDigest demoDb
                    (PostBanish alice (Group._id club) carol)))).
Proof.
  apply (members_banned_disjoint_preserved isHex24 castHex tagDigest demoDb
           (PostBanish alice (Group._id club) carol)).
  apply membersBannedDisjointb_true. reflexivity.
Defined.

Lemma within_capacity_preserved_witness :
  Forall withinCapacity
    (groups (snd (groupsRouter isHex24 castHex tagDigest demoDb
                    (PostJoinOpen newObjectId 7000 dave (Group._id lounge))))).
Proof.
  apply (within_capacity_preserved isHex24 castHex tagDigest demoDb
           (PostJoinOpen newObjectId 7000 dave (Group._id lounge))).
  apply withinCapacityb_true. reflexivity.
Defined.

Example banish_carol :
  groups (snd (groupsRouter isHex24 castHex tagDigest demoDb
                 (PostBanish alice (Group._id club) carol)))
  = [lounge; board;
     Group.mk "65b000000000000000000003" "club" private alice 0 [alice] [bob; carol]].
Proof. reflexivity. Qed.

Example dave_joins_lounge :
  groupsRouter isHex24 castHex tagDigest demoDb
    (PostJoinOpen newObjectId 7000 dave (Group._id lounge))
  = (mkRes 200 (JMessage "Joined"),
     set_groups
       [Group.mk "65b000000000000000000001" "lounge" open alice 3
          [alice; carol; dave] [bob]; board; club] demoDb).
Proof. reflexivity. Qed.

Example erin_finds_lounge_full :
  let db1 := snd (groupsRouter isHex24 castHex tagDigest demoDb
                    (PostJoinOpen newObjectId 7000 dave (Group._id lounge))) in
  groupsRouter isHex24 castHex tagDigest db1
    (PostJoinOpen newObjectId 7001 erin (Group._id lounge))
  = (mkRes 400 (JError "Group is full"), db1).
Proof. reflexivity. Qed.

(** ** Ban re-entry *)

(** The request of a pair after the upsert, and the collection after it. *)
Lemma upsertPending_ok newId now gid uid jrs :
  (findOne (byGroupUser gid uid) jrs = None ->
   findOne (byRequestId newId) jrs = None) ->
  upsertPending newId now gid uid jrs =
    inr (match findOne (byGroupUser gid uid) jrs with
         | Some old =>
           (JoinRequest.set_status pending old,
            updateOne (byGroupUser gid uid) (JoinRequest.set_status pending) jrs)
         | None =>
           (JoinRequest.mk newId gid uid pending now,
            (jrs ++ [JoinRequest.mk newId gid uid pending now])%list)
         end).
Proof.
  intros Hfresh. unfold upsertPending.
  destruct (findOne (byGroupUser gid uid) jrs) as [old|]; [done|].
  apply some_findOne in Hfresh; [|done]. by rewrite Hfresh.
Qed.

Section BanReentry.
Variable isValidObjectId : string -> bool.
Variable castObjectId : string -> ObjectId.

(** C3. A user of a group's banned set calls the join route of that group
    (join-open for an open group, request-join for a private one), the
    group being at rest (members ∩ banned = ∅) and the driver's new id
    unused: the pair's JoinRequest is upserted to pending (a stored one
    keeps its id and gets its status overwritten, whatever it was; an
    absent one is created), the answer is 403, and nothing else changes,
    in particular not the group's members and banned users. *)
Theorem banned_join_attempt_upserts_pending db newId now user groupId g :
  isValidObjectId groupId = true ->
  findOne (byGroupId (castObjectId groupId)) (groups db) = Some g ->
  some (fun u => u =? user) (Group.bannedUsers g) = true ->
  membersBannedDisjoint g ->
  (findOne (byGroupUser (Group._id g) user) (joinRequests db) = None ->
   findOne (byRequestId newId) (joinRequests db) = None) ->
  let call :=
    match Group.type g with
    | open => joinOpenGroup isValidObjectId castObjectId db newId now user groupId
    | private => requestJoinPrivate isValidObjectId castObjectId db newId now user groupId
    end in
  let res := fst call in
  let db' := snd call in
  let jr :=
    match findOne (byGroupUser (Group._id g) user) (joinRequests db) with
    | Some old => JoinRequest.set_status pending old
    | None => JoinRequest.mk newId (Group._id g) user pending now
    end in
  res = mkRes 403
          (JError "You are banned. A join request is now pending for owner approval.")
  /\ findOne (byGroupUser (Group._id g) user) (joinRequests db') = Some jr
  /\ JoinRequest.status jr = pending
  /\ joinRequests db' =
       match findOne (byGroupUser (Group._id g) user) (joinRequests db) with
       | Some old =>
         updateOne (byGroupUser (Group._id g) user) (JoinRequest.set_status pending)
           (joinRequests db)
       | None => (joinRequests db ++ [jr])%list
       end
  /\ db' = set_joinRequests (joinRequests db') db
  /\ groups db' = groups db.
Proof.
  intros Hvalid Hg Hban Hdisj Hfresh.
  pose proof (findOne_byGroupId _ _ _ Hg) as [Hin Hid].
  pose proof (upsertPending_ok newId now (Group._id g) user _ Hfresh) as Hup.
  set (jr := match findOne (byGroupUser (Group._id g) user) (joinRequests db) with
             | Some old => JoinRequest.set_status pending old
             | None => JoinRequest.mk newId (Group._id g) user pending now
             end).
  set (jrs' := match findOne (byGroupUser (Group._id g) user) (joinRequests db) with
               | Some old =>
                 updateOne (byGroupUser (Group._id g) user)
                   (JoinRequest.set_status pending) (joinRequests db)
               | None => (joinRequests db ++ [jr])%list
               end).
  assert (Hup' : upsertPending newId now (Group._id g) user (joinRequests db)
                 = inr (jr, jrs')).
  { rewrite Hup. subst jr jrs'.
    by destruct (findOne (byGroupUser (Group._id g) user) (joinRequests db)). }
  assert (Hens : ensureNotBanned db newId now g user
                 = (Some (HttpError 403
                      "You are banned. A join request is now pending for owner approval."),
                    set_joinRequests jrs' db)).
  { unfold ensureNotBanned. by rewrite Hban, Hup'. }
  assert (Hnm : some (fun m => m =? user) (Group.members g) = false).
  { apply some_eqb_false. intros Hm. apply (Hdisj user Hm). by apply some_eqb_true. }
  assert (Hcall :
    match Group.type g with
    | open => joinOpenGroup isValidObjectId castObjectId db newId now user groupId
    | private => requestJoinPrivate isValidObjectId castObjectId db newId now user groupId
    end = (mkRes 403
             (JError "You are banned. A join request is now pending for owner approval."),
           set_joinRequests jrs' db)).
  { destruct (Group.type g) eqn:Hty;
      [unfold joinOpenGroup | unfold requestJoinPrivate];
      rewrite Hvalid, Hg; simpl; rewrite Hty; simpl; rewrite ?Hnm, Hens; done. }
  rewrite Hcall. cbv zeta.
  apply upsertPending_inr in Hup' as (Hf & Hst & _).
  repeat split; done.
Qed.
End BanReentry.

Lemma banned_join_attempt_upserts_pending_witness :
  fst (requestJoinPrivate isHex24 castHex demoDb newObjectId 7000 bob (Group._id club))
  = mkRes 403
      (JError "You are banned. A join request is now pending for owner approval.")
  /\ findOne (byGroupUser (Group._id club) bob)
       (joinRequests
          (snd (requestJoinPrivate isHex24 castHex demoDb newObjectId 7000 bob
                  (Group._id club))))
     = Some (JoinRequest.set_status pending bobAtClub).
Proof.
  assert (Hd : membersBannedDisjoint club)
    by (apply membersBannedDisjointb_spec; reflexivity).
  assert (Hf : findOne (byGroupUser (Group._id club) bob) (joinRequests demoDb) = None ->
               findOne (byRequestId newObjectId) (joinRequests demoDb) = None)
    by reflexivity.
  pose proof (banned_join_attempt_upserts_pending isHex24 castHex demoDb newObjectId 7000
                bob (Group._id club) club eq_refl eq_refl eq_refl Hd Hf) as H.
  split; [exact (proj1 H) | exact (proj1 (proj2 H))].
Defined.

Example banned_bob_joins_open_lounge :
  joinOpenGroup isHex24 castHex demoDb newObjectId 7000 bob (Group._id lounge)
  = (mkRes 403
       (JError "You are banned. A join request is now pending for owner approval."),
     set_joinRequests
       [bobAtClub; erinAtBoard; erinAtClub;
        JoinRequest.mk newObjectId (Group._id lounge) bob pending 7000] demoDb).
Proof. reflexivity. Qed.

(** Banned, asking again, approved: the way back into a group. *)
Example carol_banished_asks_and_is_approved :
  let db1 := snd (banishMember isHex24 castHex demoDb alice (Group._id club) carol) in
  let db2 := snd (requestJoinPrivate isHex24 castHex db1 newObjectId 7000 carol
                    (Group._id club)) in
  let db3 := snd (decideJoinRequest isHex24 castHex db2 alice newObjectId "approve") in
  fst (requestJoinPrivate isHex24 castHex db1 newObjectId 7000 carol (Group._id club))
  = mkRes 403
      (JError "You are banned. A join request is now pending for owner approval.")
  /\ findOne (byRequestId newObjectId) (joinRequests db2)
     = Some (JoinRequest.mk newObjectId (Group._id club) carol pending 7000)
  /\ findOne (byGroupId (Group._id club)) (groups db3)
     = Some (Group.mk "65b000000000000000000003" "club" private alice 0
               [alice; carol] [bob]).
Proof. repeat split; reflexivity. Qed.

(** ** Decisions on join requests *)

Lemma findOne_byRequestId rid l jr :
  findOne (byRequestId rid) l = Some jr -> jr ∈ l /\ JoinRequest._id jr = rid.
Proof.
  intros [Hin Hp]%findOne_Some. split; [done|]. by apply String.eqb_eq in Hp.
Qed.

Lemma capacityOk_false g :
  capacityOk g = false <->
  Group.maxMembers g ≠ 0%Z
  /\ (Group.maxMembers g <= Z.of_nat (length (Group.members g)))%Z.
Proof.
  unfold capacityOk. rewrite orb_false_iff, Z.eqb_neq, Z.ltb_ge. done.
Qed.

Section Decisions.
Variable isValidObjectId : string -> bool.
Variable castObjectId : string -> ObjectId.

(** A resolved request is out of reach: whoever decides whatever, the
    answer is an error and the database is as before. *)
Lemma decideJoinRequest_resolved db user requestId decision jr :
  findOne (byRequestId (castObjectId requestId)) (joinRequests db) = Some jr ->
  JoinRequest.status jr ≠ pending ->
  snd (decideJoinRequest isValidObjectId castObjectId db user requestId decision) = db
  /\ (400 <= status (fst (decideJoinRequest isValidObjectId castObjectId db user requestId decision)))%Z.
Proof.
  intros Hjr Hst. unfold decideJoinRequest. rewrite Hjr.
  repeat (case_match; simpl; try done); try lia.
  all: by case_bool_decide.
Qed.

Lemma decideJoinRequest_conflict db requestId decision d jr g :
  isValidObjectId requestId = true ->
  decisionSchema decision = Some d ->
  findOne (byRequestId (castObjectId requestId)) (joinRequests db) = Some jr ->
  findOne (byGroupId (JoinRequest.group jr)) (groups db) = Some g ->
  JoinRequest.status jr ≠ pending ->
  decideJoinRequest isValidObjectId castObjectId db (Group.owner g) requestId decision
  = (mkRes 409 (JErrorStatus "Request already resolved" (JoinRequest.status jr)), db).
Proof.
  intros Hv Hd Hjr Hg Hst. unfold decideJoinRequest.
  rewrite Hv, Hd, Hjr, Hg, String.eqb_refl. simpl.
  by rewrite bool_decide_eq_false_2.
Qed.

Lemma decideJoinRequest_approve db requestId jr g :
  isValidObjectId requestId = true ->
  findOne (byRequestId (castObjectId requestId)) (joinRequests db) = Some jr ->
  findOne (byGroupId (JoinRequest.group jr)) (groups db) = Some g ->
  JoinRequest.status jr = pending ->
  capacityOk g = true ->
  decideJoinRequest isValidObjectId castObjectId db (Group.owner g) requestId "approve"
  = (mkRes 200 (JMessageStatus "Decision recorded" approved),
     saveJoinRequest (JoinRequest.set_status approved jr)
       (set_groups
          (updateOne (byGroupId (Group._id g))
             (pullBanned_addMember (JoinRequest.user jr)) (groups db)) db)).
Proof.
  intros Hv Hjr Hg Hst Hc. unfold decideJoinRequest.
  rewrite Hv, Hjr, Hg, String.eqb_refl, Hc. simpl.
  by rewrite bool_decide_eq_true_2.
Qed.

Lemma decideJoinRequest_decline db requestId jr g :
  isValidObjectId requestId = true ->
  findOne (byRequestId (castObjectId requestId)) (joinRequests db) = Some jr ->
  findOne (byGroupId (JoinRequest.group jr)) (groups db) = Some g ->
  JoinRequest.status jr = pending ->
  decideJoinRequest isValidObjectId castObjectId db (Group.owner g) requestId "decline"
  = (mkRes 200 (JMessageStatus "Decision recorded" declined),
     saveJoinRequest (JoinRequest.set_status declined jr) db).
Proof.
  intros Hv Hjr Hg Hst. unfold decideJoinRequest.
  rewrite Hv, Hjr, Hg, String.eqb_refl. simpl.
  by rewrite bool_decide_eq_true_2.
Qed.

Lemma decisionSchema_Some decision d :
  decisionSchema decision = Some d ->
  decision = match d with approve => "approve" | decline => "decline" end.
Proof.
  unfold decisionSchema.
  destruct (decision =? "approve") eqn:Ha; [apply String.eqb_eq in Ha; by intros [= <-]|].
  destruct (decision =? "decline") eqn:Hd; [apply String.eqb_eq in Hd; by intros [= <-]|].
  done.
Qed.

Lemma decideEach_conflict db requestId jr g decisions :
  isValidObjectId requestId = true ->
  findOne (byRequestId (castObjectId requestId)) (joinRequests db) = Some jr ->
  findOne (byGroupId (JoinRequest.group jr)) (groups db) = Some g ->
  JoinRequest.status jr ≠ pending ->
  Forall (fun decision => is_Some (decisionSchema decision)) decisions ->
  decideEach isValidObjectId castObjectId db (Group.owner g) requestId decisions
  = (List.map (fun _ => mkRes 409 (JErrorStatus "Request already resolved"
                                     (JoinRequest.status jr))) decisions, db).
Proof.
  intros Hv Hjr Hg Hst. induction 1 as [|decision ds [d Hd] _ IH]; simpl; [done|].
  by rewrite (decideJoinRequest_conflict _ _ _ _ _ _ Hv Hd Hjr Hg Hst), IH.
Qed.

(** The database after a decision of the owner on a pending request:
    the request carries the decision, the group is found under its id. *)
Lemma decideJoinRequest_after db requestId jr g decision d :
  isValidObjectId requestId = true ->
  findOne (byRequestId (castObjectId requestId)) (joinRequests db) = Some jr ->
  findOne (byGroupId (JoinRequest.group jr)) (groups db) = Some g ->
  JoinRequest.status jr = pending ->
  decisionSchema decision = Some d ->
  (d = approve -> capacityOk g = true) ->
  let call := decideJoinRequest isValidObjectId castObjectId db (Group.owner g) requestId decision in
  let st := match d with approve => approved | decline => declined end in
  let g' := match d with
            | approve => pullBanned_addMember (JoinRequest.user jr) g
            | decline => g
            end in
  fst call = mkRes 200 (JMessageStatus "Decision recorded" st)
  /\ findOne (byRequestId (castObjectId requestId)) (joinRequests (snd call))
     = Some (JoinRequest.set_status st jr)
  /\ findOne (byGroupId (JoinRequest.group jr)) (groups (snd call)) = Some g'.
Proof.
  intros Hv Hjr Hg Hst Hd Hc.
  pose proof (findOne_byRequestId _ _ _ Hjr) as [_ Hrid].
  pose proof (findOne_byGroupId _ _ _ Hg) as [_ Hgid].
  rewrite (decisionSchema_Some _ _ Hd). destruct d; simpl.
  - rewrite (decideJoinRequest_approve _ _ _ _ Hv Hjr Hg Hst (Hc eq_refl)). simpl.
    split; [done|]. split.
    + rewrite Hrid. apply (findOne_replace _ _ jr); [done|].
      unfold byRequestId. simpl. rewrite Hrid. apply String.eqb_refl.
    + rewrite Hgid. apply (findOne_updateOne _ _ _ g); [done|].
      unfold byGroupId. simpl. rewrite Hgid. apply String.eqb_refl.
  - rewrite (decideJoinRequest_decline _ _ _ _ Hv Hjr Hg Hst). simpl.
    split; [done|]. split; [|done].
    rewrite Hrid. apply (findOne_replace _ _ jr); [done|].
    unfold byRequestId. simpl. rewrite Hrid. apply String.eqb_refl.
Qed.

(** C4. For a stored request [jr] of a stored group [g], decided by the
    owner of [g] under a well-formed request id:
    - if [jr] is not pending, every decision is answered 409 with the
      resolved status, and the call leaves the database (the request and
      the group in it) unchanged; whoever else decides, the call fails and
      changes nothing either;
    - if [jr] is pending and [g] is at a nonzero capacity, approve fails
      (400, the group is full) and changes nothing: the request stays
      pending, members and banned users stay as they are;
    - if [jr] is pending and [g] has room, approve succeeds: the user is
      pulled from banned, added to members unless already there, and the
      request is marked approved;
    - after one successful approve or decline, every later decision on
      the same request is answered 409 and changes nothing. *)
Theorem decideJoinRequest_single_shot db requestId jr g :
  isValidObjectId requestId = true ->
  findOne (byRequestId (castObjectId requestId)) (joinRequests db) = Some jr ->
  findOne (byGroupId (JoinRequest.group jr)) (groups db) = Some g ->
  let owner := Group.owner g in
  let decide := decideJoinRequest isValidObjectId castObjectId in
  (JoinRequest.status jr ≠ pending ->
     (forall decision, is_Some (decisionSchema decision) ->
        decide db owner requestId decision
        = (mkRes 409 (JErrorStatus "Request already resolved" (JoinRequest.status jr)),
           db))
     /\ (forall user decision,
           snd (decide db user requestId decision) = db
           /\ (400 <= status (fst (decide db user requestId decision)))%Z))
  /\ (JoinRequest.status jr = pending ->
      Group.maxMembers g ≠ 0%Z ->
      (Group.maxMembers g <= Z.of_nat (length (Group.members g)))%Z ->
      decide db owner requestId "approve" = (mkRes 400 (JError "Group is full"), db))
  /\ (JoinRequest.status jr = pending ->
      capacityOk g = true ->
      let call := decide db owner requestId "approve" in
      let user := JoinRequest.user jr in
      exists g',
        fst call = mkRes 200 (JMessageStatus "Decision recorded" approved)
        /\ findOne (byRequestId (castObjectId requestId)) (joinRequests (snd call))
           = Some (JoinRequest.set_status approved jr)
        /\ findOne (byGroupId (JoinRequest.group jr)) (groups (snd call)) = Some g'
        /\ Group.bannedUsers g'
           = List.filter (fun u => negb (u =? user)) (Group.bannedUsers g)
        /\ Group.members g'
           = (if some (fun m => m =? user) (Group.members g) then Group.members g
              else (Group.members g ++ [user])%list)
        /\ user ∈ Group.members g'
        /\ user ∉ Group.bannedUsers g')
  /\ (JoinRequest.status jr = pending ->
      forall decision d,
        decisionSchema decision = Some d ->
        (d = approve -> capacityOk g = true) ->
        let call := decide db owner requestId decision in
        let st := match d with approve => approved | decline => declined end in
        fst call = mkRes 200 (JMessageStatus "Decision recorded" st)
        /\ forall decisions,
             Forall (fun decision => is_Some (decisionSchema decision)) decisions ->
             decideEach isValidObjectId castObjectId (snd call) owner requestId decisions
             = (List.map (fun _ => mkRes 409 (JErrorStatus "Request already resolved" st))
                  decisions, snd call)).
Proof.
  intros Hv Hjr Hg owner decide. subst owner decide. repeat split.
  - intros decision [d Hd]. by apply (decideJoinRequest_conflict _ _ _ d jr).
  - by apply (decideJoinRequest_resolved _ _ _ _ jr).
  - by apply (decideJoinRequest_resolved _ _ _ _ jr).
  - intros Hst Hne Hfull. unfold decideJoinRequest.
    rewrite Hv, Hjr, Hg, String.eqb_refl. simpl.
    rewrite bool_decide_eq_true_2 by done. simpl.
    assert (capacityOk g = false) as -> by by apply capacityOk_false.
    done.
  - intros Hst Hc call user.
    destruct (decideJoinRequest_after db requestId jr g "approve" approve
                Hv Hjr Hg Hst eq_refl (fun _ => Hc)) as (Hres & Hfjr & Hfg).
    exists (pullBanned_addMember user g). subst call user.
    repeat split; try done; apply pullBanned_addMember_user.
  - by apply (decideJoinRequest_after db requestId jr g decision d).
  - intros decisions Hds.
    destruct (decideJoinRequest_after db requestId jr g decision d)
      as (Hres & Hfjr & Hfg); try done.
    pose proof (decideEach_conflict _ requestId _ _ decisions Hv Hfjr Hfg) as Heach.
    simpl in Heach. destruct d; simpl in *; by apply Heach.
Qed.
End Decisions.

Lemma decideJoinRequest_single_shot_witness :
  decideJoinRequest isHex24 castHex demoDb alice (JoinRequest._id bobAtClub) "approve"
  = (mkRes 409 (JErrorStatus "Request already resolved" declined), demoDb)
  /\ decideJoinRequest isHex24 castHex demoDb alice (JoinRequest._id erinAtBoard) "approve"
     = (mkRes 400 (JError "Group is full"), demoDb).
Proof.
  split.
  - apply (decideJoinRequest_single_shot isHex24 castHex demoDb (JoinRequest._id bobAtClub)
             bobAtClub club eq_refl eq_refl eq_refl); [discriminate | by exists approve].
  - apply (decideJoinRequest_single_shot isHex24 castHex demoDb (JoinRequest._id erinAtBoard)
             erinAtBoard board eq_refl eq_refl eq_refl); [reflexivity | discriminate | simpl; lia].
Defined.

Example alice_approves_erin_at_club :
  decideJoinRequest isHex24 castHex demoDb alice (JoinRequest._id erinAtClub) "approve"
  = (mkRes 200 (JMessageStatus "Decision recorded" approved),
     mkDb [lounge; board;
           Group.mk "65b000000000000000000003" "club" private alice 0
             [alice; carol; erin] [bob]]
          [bobAtClub; erinAtBoard; JoinRequest.set_status approved erinAtClub]
          (leaveHistories demoDb) (invites demoDb) (messages demoDb) (users demoDb)).
Proof. reflexivity. Qed.

Example alice_approves_erin_twice :
  let db1 := snd (decideJoinRequest isHex24 castHex demoDb alice
                    (JoinRequest._id erinAtClub) "approve") in
  decideJoinRequest isHex24 castHex db1 alice (JoinRequest._id erinAtClub) "decline"
  = (mkRes 409 (JErrorStatus "Request already resolved" approved), db1).
Proof. reflexivity. Qed.

(** ** Group creation *)

Lemma newSet_elem l x : x ∈ newSet l <-> x ∈ l.
Proof.
  induction l as [|a l IH]; simpl; [done|].
  rewrite !elem_of_cons, elem_of_List_filter, IH, negb_true_iff, String.eqb_neq.
  destruct (decide (x = a)); tauto.
Qed.

Lemma NoDup_List_filter {A} (p : A -> bool) (l : list A) :
  NoDup l -> NoDup (List.filter p l).
Proof.
  induction 1 as [|a l Hin Hnd IH]; simpl; [constructor|].
  destruct (p a); [|done].
  constructor; [|done]. by intros [? _]%elem_of_List_filter.
Qed.

Lemma newSet_NoDup l : NoDup (newSet l).
Proof.
  induction l as [|a l IH]; simpl; [constructor|].
  constructor; [|by apply NoDup_List_filter].
  intros [_ Hne]%elem_of_List_filter. by rewrite String.eqb_refl in Hne.
Qed.


Lemma groupCreateSchema_Some body name type maxMembers initialMemberIds :
  groupCreateSchema body = Some (name, type, maxMembers, initialMemberIds) ->
  name = b_name body /\ name ≠ EmptyString
  /\ b_type body = match type with open => "open" | private => "private" end
  /\ maxMembers = b_maxMembers body
  /\ (maxMembers = 0 \/ 2 <= maxMembers)%Z
  /\ initialMemberIds = default [] (b_initialMemberIds body).
Proof.
  unfold groupCreateSchema.
  destruct (b_name body =? EmptyString) eqn:Hn; [done|]. apply String.eqb_neq in Hn.
  destruct (b_type body =? "private") eqn:Hp.
  - apply String.eqb_eq in Hp. case_match eqn:Hm; [|done]. intros [= <- <- <- <-].
    repeat split; try done. lia.
  - destruct (b_type body =? "open") eqn:Ho; [|done].
    apply String.eqb_eq in Ho. case_match eqn:Hm; [|done]. intros [= <- <- <- <-].
    repeat split; try done. lia.
Qed.

Section Creation.
Variable isValidObjectId : string -> bool.
Variable castObjectId : string -> ObjectId.

End Creation.



(** Nor are the stored members deduplicated or free of the owner: the
    controller compares the ids as strings, Mongoose stores what they are
    cast to. Two spellings of one id, and a second spelling of the owner's,
    are each stored next to the first. *)
Example createGroup_stores_two_spellings :
  fst (createGroup isHex24 castHex demoDb newObjectId alice spellingsBody)
  = mkRes 201
      (JGroup (Group.mk newObjectId "team" open alice 0 [alice; alice; frank; frank] [])).
Proof. reflexivity. Qed.

(** ** Invites *)

Lemma findOne_byTokenHash h l i :
  findOne (byTokenHash h) l = Some i -> i ∈ l /\ Invite.tokenHash i = h.
Proof.
  intros [Hin Hp]%findOne_Some. split; [done|]. by apply String.eqb_eq in Hp.
Qed.

Lemma ensureNotBanned_invites db newId now g u :
  invites (snd (ensureNotBanned db newId now g u)) = invites db.
Proof. unfold ensureNotBanned. repeat case_match; done. Qed.

Section Invites.
Variable isValidObjectId : string -> bool.
Variable castObjectId : string -> ObjectId.
Variable sha256 : string -> string.

(** A disabled invite is refused, whoever presents its token and whenever. *)
Lemma joinWithInvite_disabled db now user token invite :
  token ≠ EmptyString ->
  findOne (byTokenHash (sha256 token)) (invites db) = Some invite ->
  Invite.disabled invite = true ->
  joinWithInvite sha256 db now user (Some token)
  = (mkRes 400 (JError "Invalid invite"), db).
Proof.
  intros Hne Hf Hd. unfold joinWithInvite.
  apply String.eqb_neq in Hne. by rewrite Hne, Hf, Hd.
Qed.

Lemma joinWithInvite_keeps_disabled db now user token h i :
  findOne (byTokenHash h) (invites db) = Some i ->
  Invite.disabled i = true ->
  findOne (byTokenHash h) (invites (snd (joinWithInvite sha256 db now user token)))
  = Some i.
Proof.
  intros Hf Hd. unfold joinWithInvite.
  destruct token as [token|]; [|done].
  destruct (token =? EmptyString); [done|].
  destruct (findOne (byTokenHash (sha256 token)) (invites db)) as [invite|] eqn:Hi;
    [|done].
  destruct (Invite.disabled invite) eqn:Hdis; [done|].
  repeat (case_match; simpl; try done).
  all: rewrite findOne_updateOne_ne; [done|].
  all: intros x Hx; unfold byTokenHash in *; simpl.
  all: apply String.eqb_eq in Hx;
    pose proof (findOne_byTokenHash _ _ _ Hi) as [_ Hh];
    assert (Hneq : sha256 token ≠ h)
      by (intros <-; rewrite Hf in Hi; injection Hi as ->; congruence).
  all: rewrite Hx, Hh; split; by apply String.eqb_neq.
Qed.

Lemma groupsRouter_keeps_disabled db r h i :
  findOne (byTokenHash h) (invites db) = Some i ->
  Invite.disabled i = true ->
  findOne (byTokenHash h) (invites (snd (groupsRouter isValidObjectId castObjectId sha256 db r)))
  = Some i.
Proof.
  intros Hf Hd.
  destruct r; simpl; try by apply joinWithInvite_keeps_disabled.
  - unfold createGroup. by repeat (case_match; simpl).
  - unfold joinOpenGroup. repeat (case_match; simpl; try done);
      match goal with
      | H : ensureNotBanned ?db ?i ?n ?g ?u = (_, ?db1) |- _ =>
        pose proof (ensureNotBanned_invites db i n g u) as Hinv;
        rewrite H in Hinv; simpl in Hinv; by rewrite Hinv
      end.
  - unfold requestJoinPrivate, submitJoinRequest.
    repeat (case_match; simpl; try done);
      match goal with
      | H : ensureNotBanned ?db ?i ?n ?g ?u = (_, ?db1) |- _ =>
        pose proof (ensureNotBanned_invites db i n g u) as Hinv;
        rewrite H in Hinv; simpl in Hinv; by rewrite Hinv
      end.
  - unfold decideJoinRequest. by repeat (case_match; simpl).
  - unfold leaveGroup. by repeat (case_match; simpl).
  - unfold banishMember. by repeat (case_match; simpl).
  - unfold transferOwnership. by repeat (case_match; simpl).
  - unfold deleteGroup. by repeat (case_match; simpl).
  - unfold createInvite. repeat (case_match; simpl; try done).
    by apply findOne_app_l.
Qed.

Lemma runRequests_keeps_disabled db rs h i :
  findOne (byTokenHash h) (invites db) = Some i ->
  Invite.disabled i = true ->
  findOne (byTokenHash h) (invites (runRequests isValidObjectId castObjectId sha256 db rs))
  = Some i.
Proof.
  revert db. induction rs as [|r rs IH]; intros db Hf Hd; simpl; [done|].
  apply IH; [|done]. by apply groupsRouter_keeps_disabled.
Qed.

(** C6, amended. For every invite with maxUses = 1 that is enabled,
    unexpired and unused, the first redemption by a user who is not banned
    from a group that has room succeeds: the redeemer is a member
    afterwards (added unless already there), uses is 1 and the invite is
    disabled. Every later redemption of the same token, by whichever user
    and after whichever requests to the membership engine, fails with the
    generic "Invalid invite" (the invite is disabled, and that check comes
    before the one for exhaustion) and changes nothing. *)
Theorem joinWithInvite_single_use db now user token invite g :
  token ≠ EmptyString ->
  findOne (byTokenHash (sha256 token)) (invites db) = Some invite ->
  Invite.disabled invite = false ->
  (now < Invite.expiresAt invite)%Z ->
  Invite.maxUses invite = 1%Z ->
  Invite.uses invite = 0%Z ->
  findOne (byGroupId (Invite.group invite)) (groups db) = Some g ->
  some (fun u => u =? user) (Group.bannedUsers g) = false ->
  capacityOk g = true ->
  let call := joinWithInvite sha256 db now user (Some token) in
  fst call = mkRes 200 (JMessageGroup "Joined via invite" (Group._id g))
  /\ (exists g',
        findOne (byGroupId (Invite.group invite)) (groups (snd call)) = Some g'
        /\ Group.members g'
           = (if some (fun m => m =? user) (Group.members g) then Group.members g
              else (Group.members g ++ [user])%list)
        /\ user ∈ Group.members g'
        /\ Group.bannedUsers g' = Group.bannedUsers g)
  /\ (exists invite',
        findOne (byTokenHash (sha256 token)) (invites (snd call)) = Some invite'
        /\ Invite.uses invite' = 1%Z
        /\ Invite.disabled invite' = true)
  /\ (forall rs now' user',
        let db' := runRequests isValidObjectId castObjectId sha256 (snd call) rs in
        joinWithInvite sha256 db' now' user' (Some token)
        = (mkRes 400 (JError "Invalid invite"), db')).
Proof.
  intros Hne Hf Hdis Hexp Hmax Huses Hg Hban Hcap call.
  pose proof (findOne_byTokenHash _ _ _ Hf) as [_ Hh].
  pose proof (findOne_byGroupId _ _ _ Hg) as [_ Hgid].
  set (invite' :=
         Invite.mk (Invite.group invite) (Invite.owner invite)
           (Invite.tokenHash invite) 1 1 (Invite.expiresAt invite) true).
  set (members' := if some (fun m => m =? user) (Group.members g) then Group.members g
                   else (Group.members g ++ [user])%list).
  set (db1 := if negb (some (fun m => m =? user) (Group.members g)) then
                saveGroup (Group.set_members (Group.members g ++ [user])%list g) db
              else db).
  assert (Hcall : call = (mkRes 200 (JMessageGroup "Joined via invite" (Group._id g)),
                          set_invites
                            (updateOne (byTokenHash (Invite.tokenHash invite'))
                               (fun _ => invite') (invites db1)) db1)).
  { subst call. unfold joinWithInvite.
    apply String.eqb_neq in Hne. rewrite Hne, Hf, Hdis.
    assert ((Invite.expiresAt invite <=? now)%Z = false) as -> by lia.
    assert ((Invite.maxUses invite <=? Invite.uses invite)%Z = false) as -> by lia.
    rewrite Hg, Hban, Hcap. simpl. rewrite Huses, Hmax. done. }
  assert (Hinv1 : invites db1 = invites db).
  { subst db1. by destruct (some _ (Group.members g)). }
  assert (Hfi : findOne (byTokenHash (sha256 token)) (invites (snd call)) = Some invite').
  { rewrite Hcall. simpl. rewrite Hinv1, Hh.
    apply (findOne_replace _ _ invite); [done|].
    unfold byTokenHash. simpl. rewrite Hh. apply String.eqb_refl. }
  split; [by rewrite Hcall|]. split; [|split].
  - exists (Group.set_members members' g). rewrite Hcall. simpl.
    subst db1 members'. destruct (some _ (Group.members g)) eqn:Hm; simpl.
    + destruct g; simpl in *. split; [done|]. split; [done|].
      split; [by apply some_eqb_true | done].
    + split; [|split; [done|split; [|done]]].
      * rewrite Hgid. apply (findOne_replace _ _ g); [done|].
        unfold byGroupId. simpl. rewrite Hgid. apply String.eqb_refl.
      * apply elem_of_app. right. by left.
  - by exists invite'.
  - intros rs now' user' db'.
    apply (joinWithInvite_disabled _ _ _ _ invite'); [done| |done].
    by apply runRequests_keeps_disabled.
Qed.

(** C10. A user of the target group's banned set presents a token whose
    invite is enabled, unexpired and not exhausted: the answer is 403 and
    the database is as before, so no join request is upserted for the
    pair, the invite keeps its uses and stays enabled, and the group keeps
    its members and banned users. *)
Theorem joinWithInvite_banned_changes_nothing db now user token invite g :
  token ≠ EmptyString ->
  findOne (byTokenHash (sha256 token)) (invites db) = Some invite ->
  Invite.disabled invite = false ->
  (now < Invite.expiresAt invite)%Z ->
  (Invite.uses invite < Invite.maxUses invite)%Z ->
  findOne (byGroupId (Invite.group invite)) (groups db) = Some g ->
  some (fun u => u =? user) (Group.bannedUsers g) = true ->
  let call := joinWithInvite sha256 db now user (Some token) in
  call = (mkRes 403
            (JError "You are banned. Send a join request to the owner to rejoin."),
          db)
  /\ joinRequests (snd call) = joinRequests db
  /\ findOne (byTokenHash (sha256 token)) (invites (snd call)) = Some invite
  /\ findOne (byGroupId (Invite.group invite)) (groups (snd call)) = Some g.
Proof.
  intros Hne Hf Hdis Hexp Huses Hg Hban call.
  assert (Hcall : call = (mkRes 403
            (JError "You are banned. Send a join request to the owner to rejoin."),
          db)).
  { subst call. unfold joinWithInvite.
    apply String.eqb_neq in Hne. rewrite Hne, Hf, Hdis.
    assert ((Invite.expiresAt invite <=? now)%Z = false) as -> by lia.
    assert ((Invite.maxUses invite <=? Invite.uses invite)%Z = false) as -> by lia.
    by rewrite Hg, Hban. }
  by rewrite Hcall.
Qed.
End Invites.

Lemma joinWithInvite_single_use_witness :
  fst (joinWithInvite tagDigest demoDb 7000 dave (Some "s3cret"))
  = mkRes 200 (JMessageGroup "Joined via invite" (Group._id club))
  /\ let db1 := snd (joinWithInvite tagDigest demoDb 7000 dave (Some "s3cret")) in
     let db2 := runRequests isHex24 castHex tagDigest db1
                  [PostLeave 7500 dave (Group._id club)] in
     joinWithInvite tagDigest db2 8000 erin (Some "s3cret")
     = (mkRes 400 (JError "Invalid invite"), db2).
Proof.
  pose proof (joinWithInvite_single_use isHex24 castHex tagDigest demoDb 7000 dave "s3cret"
                clubInvite club) as H.
  destruct H as (H1 & _ & _ & H4);
    [discriminate | reflexivity | reflexivity | reflexivity | reflexivity
    | reflexivity | reflexivity | reflexivity | reflexivity |].
  split; [exact H1 | exact (H4 [PostLeave 7500 dave (Group._id club)] 8000 erin)].
Defined.

(** C6 as stated fails: after the one use of [clubInvite], the next
    presentation of its token is answered "Invalid invite", not "Invite
    exhausted". *)
Lemma joinWithInvite_second_use_not_exhausted :
  let db1 := snd (joinWithInvite tagDigest demoDb 7000 dave (Some "s3cret")) in
  Invite.maxUses clubInvite = 1%Z
  /\ joinWithInvite tagDigest demoDb 7000 dave (Some "s3cret")
     = (mkRes 200 (JMessageGroup "Joined via invite" (Group._id club)),
        mkDb [lounge; board;
              Group.mk "65b000000000000000000003" "club" private alice 0
                [alice; carol; dave] [bob]]
             (joinRequests demoDb) (leaveHistories demoDb)
             [Invite.mk (Group._id club) alice (tagDigest "s3cret") 1 1 9000000 true]
             (messages demoDb) (users demoDb))
  /\ joinWithInvite tagDigest db1 7001 erin (Some "s3cret")
     = (mkRes 400 (JError "Invalid invite"), db1)
  /\ fst (joinWithInvite tagDigest db1 7001 erin (Some "s3cret"))
     ≠ mkRes 400 (JError "Invite exhausted").
Proof. repeat split; try reflexivity. discriminate. Qed.

Lemma joinWithInvite_banned_changes_nothing_witness :
  joinWithInvite tagDigest demoDb 7000 bob (Some "s3cret")
  = (mkRes 403
       (JError "You are banned. Send a join request to the owner to rejoin."),
     demoDb).
Proof.
  refine (proj1 (joinWithInvite_banned_changes_nothing tagDigest demoDb 7000 bob
                   "s3cret" clubInvite club _ eq_refl eq_refl _ _ eq_refl eq_refl));
    [discriminate | reflexivity | reflexivity].
Defined.

(** ** Leaving and the cooldown *)

(** [lastLeaveOf] answers with a most recent leave of the pair. *)
Lemma lastLeaveOf_Some gid uid ls l :
  lastLeaveOf gid uid ls = Some l ->
  l ∈ ls /\ LeaveHistory.group l = gid /\ LeaveHistory.user l = uid
  /\ forall l', l' ∈ ls -> LeaveHistory.group l' = gid -> LeaveHistory.user l' = uid ->
       (LeaveHistory.leftAt l' <= LeaveHistory.leftAt l)%Z.
Proof.
  unfold lastLeaveOf.
  set (sorted := merge_sort leftAt_desc (List.filter (leaveOf gid uid) ls)).
  pose proof (StronglySorted_merge_sort leftAt_desc
                (List.filter (leaveOf gid uid) ls)) as Hsorted.
  pose proof (merge_sort_Permutation leftAt_desc
                (List.filter (leaveOf gid uid) ls)) as Hperm.
  fold sorted in Hsorted, Hperm.
  destruct sorted as [|x rest]; simpl; [done|]. intros [= ->].
  assert (Hl : l ∈ List.filter (leaveOf gid uid) ls) by (rewrite <- Hperm; left).
  apply elem_of_List_filter in Hl as [Hl Hp].
  apply andb_true_iff in Hp as [Hg Hu]. apply String.eqb_eq in Hg, Hu.
  repeat split; try done.
  intros l' Hin' Hg' Hu'.
  assert (Hl' : l' ∈ l :: rest).
  { rewrite Hperm. apply elem_of_List_filter. split; [done|].
    unfold leaveOf. rewrite Hg', Hu'. by rewrite !String.eqb_refl. }
  apply elem_of_cons in Hl' as [->|Hrest]; [lia|].
  apply StronglySorted_inv in Hsorted as [_ Hall].
  rewrite Forall_forall in Hall. by apply Hall.
Qed.

Lemma lastLeaveOf_is_Some gid uid ls l :
  l ∈ ls -> LeaveHistory.group l = gid -> LeaveHistory.user l = uid ->
  is_Some (lastLeaveOf gid uid ls).
Proof.
  intros Hin Hg Hu. unfold lastLeaveOf.
  pose proof (merge_sort_Permutation leftAt_desc
                (List.filter (leaveOf gid uid) ls)) as Hperm.
  destruct (merge_sort leftAt_desc (List.filter (leaveOf gid uid) ls)); [|by eexists].
  assert (Hl : l ∈ List.filter (leaveOf gid uid) ls).
  { apply elem_of_List_filter. split; [done|].
    unfold leaveOf. rewrite Hg, Hu. by rewrite !String.eqb_refl. }
  rewrite <- Hperm in Hl. by apply elem_of_nil in Hl.
Qed.

(** The comparison and the rounding of [requestJoinPrivate], in
    milliseconds. *)
Lemma hours_lt_cooldown (elapsed : Z) :
  (inject_Z elapsed / 3600000 < COOLDOWN_HOURS)%Q <-> (elapsed < 48 * 3600000)%Z.
Proof.
  unfold COOLDOWN_HOURS, Qlt, Qdiv, Qmult, Qinv, inject_Z. simpl. lia.
Qed.

Lemma hours_remaining_ceiling (elapsed : Z) :
  let hours := Qceiling (COOLDOWN_HOURS - inject_Z elapsed / 3600000) in
  ((hours - 1) * 3600000 < 48 * 3600000 - elapsed <= hours * 3600000)%Z.
Proof.
  intros hours.
  pose proof (Qle_ceiling (COOLDOWN_HOURS - inject_Z elapsed / 3600000)) as Hle.
  pose proof (Qceiling_lt (COOLDOWN_HOURS - inject_Z elapsed / 3600000)) as Hlt.
  fold hours in Hle, Hlt.
  unfold COOLDOWN_HOURS, Qle, Qlt, Qminus, Qplus, Qopp, Qdiv, Qmult, Qinv, inject_Z
    in Hle, Hlt.
  simpl in Hle, Hlt. lia.
Qed.

Lemma findIndex_Some (u : string) (l : list string) idx :
  findIndex (fun m => m =? u) l = Some idx ->
  exists l1 l2, l = (l1 ++ u :: l2)%list /\ (u ∉ l1) /\ length l1 = idx
                /\ splice1 idx l = (l1 ++ l2)%list.
Proof.
  revert idx. induction l as [|a l IH]; simpl; [done|]. intros idx.
  destruct (a =? u) eqn:Ha.
  - apply String.eqb_eq in Ha as ->. intros [= <-].
    exists [], l. repeat split; try done. apply not_elem_of_nil.
  - apply String.eqb_neq in Ha.
    destruct (findIndex (fun m => m =? u) l) as [i|]; [|done].
    simpl. intros [= <-].
    destruct (IH i eq_refl) as (l1 & l2 & -> & Hn & Hlen & Hsp).
    exists (a :: l1), l2. repeat split; simpl; try congruence.
    + intros [?|?]%elem_of_cons; [congruence | done].
    + unfold splice1 in *. simpl. f_equal. exact Hsp.
Qed.

Lemma findIndex_None (u : string) (l : list string) :
  findIndex (fun m => m =? u) l = None <-> some (fun m => m =? u) l = false.
Proof.
  unfold some. induction l as [|a l IH]; simpl; [done|].
  destruct (a =? u); simpl; [done|].
  rewrite <- IH. by destruct (findIndex _ l).
Qed.

Section Leaving.
Variable isValidObjectId : string -> bool.
Variable castObjectId : string -> ObjectId.

Lemma leaveGroup_member db now user groupId g idx :
  isValidObjectId groupId = true ->
  findOne (byGroupId (castObjectId groupId)) (groups db) = Some g ->
  findIndex (fun m => m =? user) (Group.members g) = Some idx ->
  Group.owner g ≠ user ->
  leaveGroup isValidObjectId castObjectId db now user groupId
  = (mkRes 200 (JMessage "Left group"),
     let db1 :=
       saveGroup (Group.set_members (splice1 idx (Group.members g)) g) db in
     if bool_decide (Group.type g = private) then
       set_leaveHistories
         (leaveHistories db ++ [LeaveHistory.mk (Group._id g) user now])%list db1
     else db1).
Proof.
  intros Hv Hg Hidx Hown. unfold leaveGroup. rewrite Hv, Hg, Hidx. simpl.
  apply String.eqb_neq in Hown. by rewrite Hown.
Qed.

(** A failed leave changes nothing; only a leave of a private group that
    succeeds writes a leave record. *)
Lemma leaveGroup_leaveHistories db now user groupId :
  let call := leaveGroup isValidObjectId castObjectId db now user groupId in
  (status (fst call) ≠ 200%Z -> snd call = db)
  /\ forall g, findOne (byGroupId (castObjectId groupId)) (groups db) = Some g ->
       leaveHistories (snd call)
       = if bool_decide (status (fst call) = 200%Z /\ Group.type g = private)
         then (leaveHistories db ++ [LeaveHistory.mk (castObjectId groupId) user now])%list
         else leaveHistories db.
Proof.
  unfold leaveGroup.
  destruct (isValidObjectId groupId); simpl; [|by split].
  destruct (findOne (byGroupId (castObjectId groupId)) (groups db)) as [g|] eqn:Hg; simpl;
    [|split; done].
  pose proof (findOne_byGroupId _ _ _ Hg) as [_ Hid].
  destruct (findIndex _ (Group.members g)) as [idx|]; simpl.
  - destruct (Group.owner g =? user); simpl.
    + split; [done|]. by intros ? [= <-].
    + split; [done|]. intros ? [= <-]. rewrite Hid.
      by destruct (Group.type g).
  - split; [done|]. by intros ? [= <-].
Qed.
End Leaving.

Lemma submitJoinRequest_pending db newId now g user :
  (findOne (byGroupUser (Group._id g) user) (joinRequests db) = None ->
   findOne (byRequestId newId) (joinRequests db) = None) ->
  exists jr msg,
    fst (submitJoinRequest db newId now g user)
    = mkRes 200 (JMessageRequest msg (JoinRequest._id jr))
    /\ findOne (byGroupUser (Group._id g) user)
         (joinRequests (snd (submitJoinRequest db newId now g user))) = Some jr
    /\ JoinRequest.status jr = pending
    /\ groups (snd (submitJoinRequest db newId now g user)) = groups db.
Proof.
  intros Hfresh. unfold submitJoinRequest.
  pose proof (upsertPending_ok newId now (Group._id g) user _ Hfresh) as Hup.
  destruct (findOne (byGroupUser (Group._id g) user) (joinRequests db))
    as [existing|] eqn:Hex.
  - case_bool_decide as Hst.
    + exists existing, "Join request already submitted". by simpl.
    + rewrite Hup. simpl.
      exists (JoinRequest.set_status pending existing), "Join request submitted".
      apply upsertPending_inr in Hup as (Hf & Hs & _). by simpl.
  - rewrite Hup. simpl.
    exists (JoinRequest.mk newId (Group._id g) user pending now),
      "Join request submitted".
    apply upsertPending_inr in Hup as (Hf & Hs & _). by simpl.
Qed.

Section Cooldown.
Variable isValidObjectId : string -> bool.
Variable castObjectId : string -> ObjectId.

(** The cooldown gate of [requestJoinPrivate], for a user who passes the
    member and the ban checks. *)
Lemma requestJoinPrivate_last_leave db newId now user groupId g lastLeave :
  isValidObjectId groupId = true ->
  findOne (byGroupId (castObjectId groupId)) (groups db) = Some g ->
  Group.type g = private ->
  some (fun m => m =? user) (Group.members g) = false ->
  some (fun u => u =? user) (Group.bannedUsers g) = false ->
  lastLeaveOf (castObjectId groupId) user (leaveHistories db) = Some lastLeave ->
  let elapsed := (now - LeaveHistory.leftAt lastLeave)%Z in
  let call := requestJoinPrivate isValidObjectId castObjectId db newId now user groupId in
  (lastLeave ∈ leaveHistories db
   /\ LeaveHistory.group lastLeave = castObjectId groupId
   /\ LeaveHistory.user lastLeave = user
   /\ forall l, l ∈ leaveHistories db ->
        LeaveHistory.group l = castObjectId groupId -> LeaveHistory.user l = user ->
        (LeaveHistory.leftAt l <= LeaveHistory.leftAt lastLeave)%Z)
  /\ ((elapsed < 48 * 3600000)%Z ->
      exists hours,
        call = (mkRes 400 (JCooldown hours), db)
        /\ ((hours - 1) * 3600000 < 48 * 3600000 - elapsed <= hours * 3600000)%Z)
  /\ ((48 * 3600000 <= elapsed)%Z ->
      (findOne (byGroupUser (castObjectId groupId) user) (joinRequests db) = None ->
       findOne (byRequestId newId) (joinRequests db) = None) ->
      exists jr msg,
        fst call = mkRes 200 (JMessageRequest msg (JoinRequest._id jr))
        /\ findOne (byGroupUser (castObjectId groupId) user) (joinRequests (snd call)) = Some jr
        /\ JoinRequest.status jr = pending).
Proof.
  intros Hv Hg Hty Hm Hb Hlast elapsed call.
  pose proof (findOne_byGroupId _ _ _ Hg) as [_ Hid].
  split; [by apply lastLeaveOf_Some|].
  assert (Hcall : call =
    if Qlt_le_dec (inject_Z elapsed / 3600000) COOLDOWN_HOURS then
      (mkRes 400 (JCooldown (Qceiling (COOLDOWN_HOURS - inject_Z elapsed / 3600000))),
       db)
    else submitJoinRequest db newId now g user).
  { subst call. unfold requestJoinPrivate, ensureNotBanned.
    rewrite Hv, Hg, Hty. simpl. rewrite Hm, Hb. by rewrite Hid, Hlast. }
  split.
  - intros Hlt. exists (Qceiling (COOLDOWN_HOURS - inject_Z elapsed / 3600000)).
    split; [|apply hours_remaining_ceiling].
    rewrite Hcall. destruct (Qlt_le_dec _ _) as [_|Hge]; [done|].
    apply (proj2 (hours_lt_cooldown elapsed)) in Hlt. by apply Qlt_not_le in Hlt.
  - intros Hge Hfresh. rewrite Hcall.
    destruct (Qlt_le_dec _ _) as [Hlt|_];
      [apply (proj1 (hours_lt_cooldown elapsed)) in Hlt; lia|].
    rewrite <- Hid in Hfresh.
    destruct (submitJoinRequest_pending db newId now g user Hfresh)
      as (jr & msg & Hres & Hf & Hs & _).
    exists jr, msg. by rewrite <- Hid.
Qed.

(** The database after a member who is not the owner left. *)
Lemma leaveGroup_left db now user groupId g :
  isValidObjectId groupId = true ->
  findOne (byGroupId (castObjectId groupId)) (groups db) = Some g ->
  some (fun m => m =? user) (Group.members g) = true ->
  Group.owner g ≠ user ->
  exists before after,
    Group.members g = (before ++ user :: after)%list
    /\ (user ∉ before)
    /\ leaveGroup isValidObjectId castObjectId db now user groupId
       = (mkRes 200 (JMessage "Left group"),
          mkDb (updateOne (byGroupId (castObjectId groupId))
                  (fun _ => Group.set_members (before ++ after)%list g) (groups db))
               (joinRequests db)
               (if bool_decide (Group.type g = private)
                then (leaveHistories db ++ [LeaveHistory.mk (castObjectId groupId) user now])%list
                else leaveHistories db)
               (invites db) (messages db) (users db)).
Proof.
  intros Hv Hg Hm Hown. pose proof (findOne_byGroupId _ _ _ Hg) as [_ Hid].
  destruct (findIndex (fun m => m =? user) (Group.members g)) as [idx|] eqn:Hidx;
    [|apply findIndex_None in Hidx; congruence].
  destruct (findIndex_Some _ _ _ Hidx) as (before & after & Hms & Hnb & _ & Hsp).
  exists before, after. split; [done|]. split; [done|].
  rewrite (leaveGroup_member _ _ _ _ _ _ _ _ Hv Hg Hidx Hown). simpl.
  rewrite Hsp. unfold saveGroup, set_leaveHistories, set_groups. simpl.
  rewrite Hid. by case_bool_decide.
Qed.

(** Leaving a private group, then asking to join it again. *)
Lemma leaveGroup_then_requestJoinPrivate db leftAt user groupId g newId now :
  isValidObjectId groupId = true ->
  findOne (byGroupId (castObjectId groupId)) (groups db) = Some g ->
  Group.type g = private ->
  some (fun m => m =? user) (Group.members g) = true ->
  Group.owner g ≠ user ->
  NoDup (Group.members g) ->
  membersBannedDisjoint g ->
  let db1 := snd (leaveGroup isValidObjectId castObjectId db leftAt user groupId) in
  let call := requestJoinPrivate isValidObjectId castObjectId db1 newId now user groupId in
  ((now - leftAt < 48 * 3600000)%Z ->
   exists hours, call = (mkRes 400 (JCooldown hours), db1))
  /\ ((48 * 3600000 <= now - leftAt)%Z ->
      (forall l, l ∈ leaveHistories db ->
         LeaveHistory.group l = castObjectId groupId -> LeaveHistory.user l = user ->
         (LeaveHistory.leftAt l <= leftAt)%Z) ->
      (findOne (byGroupUser (castObjectId groupId) user) (joinRequests db) = None ->
       findOne (byRequestId newId) (joinRequests db) = None) ->
      exists jr msg,
        fst call = mkRes 200 (JMessageRequest msg (JoinRequest._id jr))
        /\ findOne (byGroupUser (castObjectId groupId) user) (joinRequests (snd call)) = Some jr
        /\ JoinRequest.status jr = pending).
Proof.
  intros Hv Hg Hty Hm Hown Hnd Hdisj db1 call.
  pose proof (findOne_byGroupId _ _ _ Hg) as [_ Hid].
  destruct (leaveGroup_left db leftAt user groupId g Hv Hg Hm Hown)
    as (before & after & Hms & Hnb & Hleave).
  set (g1 := Group.set_members (before ++ after)%list g).
  set (new := LeaveHistory.mk (castObjectId groupId) user leftAt).
  assert (Hdb1 : db1 = mkDb (updateOne (byGroupId (castObjectId groupId)) (fun _ => g1) (groups db))
                         (joinRequests db)
                         (leaveHistories db ++ [new])%list
                         (invites db) (messages db) (users db)).
  { subst db1. rewrite Hleave. simpl. by rewrite bool_decide_eq_true_2. }
  assert (Hg1 : findOne (byGroupId (castObjectId groupId)) (groups db1) = Some g1).
  { rewrite Hdb1. simpl. apply (findOne_replace _ _ g); [done|].
    unfold byGroupId. simpl. rewrite Hid. apply String.eqb_refl. }
  assert (Hm1 : some (fun m => m =? user) (Group.members g1) = false).
  { apply some_eqb_false. simpl. rewrite Hms in Hnd.
    apply NoDup_app in Hnd as (_ & _ & Hnd2). apply NoDup_cons in Hnd2 as [Hna _].
    intros [Hin|Hin]%elem_of_app; [by apply Hnb | by apply Hna]. }
  assert (Hb1 : some (fun u => u =? user) (Group.bannedUsers g1) = false).
  { apply some_eqb_false. simpl. intros Hb. apply (Hdisj user); [|done].
    by apply some_eqb_true. }
  assert (Hnew : new ∈ leaveHistories db1).
  { rewrite Hdb1. simpl. apply elem_of_app. right. by left. }
  destruct (lastLeaveOf_is_Some (castObjectId groupId) user (leaveHistories db1) new Hnew eq_refl eq_refl)
    as [lastLeave Hlast].
  destruct (requestJoinPrivate_last_leave db1 newId now user groupId g1 lastLeave
              Hv Hg1 Hty Hm1 Hb1 Hlast)
    as ((Hin & Hlg & Hlu & Hmax) & Hcool & Hok).
  pose proof (Hmax new Hnew eq_refl eq_refl) as Hrecent. simpl in Hrecent.
  split.
  - intros Hlt. destruct Hcool as (hours & Hcall & _); [lia|]. by exists hours.
  - intros Hge Hold Hfresh. apply Hok.
    + assert (LeaveHistory.leftAt lastLeave <= leftAt)%Z; [|lia].
      rewrite Hdb1 in Hin. simpl in Hin.
      apply elem_of_app in Hin as [Hin| ->%list_elem_of_singleton]; [|simpl; lia].
      by apply Hold.
    + by rewrite Hdb1.
Qed.

(** C7. A user who is neither a member of a private group nor banned from
    it, with leaves of that group on record, requests to join: the most
    recent [leftAt] counts. Strictly less than 48 hours after it, the
    request fails with the cooldown error, whose hours are the ceiling of
    48 h minus the elapsed time, and nothing is written (no JoinRequest is
    created or modified); at or after 48 hours the request succeeds and
    the pair's JoinRequest is pending. A leave writes a LeaveHistory
    record exactly when it succeeds on a private group, never for an open
    one. So a member who leaves a private group (at rest, members without
    duplicates) and asks to join again is refused within 48 hours, and is
    let through to a pending request from 48 hours on. *)
Theorem requestJoinPrivate_cooldown :
  (forall db newId now user groupId g lastLeave,
     isValidObjectId groupId = true ->
     findOne (byGroupId (castObjectId groupId)) (groups db) = Some g ->
     Group.type g = private ->
     some (fun m => m =? user) (Group.members g) = false ->
     some (fun u => u =? user) (Group.bannedUsers g) = false ->
     lastLeaveOf (castObjectId groupId) user (leaveHistories db) = Some lastLeave ->
     let elapsed := (now - LeaveHistory.leftAt lastLeave)%Z in
     let call := requestJoinPrivate isValidObjectId castObjectId db newId now user groupId in
     (lastLeave ∈ leaveHistories db
      /\ LeaveHistory.group lastLeave = castObjectId groupId
      /\ LeaveHistory.user lastLeave = user
      /\ forall l, l ∈ leaveHistories db ->
           LeaveHistory.group l = castObjectId groupId -> LeaveHistory.user l = user ->
           (LeaveHistory.leftAt l <= LeaveHistory.leftAt lastLeave)%Z)
     /\ ((elapsed < 48 * 3600000)%Z ->
         exists hours,
           call = (mkRes 400 (JCooldown hours), db)
           /\ ((hours - 1) * 3600000 < 48 * 3600000 - elapsed <= hours * 3600000)%Z)
     /\ ((48 * 3600000 <= elapsed)%Z ->
         (findOne (byGroupUser (castObjectId groupId) user) (joinRequests db) = None ->
          findOne (byRequestId newId) (joinRequests db) = None) ->
         exists jr msg,
           fst call = mkRes 200 (JMessageRequest msg (JoinRequest._id jr))
           /\ findOne (byGroupUser (castObjectId groupId) user) (joinRequests (snd call)) = Some jr
           /\ JoinRequest.status jr = pending))
  /\ (forall db now user groupId g,
        findOne (byGroupId (castObjectId groupId)) (groups db) = Some g ->
        let call := leaveGroup isValidObjectId castObjectId db now user groupId in
        (Group.type g = open -> leaveHistories (snd call) = leaveHistories db)
        /\ (Group.type g = private ->
            leaveHistories (snd call)
            = if bool_decide (status (fst call) = 200%Z)
              then (leaveHistories db ++ [LeaveHistory.mk (castObjectId groupId) user now])%list
              else leaveHistories db))
  /\ (forall db leftAt user groupId g newId now,
        isValidObjectId groupId = true ->
        findOne (byGroupId (castObjectId groupId)) (groups db) = Some g ->
        Group.type g = private ->
        some (fun m => m =? user) (Group.members g) = true ->
        Group.owner g ≠ user ->
        NoDup (Group.members g) ->
        membersBannedDisjoint g ->
        let db1 := snd (leaveGroup isValidObjectId castObjectId db leftAt user groupId) in
        let call := requestJoinPrivate isValidObjectId castObjectId db1 newId now user groupId in
        ((now - leftAt < 48 * 3600000)%Z ->
         exists hours, call = (mkRes 400 (JCooldown hours), db1))
        /\ ((48 * 3600000 <= now - leftAt)%Z ->
            (forall l, l ∈ leaveHistories db ->
               LeaveHistory.group l = castObjectId groupId -> LeaveHistory.user l = user ->
               (LeaveHistory.leftAt l <= leftAt)%Z) ->
            (findOne (byGroupUser (castObjectId groupId) user) (joinRequests db) = None ->
             findOne (byRequestId newId) (joinRequests db) = None) ->
            exists jr msg,
              fst call = mkRes 200 (JMessageRequest msg (JoinRequest._id jr))
              /\ findOne (byGroupUser (castObjectId groupId) user) (joinRequests (snd call))
                 = Some jr
              /\ JoinRequest.status jr = pending)).
Proof.
  split; [exact requestJoinPrivate_last_leave|]. split.
  - intros db now user groupId g Hg call.
    destruct (leaveGroup_leaveHistories isValidObjectId castObjectId db now user groupId)
      as [_ Hls].
    specialize (Hls g Hg). fold call in Hls. split; intros Hty; rewrite Hls, Hty.
    + rewrite bool_decide_eq_false_2; [done | by intros [_ ?]].
    + by repeat case_bool_decide; try tauto.
  - exact leaveGroup_then_requestJoinPrivate.
Qed.
End Cooldown.

Lemma requestJoinPrivate_cooldown_witness :
  requestJoinPrivate isHex24 castHex demoDb newObjectId (5000 + 47 * 3600000 + 1) dave
    (Group._id club)
  = (mkRes 400 (JCooldown 1), demoDb)
  /\ leaveHistories
       (snd (leaveGroup isHex24 castHex demoDb 7000 carol (Group._id club)))
     = [LeaveHistory.mk (Group._id club) dave 1000;
        LeaveHistory.mk (Group._id club) dave 5000;
        LeaveHistory.mk (Group._id club) carol 7000].
Proof.
  split.
  - destruct (proj1 (requestJoinPrivate_cooldown isHex24 castHex) demoDb newObjectId
                (5000 + 47 * 3600000 + 1)%Z dave (Group._id club) club
                (LeaveHistory.mk (Group._id club) dave 5000)
                eq_refl eq_refl eq_refl eq_refl eq_refl eq_refl)
      as (_ & Hcool & _).
    destruct Hcool as (hours & Hcall & Hceil); [simpl; lia|].
    rewrite Hcall. simpl in Hceil. by replace hours with 1%Z by lia.
  - exact (proj2 (proj1 (proj2 (requestJoinPrivate_cooldown isHex24 castHex)) demoDb 7000
                    carol (Group._id club) club eq_refl) eq_refl).
Defined.

Example carol_leaves_club_and_asks_again :
  let db1 := snd (leaveGroup isHex24 castHex demoDb 7000 carol (Group._id club)) in
  requestJoinPrivate isHex24 castHex db1 newObjectId (7000 + 3600000) carol (Group._id club)
  = (mkRes 400 (JCooldown 47), db1)
  /\ fst (requestJoinPrivate isHex24 castHex db1 newObjectId (7000 + 48 * 3600000) carol
            (Group._id club))
     = mkRes 200 (JMessageRequest "Join request submitted" newObjectId).
Proof. split; reflexivity. Qed.

Example dave_waits_48_hours :
  requestJoinPrivate isHex24 castHex demoDb newObjectId (5000 + 48 * 3600000) dave
    (Group._id club)
  = (mkRes 200 (JMessageRequest "Join request submitted" newObjectId),
     set_joinRequests
       [bobAtClub; erinAtBoard; erinAtClub;
        JoinRequest.mk newObjectId (Group._id club) dave pending
          (5000 + 48 * 3600000)] demoDb).
Proof. reflexivity. Qed.

Example dave_one_millisecond_early :
  requestJoinPrivate isHex24 castHex demoDb newObjectId (5000 + 48 * 3600000 - 1) dave
    (Group._id club)
  = (mkRes 400 (JCooldown 1), demoDb).
Proof. reflexivity. Qed.

Example dave_just_left :
  requestJoinPrivate isHex24 castHex demoDb newObjectId 5000 dave (Group._id club)
  = (mkRes 400 (JCooldown 48), demoDb).
Proof. reflexivity. Qed.

Example carol_leaves_open_lounge :
  leaveHistories (snd (leaveGroup isHex24 castHex demoDb 7000 carol (Group._id lounge)))
  = leaveHistories demoDb
  /\ fst (leaveGroup isHex24 castHex demoDb 7000 carol (Group._id lounge))
     = mkRes 200 (JMessage "Left group").
Proof. split; reflexivity. Qed.

Section OwnerLeave.
Variable isValidObjectId : string -> bool.
Variable castObjectId : string -> ObjectId.

(** C8, amended. [leave] by the group's current owner, a member, fails with
    status 400 and the error "Owner must transfer ownership before
    leaving", which differs from the error "Not a member" (also 400) that
    a non-member gets, and changes nothing; for a member who is not the
    owner it removes the user's first entry from members, so that the user
    is no member any more when members holds no duplicates. *)
Theorem leaveGroup_owner_must_transfer db now user groupId g :
  isValidObjectId groupId = true ->
  findOne (byGroupId (castObjectId groupId)) (groups db) = Some g ->
  let call := leaveGroup isValidObjectId castObjectId db now user groupId in
  (some (fun m => m =? user) (Group.members g) = false ->
   call = (mkRes 400 (JError "Not a member"), db))
  /\ (some (fun m => m =? user) (Group.members g) = true ->
      Group.owner g = user ->
      call = (mkRes 400 (JError "Owner must transfer ownership before leaving"), db)
      /\ fst call ≠ mkRes 400 (JError "Not a member"))
  /\ (some (fun m => m =? user) (Group.members g) = true ->
      Group.owner g ≠ user ->
      exists before after,
        Group.members g = (before ++ user :: after)%list
        /\ (user ∉ before)
        /\ fst call = mkRes 200 (JMessage "Left group")
        /\ findOne (byGroupId (castObjectId groupId)) (groups (snd call))
           = Some (Group.set_members (before ++ after)%list g)
        /\ (NoDup (Group.members g) -> user ∉ (before ++ after)%list)).
Proof.
  intros Hv Hg call. pose proof (findOne_byGroupId _ _ _ Hg) as [_ Hid].
  split; [|split].
  - intros Hm. apply findIndex_None in Hm.
    subst call. unfold leaveGroup. by rewrite Hv, Hg, Hm.
  - intros Hm Hown.
    assert (call = (mkRes 400 (JError "Owner must transfer ownership before leaving"),
                    db)) as ->; [|done].
    subst call. unfold leaveGroup. rewrite Hv, Hg.
    destruct (findIndex _ (Group.members g)) as [idx|] eqn:Hidx.
    + by rewrite Hown, String.eqb_refl.
    + apply findIndex_None in Hidx. congruence.
  - intros Hm Hown.
    destruct (findIndex (fun m => m =? user) (Group.members g)) as [idx|] eqn:Hidx;
      [|apply findIndex_None in Hidx; congruence].
    destruct (findIndex_Some _ _ _ Hidx) as (before & after & Hms & Hnb & _ & Hsp).
    exists before, after. split; [done|]. split; [done|].
    subst call. rewrite (leaveGroup_member _ _ _ _ _ _ _ _ Hv Hg Hidx Hown). simpl.
    split; [done|]. split.
    + rewrite Hsp.
      assert (groups (if bool_decide (Group.type g = private)
                      then set_leaveHistories
                             (leaveHistories db
                                ++ [LeaveHistory.mk (Group._id g) user now])%list
                             (saveGroup (Group.set_members (before ++ after)%list g) db)
                      else saveGroup (Group.set_members (before ++ after)%list g) db)
              = updateOne (byGroupId (Group._id g))
                  (fun _ => Group.set_members (before ++ after)%list g) (groups db))
        as -> by by case_bool_decide.
      rewrite Hid. apply (findOne_replace _ _ g); [done|].
      unfold byGroupId. simpl. rewrite Hid. apply String.eqb_refl.
    + rewrite Hms. intros Hnd Hin.
      apply NoDup_app in Hnd as (_ & Hdisj & Hnd2).
      apply NoDup_cons in Hnd2 as [Hna _].
      apply elem_of_app in Hin as [Hin|Hin]; [by apply Hnb | by apply Hna].
Qed.
End OwnerLeave.

Lemma leaveGroup_owner_must_transfer_witness :
  leaveGroup isHex24 castHex demoDb 7000 alice (Group._id club)
  = (mkRes 400 (JError "Owner must transfer ownership before leaving"), demoDb)
  /\ leaveGroup isHex24 castHex demoDb 7000 erin (Group._id club)
     = (mkRes 400 (JError "Not a member"), demoDb).
Proof.
  pose proof (leaveGroup_owner_must_transfer isHex24 castHex demoDb 7000 alice
                (Group._id club) club eq_refl eq_refl) as (_ & Howner & _).
  pose proof (leaveGroup_owner_must_transfer isHex24 castHex demoDb 7000 erin
                (Group._id club) club eq_refl eq_refl) as (Hnon & _).
  split; [exact (proj1 (Howner eq_refl eq_refl)) | exact (Hnon eq_refl)].
Defined.

(** C8 as stated fails: the owner's leave is answered 400, the status of
    a validation error, not 403. *)
Lemma leaveGroup_owner_not_forbidden :
  Group.owner club = alice
  /\ leaveGroup isHex24 castHex demoDb 7000 alice (Group._id club)
     = (mkRes 400 (JError "Owner must transfer ownership before leaving"), demoDb)
  /\ status (fst (leaveGroup isHex24 castHex demoDb 7000 alice (Group._id club))) ≠ 403%Z.
Proof. repeat split; try reflexivity. discriminate. Qed.

Example carol_leaves_club :
  leaveGroup isHex24 castHex demoDb 7000 carol (Group._id club)
  = (mkRes 200 (JMessage "Left group"),
     mkDb [lounge; board;
           Group.mk "65b000000000000000000003" "club" private alice 0 [alice] [bob]]
          (joinRequests demoDb)
          [LeaveHistory.mk (Group._id club) dave 1000;
           LeaveHistory.mk (Group._id club) dave 5000;
           LeaveHistory.mk (Group._id club) carol 7000]
          (invites demoDb) (messages demoDb) (users demoDb)).
Proof. reflexivity. Qed.
(** ** The message codec *)

(** U+FFFD is no surrogate. *)
Lemma isWellFormed_cons c s :
  isHighSurrogate c = false -> isLowSurrogate c = false ->
  isWellFormed (c :: s) = isWellFormed s.
Proof. intros Hh Hl. simpl. by rewrite Hh, Hl. Qed.

Lemma toWellFormed_cons c s :
  isHighSurrogate c = false -> isLowSurrogate c = false ->
  toWellFormed (c :: s) = c :: toWellFormed s.
Proof. intros Hh Hl. simpl. by rewrite Hh, Hl. Qed.

Lemma surrogates_apart c : isHighSurrogate c = true -> isLowSurrogate c = false.
Proof.
  unfold isHighSurrogate, isLowSurrogate.
  rewrite andb_true_iff, andb_false_iff, !N.leb_le, !N.leb_gt. lia.
Qed.

(** [toWellFormed] gives a well-formed string. *)
Lemma toWellFormed_isWellFormed s : isWellFormed (toWellFormed s) = true.
Proof.
  remember (length s) as n eqn:Hn. revert s Hn.
  induction n as [n IH] using lt_wf_ind. intros s Hn.
  destruct s as [|c s]; [done|].
  destruct (isHighSurrogate c) eqn:Hh.
  - destruct s as [|d s].
    + simpl. by rewrite Hh.
    + destruct (isLowSurrogate d) eqn:Hl.
      * assert (toWellFormed (c :: d :: s) = c :: d :: toWellFormed s) as ->
          by (simpl; by rewrite Hh, Hl).
        assert (isWellFormed (c :: d :: toWellFormed s) = isWellFormed (toWellFormed s))
          as -> by (simpl; by rewrite Hh, Hl).
        apply (IH (length s)); [simpl in Hn; lia | done].
      * assert (toWellFormed (c :: d :: s) = 65533%N :: toWellFormed (d :: s)) as ->
          by (simpl; by rewrite Hh, Hl).
        rewrite isWellFormed_cons by done.
        apply (IH (length (d :: s))); [simpl in *; lia | done].
  - destruct (isLowSurrogate c) eqn:Hl.
    + assert (toWellFormed (c :: s) = 65533%N :: toWellFormed s) as ->
        by (simpl; by rewrite Hh, Hl).
      rewrite isWellFormed_cons by done.
      apply (IH (length s)); [simpl in Hn; lia | done].
    + rewrite toWellFormed_cons, isWellFormed_cons by done.
      apply (IH (length s)); [simpl in Hn; lia | done].
Qed.

(** A well-formed string is left as it is. *)
Lemma toWellFormed_fixed s : isWellFormed s = true -> toWellFormed s = s.
Proof.
  remember (length s) as n eqn:Hn. revert s Hn.
  induction n as [n IH] using lt_wf_ind. intros s Hn.
  destruct s as [|c s]; [done|].
  destruct (isHighSurrogate c) eqn:Hh.
  - destruct s as [|d s]; simpl; rewrite Hh; [done|].
    intros [Hl Hs]%andb_true_iff. rewrite Hl.
    f_equal. f_equal. apply (IH (length s)); [simpl in Hn; lia | done | done].
  - simpl. rewrite Hh. intros [Hl Hs]%andb_true_iff.
    apply negb_true_iff in Hl. rewrite Hl.
    f_equal. apply (IH (length s)); [simpl in Hn; lia | done | done].
Qed.

Section Crypto.
Variable node : NodeCrypto.
Variable AES_128_KEY_BASE64 : option string.

Lemma getKey_inr key :
  getKey node AES_128_KEY_BASE64 = inr key ->
  exists b64, AES_128_KEY_BASE64 = Some b64 /\ b64 ≠ EmptyString
              /\ key = fromBase64 node b64 /\ length key = 16%nat.
Proof.
  unfold getKey. destruct AES_128_KEY_BASE64 as [b64|]; [|done].
  destruct (b64 =? EmptyString) eqn:He; [done|]. apply String.eqb_neq in He.
  destruct (length (fromBase64 node b64) =? 16)%nat eqn:Hlen; simpl; [|done].
  intros [= <-]. apply Nat.eqb_eq in Hlen. by exists b64.
Qed.

(** [encryptMessage] throws only what [getKey] throws. *)
Lemma encryptMessage_inl iv text err :
  encryptMessage node AES_128_KEY_BASE64 iv text = inl err ->
  getKey node AES_128_KEY_BASE64 = inl err /\ exists msg, err = PlainError msg.
Proof.
  unfold encryptMessage.
  destruct (getKey node AES_128_KEY_BASE64) as [err'|key] eqn:Hkey.
  - intros [= <-]. split; [done|]. revert Hkey. unfold getKey.
    repeat case_match; intros [= <-]; by eexists.
  - by destruct (gcmEncrypt node key iv (fromUtf8 node text)).
Qed.

(** The layout of a payload: nonce, tag and ciphertext are found where
    [encryptMessage] has put them. *)
Lemma subarray_layout (iv tag ciphertext : Buffer) :
  length iv = 12%nat -> length tag = 16%nat ->
  let buf := (iv ++ tag ++ ciphertext)%list in
  subarray buf 0 (Some 12%nat) = iv
  /\ subarray buf 12 (Some 28%nat) = tag
  /\ subarray buf 28 None = ciphertext.
Proof.
  intros Hiv Htag buf. unfold subarray, buf. simpl. split; [|split].
  - by apply take_app_length'.
  - rewrite drop_app_length' by done. by apply take_app_length'.
  - rewrite (app_assoc iv tag ciphertext).
    apply drop_app_length'. rewrite length_app. lia.
Qed.

(** Decryption undoes encryption, up to the lone surrogates of the text:
    with Node as documented, a key of 16 bytes configured and a nonce of
    12 bytes, [encryptMessage] returns a payload and [decryptMessage]
    returns, for this payload, the text with every lone surrogate replaced
    by U+FFFD, which is the text itself when it is well-formed. *)
Lemma encryptMessage_decryptMessage key iv text :
  NodeCryptoSpec node ->
  getKey node AES_128_KEY_BASE64 = inr key ->
  length iv = 12%nat ->
  exists payload,
    encryptMessage node AES_128_KEY_BASE64 iv text = inr payload
    /\ decryptMessage node AES_128_KEY_BASE64 payload = inr (toWellFormed text).
Proof.
  intros Hnode Hkey Hiv.
  destruct (getKey_inr key Hkey) as (_ & _ & _ & _ & Hlen).
  unfold encryptMessage, decryptMessage. rewrite Hkey.
  pose proof (gcm_tag_length node Hnode key iv (fromUtf8 node text) Hlen Hiv) as Htag.
  pose proof (gcm_roundtrip node Hnode key iv (fromUtf8 node text) Hlen Hiv) as Hrt.
  destruct (gcmEncrypt node key iv (fromUtf8 node text)) as [ciphertext tag].
  simpl in Htag, Hrt. eexists. split; [reflexivity|].
  rewrite (base64_roundtrip node Hnode).
  destruct (subarray_layout iv tag ciphertext Hiv Htag) as (-> & -> & ->).
  rewrite Hrt, (utf8_replaces node Hnode).
  by rewrite (utf8_roundtrip node Hnode) by apply toWellFormed_isWellFormed.
Qed.
End Crypto.

(** The stand-in of the examples meets what Node documents. *)
Lemma fromUnary_unary count s rest :
  fromUnary count (unary s ++ rest)
  = match s with
    | [] => fromUnary count rest
    | c :: s' => N.of_nat (count + N.to_nat c) :: fromUnary 0 (unary s' ++ rest)
    end.
Proof.
  destruct s as [|c s]; [done|]. simpl.
  rewrite <- (app_assoc (repeat Byte.x01 (N.to_nat c))). simpl.
  generalize (N.to_nat c). intros n. revert count.
  induction n as [|n IH]; intros count; simpl.
  - by rewrite Nat.add_0_r.
  - rewrite IH. do 2 f_equal. lia.
Qed.

Lemma fromUnary_unary_all s : fromUnary 0 (unary s) = s.
Proof.
  induction s as [|c s IH]; [done|].
  rewrite <- (app_nil_r (unary (c :: s))), fromUnary_unary, app_nil_r, IH.
  simpl. by rewrite N2Nat.id.
Qed.

Lemma demoNode_spec : NodeCryptoSpec demoNode.
Proof.
  constructor; simpl.
  - apply list_byte_of_string_of_list_byte.
  - intros s Hs. by rewrite (toWellFormed_fixed s Hs), fromUnary_unary_all.
  - intros s.
    by rewrite (toWellFormed_fixed (toWellFormed s)) by apply toWellFormed_isWellFormed.
  - done.
  - intros key iv plaintext _ _. by rewrite bool_decide_eq_true_2.
Qed.

(** ** The message log *)

(** A list that is related to a sorted list element by element, by a
    relation that carries the keys over, is sorted. *)
Lemma StronglySorted_Forall2 {A B} (R : A -> B -> Prop) (ka : A -> Z) (kb : B -> Z)
    (l : list A) (k : list B) :
  (forall a b, R a b -> kb b = ka a) ->
  Forall2 R l k ->
  StronglySorted (fun a a' => (ka a <= ka a')%Z) l ->
  StronglySorted (fun b b' => (kb b <= kb b')%Z) k.
Proof.
  intros Hkey. induction 1 as [|a b l k Hab Hlk IH]; intros Hs; [constructor|].
  apply StronglySorted_inv in Hs as [Hs Hall]. constructor; [by apply IH|].
  rewrite (Hkey a b Hab).
  clear IH Hs. induction Hlk as [|a' b' l k Hab' _ IH]; [constructor|].
  apply Forall_cons in Hall as [Ha Hall].
  constructor; [by rewrite (Hkey a' b' Hab') | by apply IH].
Qed.

Lemma Forall2_elem_of_l {A B} (R : A -> B -> Prop) l k a :
  Forall2 R l k -> a ∈ l -> exists b, b ∈ k /\ R a b.
Proof.
  induction 1 as [|a' b' l k Hab _ IH]; [by intros ?%elem_of_nil|].
  intros [->|Hin]%elem_of_cons.
  - exists b'. split; [left | done].
  - destruct (IH Hin) as (b & Hb & HR). exists b. split; [by right | done].
Qed.

Lemma mapThrowing_inr {A B} (f : A -> Thrown + B) (l : list A) (ys : list B) :
  mapThrowing f l = inr ys <-> Forall2 (fun x y => f x = inr y) l ys.
Proof.
  revert ys. induction l as [|x l IH]; intros ys; simpl.
  - split; [by intros [= <-]; constructor | by inversion 1].
  - destruct (f x) as [err|y] eqn:Hx.
    + split; [done|]. inversion 1; congruence.
    + destruct (mapThrowing f l) as [err|ys'] eqn:Hl.
      * split; [done|]. inversion 1 as [|? y' ? ys'' Hy Hrest]; subst.
        by apply IH in Hrest.
      * split.
        -- intros [= <-]. constructor; [done | by apply IH].
        -- inversion 1 as [|? y' ? ys'' Hy Hrest]; subst.
           apply IH in Hrest. congruence.
Qed.

Lemma mapThrowing_inl {A B} (f : A -> Thrown + B) (l : list A) err :
  mapThrowing f l = inl err -> exists x, x ∈ l /\ f x = inl err.
Proof.
  induction l as [|x l IH]; simpl; [done|].
  destruct (f x) as [err'|y] eqn:Hx.
  - intros [= <-]. exists x. split; [left | done].
  - destruct (mapThrowing f l) as [err'|ys]; [|done].
    intros [= <-]. destruct (IH eq_refl) as (x' & Hin & Hx').
    exists x'. split; [by right | done].
Qed.

Lemma mapThrowing_length {A B} (f : A -> Thrown + B) (l : list A) (ys : list B) :
  mapThrowing f l = inr ys -> length ys = length l.
Proof. intros H%mapThrowing_inr. symmetry. by eapply Forall2_length. Qed.

Section MessageLog.
Variable isValidObjectId : string -> bool.
Variable castObjectId : string -> ObjectId.
Variable node : NodeCrypto.
Variable key : option string.

Lemma messageFilter_true gid since m :
  messageFilter gid since m = true <->
  Message.group m = gid
  /\ match since with
     | Some since => (since < Message.createdAt m)%Z
     | None => True
     end.
Proof.
  unfold messageFilter. rewrite andb_true_iff, String.eqb_eq.
  destruct since; [by rewrite Z.ltb_lt | tauto].
Qed.

(** [find(filter).sort({ createdAt: 1 })]: the matching messages, each as
    often as stored, in ascending order of [createdAt]. *)
Lemma findMessages_spec db gid since :
  findMessages db gid since ≡ₚ List.filter (messageFilter gid since) (messages db)
  /\ StronglySorted createdAt_asc (findMessages db gid since).
Proof.
  unfold findMessages. split.
  - apply merge_sort_Permutation.
  - apply (StronglySorted_merge_sort createdAt_asc).
Qed.

Lemma viewMessage_inr db m v :
  viewMessage node key db m = inr v ->
  v_id v = Message._id m
  /\ v_createdAt v = Message.createdAt m
  /\ decryptMessage node key (Message.payload m) = inr (v_text v)
  /\ v_sender_id v
     = User._id <$> findOne (fun u => User._id u =? Message.sender m) (users db).
Proof.
  unfold viewMessage.
  destruct (decryptMessage node key (Message.payload m)) as [err|text]; [done|].
  by intros [= <-].
Qed.

(** What [listMessages] answers to a member when the stored payloads of
    the group decrypt. *)
Lemma listMessages_member db caller groupId since g :
  isValidObjectId groupId = true ->
  findOne (byGroupId (castObjectId groupId)) (groups db) = Some g ->
  some (fun m => m =? caller) (Group.members g) = true ->
  (forall m, m ∈ messages db -> Message.group m = castObjectId groupId ->
             exists text, decryptMessage node key (Message.payload m) = inr text) ->
  exists out,
    listMessages isValidObjectId castObjectId node key db caller groupId since
    = (mkRes 200 (JMessages out), db)
    /\ Forall2 (fun m v => viewMessage node key db m = inr v)
         (findMessages db (castObjectId groupId) since) out.
Proof.
  intros Hv Hg Hm Hdec. pose proof (findOne_byGroupId _ _ _ Hg) as [_ Hid].
  unfold listMessages, findGroupById. rewrite Hv, Hg, Hm. simpl. rewrite Hid.
  destruct (mapThrowing (viewMessage node key db)
              (findMessages db (castObjectId groupId) since))
    as [err|out] eqn:Hout.
  - apply mapThrowing_inl in Hout as (m & Hin & Herr).
    destruct (findMessages_spec db (castObjectId groupId) since) as [Hperm _].
    rewrite Hperm in Hin. apply elem_of_List_filter in Hin as [Hin Hf].
    apply messageFilter_true in Hf as [Hgm _].
    destruct (Hdec m Hin Hgm) as [text Htext].
    unfold viewMessage in Herr. by rewrite Htext in Herr.
  - exists out. split; [done|]. by apply mapThrowing_inr.
Qed.

(** C9, amended. With Node as documented, a 16-byte key configured and a
    12-byte nonce drawn: after [send] succeeds for a member and a text,
    [list] by any current member of the group answers with that message,
    its text being the plaintext with every lone surrogate replaced by
    U+FFFD, hence equal to the plaintext when that is well-formed UTF-16
    (decryption undoes encryption up to there); and [list] answers with
    exactly the stored messages of the group whose [createdAt] is strictly
    greater than [since] (all of them when [since] is omitted), each
    decrypted, in ascending order of [createdAt]. Stored payloads of the
    group are taken to decrypt, as the ones [send] writes do. *)
Theorem send_then_list_roundtrip :
  (forall db newId now iv sender groupId text g caller aesKey,
     NodeCryptoSpec node ->
     getKey node key = inr aesKey ->
     length iv = 12%nat ->
     (1 <= length text <= 5000)%nat ->
     isValidObjectId groupId = true ->
     findOne (byGroupId (castObjectId groupId)) (groups db) = Some g ->
     some (fun m => m =? sender) (Group.members g) = true ->
     some (fun m => m =? caller) (Group.members g) = true ->
     some (fun m => Message._id m =? newId) (messages db) = false ->
     (forall m, m ∈ messages db -> Message.group m = castObjectId groupId ->
                exists t, decryptMessage node key (Message.payload m) = inr t) ->
     let send :=
       sendMessage isValidObjectId castObjectId node key db newId now iv sender
         groupId text in
     fst send = mkRes 201 (JSent newId now)
     /\ (exists payload,
           encryptMessage node key iv text = inr payload
           /\ decryptMessage node key payload = inr (toWellFormed text))
     /\ exists out v,
          listMessages isValidObjectId castObjectId node key (snd send) caller
            groupId None
          = (mkRes 200 (JMessages out), snd send)
          /\ v ∈ out /\ v_id v = newId /\ v_createdAt v = now
          /\ v_text v = toWellFormed text
          /\ (isWellFormed text = true -> v_text v = text))
  /\ (forall db caller groupId since g,
        isValidObjectId groupId = true ->
        findOne (byGroupId (castObjectId groupId)) (groups db) = Some g ->
        some (fun m => m =? caller) (Group.members g) = true ->
        (forall m, m ∈ messages db -> Message.group m = castObjectId groupId ->
                   exists t, decryptMessage node key (Message.payload m) = inr t) ->
        exists out msgs,
          listMessages isValidObjectId castObjectId node key db caller groupId since
          = (mkRes 200 (JMessages out), db)
          /\ msgs ≡ₚ List.filter (messageFilter (castObjectId groupId) since)
                       (messages db)
          /\ (forall m, m ∈ msgs <->
                 m ∈ messages db /\ Message.group m = castObjectId groupId
                 /\ match since with
                    | Some since => (since < Message.createdAt m)%Z
                    | None => True
                    end)
          /\ Forall2 (fun m v =>
                        v_id v = Message._id m
                        /\ v_createdAt v = Message.createdAt m
                        /\ decryptMessage node key (Message.payload m)
                           = inr (v_text v))
               msgs out
          /\ StronglySorted (fun v v' => (v_createdAt v <= v_createdAt v')%Z) out).
Proof.
  assert (Hlist : forall db caller groupId since g,
        isValidObjectId groupId = true ->
        findOne (byGroupId (castObjectId groupId)) (groups db) = Some g ->
        some (fun m => m =? caller) (Group.members g) = true ->
        (forall m, m ∈ messages db -> Message.group m = castObjectId groupId ->
                   exists t, decryptMessage node key (Message.payload m) = inr t) ->
        exists out msgs,
          listMessages isValidObjectId castObjectId node key db caller groupId since
          = (mkRes 200 (JMessages out), db)
          /\ msgs ≡ₚ List.filter (messageFilter (castObjectId groupId) since)
                       (messages db)
          /\ (forall m, m ∈ msgs <->
                 m ∈ messages db /\ Message.group m = castObjectId groupId
                 /\ match since with
                    | Some since => (since < Message.createdAt m)%Z
                    | None => True
                    end)
          /\ Forall2 (fun m v =>
                        v_id v = Message._id m
                        /\ v_createdAt v = Message.createdAt m
                        /\ decryptMessage node key (Message.payload m)
                           = inr (v_text v))
               msgs out
          /\ StronglySorted (fun v v' => (v_createdAt v <= v_createdAt v')%Z) out).
  { intros db caller groupId since g Hv Hg Hm Hdec.
    destruct (listMessages_member db caller groupId since g Hv Hg Hm Hdec)
      as (out & Hcall & Hviews).
    destruct (findMessages_spec db (castObjectId groupId) since) as [Hperm Hsorted].
    exists out, (findMessages db (castObjectId groupId) since).
    assert (Hrel : Forall2 (fun m v =>
                        v_id v = Message._id m
                        /\ v_createdAt v = Message.createdAt m
                        /\ decryptMessage node key (Message.payload m)
                           = inr (v_text v))
               (findMessages db (castObjectId groupId) since) out).
    { eapply Forall2_impl; [exact Hviews|]. intros m v Hview. simpl in Hview.
      apply viewMessage_inr in Hview as (? & ? & ? & _). done. }
    split; [done|]. split; [done|]. split; [|split; [done|]].
    - intros m. by rewrite Hperm, elem_of_List_filter, messageFilter_true.
    - apply (StronglySorted_Forall2 _ Message.createdAt v_createdAt _ _
               (fun m v H => proj1 (proj2 H)) Hrel Hsorted). }
  split; [|exact Hlist].
  intros db newId now iv sender groupId text g caller aesKey Hnode Hkey Hiv Hlen Hv Hg
    Hs Hc Hfresh Hdec send.
  pose proof (findOne_byGroupId _ _ _ Hg) as [_ Hid].
  destruct (encryptMessage_decryptMessage node key aesKey iv text Hnode Hkey Hiv)
    as (payload & Henc & Hdecr).
  set (msg := Message.mk newId (castObjectId groupId) sender payload now).
  assert (Hsend : send = (mkRes 201 (JSent newId now),
                          set_messages (messages db ++ [msg])%list db)).
  { subst send. unfold sendMessage, sendSchema, findGroupById.
    assert ((1 <=? length text)%nat && (length text <=? 5000)%nat = true) as ->.
    { apply andb_true_iff. split; [apply Nat.leb_le | apply Nat.leb_le]; lia. }
    rewrite Hv, Hg, Hs. simpl. rewrite Henc, Hfresh. by rewrite Hid. }
  split; [by rewrite Hsend|]. split; [by exists payload|].
  rewrite Hsend. simpl.
  destruct (Hlist (set_messages (messages db ++ [msg])%list db) caller groupId None g)
    as (out & msgs & Hcall & _ & Hmem & Hrel & _); try done.
  { simpl. intros m [Hin| ->%list_elem_of_singleton]%elem_of_app Hgm.
    - by apply Hdec.
    - by exists (toWellFormed text). }
  assert (Hin : msg ∈ msgs).
  { apply Hmem. simpl. split; [|done]. apply elem_of_app. right. by left. }
  destruct (Forall2_elem_of_l _ _ _ _ Hrel Hin) as (v & Hv' & Hid' & Hat & Htext).
  exists out, v. simpl in *. rewrite Hdecr in Htext. injection Htext as Htext.
  repeat split; try done. intros Hwf. by rewrite <- Htext, toWellFormed_fixed.
Qed.
End MessageLog.

Lemma send_then_list_roundtrip_witness :
  let db1 := snd (sendMessage isHex24 castHex demoNode demoKey demoDb newObjectId 7000
                    demoIv carol (Group._id club) (jsString "hello")) in
  fst (sendMessage isHex24 castHex demoNode demoKey demoDb newObjectId 7000 demoIv
         carol (Group._id club) (jsString "hello"))
  = mkRes 201 (JSent newObjectId 7000)
  /\ exists out v,
       listMessages isHex24 castHex demoNode demoKey db1 alice (Group._id club) None
       = (mkRes 200 (JMessages out), db1)
       /\ v ∈ out /\ v_id v = newObjectId /\ v_createdAt v = 7000%Z
       /\ v_text v = jsString "hello".
Proof.
  destruct (proj1 (send_then_list_roundtrip isHex24 castHex demoNode demoKey) demoDb
              newObjectId 7000%Z demoIv carol (Group._id club) (jsString "hello")
              club alice (list_byte_of_string "0123456789abcdef") demoNode_spec)
    as (Hsent & _ & out & v & Hlist & Hin & Hid & Hat & _ & Htext);
    [reflexivity | reflexivity | simpl; lia | reflexivity | reflexivity | reflexivity
    | reflexivity | reflexivity | by intros m Hin; apply elem_of_nil in Hin |].
  split; [exact Hsent|]. exists out, v.
  split; [exact Hlist|]. split; [exact Hin|]. split; [exact Hid|].
  split; [exact Hat|]. by apply Htext.
Defined.

(** C9 as stated fails: a text is any JSON string, and one that holds a
    lone surrogate (here the single code unit D800) is sent with success
    and listed as another text (the code unit FFFD), because the UTF-8
    that the cipher reads has no lone surrogates. The primitives of the
    run, [demoNode], follow what Node documents of its own. *)
Lemma send_then_list_replaces_lone_surrogate :
  let send := sendMessage isHex24 castHex demoNode demoKey demoDb newObjectId 7000
                demoIv carol (Group._id club) [55296%N] in
  NodeCryptoSpec demoNode
  /\ isWellFormed [55296%N] = false
  /\ fst send = mkRes 201 (JSent newObjectId 7000)
  /\ fst (listMessages isHex24 castHex demoNode demoKey (snd send) alice
            (Group._id club) None)
     = mkRes 200
         (JMessages
            [mkView newObjectId (Some carol) (Some "carol@example.com") 7000
               [65533%N]]).
Proof.
  split; [exact demoNode_spec|]. split; [reflexivity|].
  split; vm_compute; reflexivity.
Qed.

Example carol_sends_alice_lists :
  let db1 := snd (sendMessage isHex24 castHex demoNode demoKey demoDb newObjectId 7000
                    demoIv carol (Group._id club) (jsString "hello")) in
  let db2 := snd (sendMessage isHex24 castHex demoNode demoKey db1
                    "65d00000000000000000000a" 6000 demoIv alice (Group._id club)
                    (jsString "earlier")) in
  listMessages isHex24 castHex demoNode demoKey db2 alice (Group._id club) None
  = (mkRes 200
       (JMessages
          [mkView "65d00000000000000000000a" (Some alice) (Some "alice@example.com")
             6000 (jsString "earlier");
           mkView newObjectId (Some carol) (Some "carol@example.com") 7000
             (jsString "hello")]),
     db2)
  /\ listMessages isHex24 castHex demoNode demoKey db2 alice (Group._id club)
       (Some 6000%Z)
     = (mkRes 200
          (JMessages
             [mkView newObjectId (Some carol) (Some "carol@example.com") 7000
                (jsString "hello")]),
        db2)
  /\ fst (listMessages isHex24 castHex demoNode demoKey db2 erin (Group._id club) None)
     = mkRes 403 (JError "Join group first")
  /\ fst (listMessages isHex24 castHex demoNode demoKey db2 alice
            "65B000000000000000000003" None)
     = fst (listMessages isHex24 castHex demoNode demoKey db2 alice (Group._id club)
              None)
  /\ fst (sendMessage isHex24 castHex demoNode None demoDb newObjectId 7000 demoIv
            carol (Group._id club) (jsString "hello"))
     = mkRes 500 (JError "AES_128_KEY_BASE64 env missing").
Proof. repeat split; vm_compute; reflexivity. Qed.

(** * Further properties of the routes *)

(** ** What a request does to the groups *)

Lemma updateOne_found {A} (p : A -> bool) (f : A -> A) (l : list A) (x : A) :
  findOne p l = Some x -> updateOne p f l = updateOne p (fun _ => f x) l.
Proof.
  unfold findOne. induction l as [|a l IH]; simpl; [done|].
  destruct (p a); [by intros [= ->] | intros H; by rewrite (IH H)].
Qed.

Lemma GroupsRewrite_save l gid g g' :
  findOne (byGroupId gid) l = Some g -> MemberWrite g g' ->
  GroupsRewrite l (updateOne (byGroupId gid) (fun _ => g') l).
Proof.
  intros Hg Hw. pose proof (findOne_byGroupId _ _ _ Hg) as [_ Hid].
  rewrite <- Hid in *. by apply GroupsWrite.
Qed.

Section Changes.
Variable isValidObjectId : string -> bool.
Variable castObjectId : string -> ObjectId.
Variable sha256 : string -> string.

Lemma joinOpenGroup_change db newId now user groupId :
  GroupsRewrite (groups db)
    (groups (snd (joinOpenGroup isValidObjectId castObjectId db newId now user groupId))).
Proof.
  unfold joinOpenGroup.
  destruct (isValidObjectId groupId); simpl; [|constructor].
  destruct (findOne _ _) as [group|] eqn:Hg; simpl; [|constructor].
  case_bool_decide; simpl; [|constructor].
  destruct (ensureNotBanned _ _ _ _ _) as [[err|] db1] eqn:He; simpl.
  - pose proof (ensureNotBanned_groups db newId now group user) as Hgs.
    rewrite He in Hgs. simpl in Hgs. rewrite Hgs. constructor.
  - apply ensureNotBanned_None in He as [-> Hnb].
    destruct (some _ (Group.members group)) eqn:Hm; simpl; [constructor|].
    destruct (capacityOk group) eqn:Hc; simpl; [|constructor].
    pose proof (findOne_byGroupId _ _ _ Hg) as [_ Hid].
    apply (GroupsRewrite_save _ _ group); [by rewrite Hid|].
    constructor; [done | by apply some_eqb_false | done].
Qed.

Lemma decideJoinRequest_change db user requestId decision :
  GroupsRewrite (groups db)
    (groups (snd (decideJoinRequest isValidObjectId castObjectId db user requestId decision))).
Proof.
  unfold decideJoinRequest.
  repeat (case_match; simpl; try apply GroupsSame).
  match goal with H : findOne (byGroupId _) _ = Some ?g |- _ =>
    pose proof (findOne_byGroupId _ _ _ H) as [_ Hid];
    rewrite (updateOne_found _ _ _ g) by (by rewrite Hid);
    apply (GroupsRewrite_save _ _ g); [by rewrite Hid|]
  end.
  constructor. by destruct (capacityOk _).
Qed.

Lemma leaveGroup_change db now user groupId :
  GroupsRewrite (groups db)
    (groups (snd (leaveGroup isValidObjectId castObjectId db now user groupId))).
Proof.
  unfold leaveGroup.
  destruct (isValidObjectId groupId); simpl; [|constructor].
  destruct (findOne _ _) as [group|] eqn:Hg; simpl; [|constructor].
  destruct (findIndex _ (Group.members group)) as [idx|] eqn:Hidx; simpl;
    [|constructor].
  destruct (Group.owner group =? user) eqn:Hown; simpl; [constructor|].
  apply String.eqb_neq in Hown.
  destruct (findIndex_Some _ _ _ Hidx) as (before & after & Hms & Hnb & _ & Hsp).
  pose proof (findOne_byGroupId _ _ _ Hg) as [_ Hid].
  assert (GroupsRewrite (groups db)
            (updateOne (byGroupId (Group._id group))
               (fun _ => Group.set_members (splice1 idx (Group.members group)) group)
               (groups db))) as Hch.
  { apply (GroupsRewrite_save _ _ group); [by rewrite Hid|].
    rewrite Hsp. by apply (MemberLeave _ user before after). }
  by case_bool_decide.
Qed.

Lemma banishMember_change db user groupId userId :
  GroupsRewrite (groups db)
    (groups (snd (banishMember isValidObjectId castObjectId db user groupId userId))).
Proof.
  unfold banishMember.
  destruct (isValidObjectId groupId); simpl; [|constructor].
  destruct (isValidObjectId userId); simpl; [|constructor].
  destruct (findOne _ _) as [group|] eqn:Hg; simpl; [|constructor].
  destruct (Group.owner group =? user) eqn:Hown; simpl; [|constructor].
  apply String.eqb_eq in Hown.
  destruct (userId =? user) eqn:Hself; simpl; [constructor|].
  apply String.eqb_neq in Hself.
  destruct (some _ (Group.bannedUsers group)) eqn:Hb; simpl; [constructor|].
  destruct (some _ (Group.members group)) eqn:Hm; simpl; [|constructor].
  pose proof (findOne_byGroupId _ _ _ Hg) as [_ Hid].
  apply (GroupsRewrite_save _ _ group); [by rewrite Hid|].
  constructor; [congruence | by apply some_eqb_true | by apply some_eqb_false].
Qed.

Lemma transferOwnership_change db user groupId newOwnerId :
  GroupsRewrite (groups db)
    (groups (snd (transferOwnership isValidObjectId castObjectId db user groupId newOwnerId))).
Proof.
  unfold transferOwnership.
  repeat (case_match; simpl in *; try apply GroupsSame); try done.
  match goal with H : findOne (byGroupId _) _ = Some ?g |- _ =>
    pose proof (findOne_byGroupId _ _ _ H) as [_ Hid];
    apply (GroupsRewrite_save _ _ g); [by rewrite Hid|]
  end.
  constructor. apply some_eqb_true. by destruct (some _ _).
Qed.

Lemma deleteGroup_change db user groupId :
  GroupsRewrite (groups db)
    (groups (snd (deleteGroup isValidObjectId castObjectId db user groupId))).
Proof.
  unfold deleteGroup.
  destruct (isValidObjectId groupId); simpl; [|constructor].
  destruct (findOne _ _) as [group|] eqn:Hg; simpl; [|constructor].
  destruct (Group.owner group =? user); simpl; [|constructor].
  destruct (1 <? length (Group.members group))%nat eqn:Hlen; simpl; [constructor|].
  pose proof (findOne_byGroupId _ _ _ Hg) as [_ Hid].
  apply GroupsDelete; [by rewrite Hid | apply Nat.ltb_ge in Hlen; lia].
Qed.

Lemma joinWithInvite_change db now user token :
  GroupsRewrite (groups db) (groups (snd (joinWithInvite sha256 db now user token))).
Proof.
  unfold joinWithInvite.
  repeat (case_match; simpl in *; try apply GroupsSame); try done.
  match goal with H : findOne (byGroupId _) _ = Some ?g |- _ =>
    pose proof (findOne_byGroupId _ _ _ H) as [_ Hid];
    apply (GroupsRewrite_save _ _ g); [by rewrite Hid|]
  end.
  constructor.
  - apply some_eqb_false. by destruct (some _ (Group.bannedUsers _)).
  - apply some_eqb_false. by destruct (some _ (Group.members _)).
  - by destruct (capacityOk _).
Qed.

Lemma createGroup_change db newId user body :
  GroupsChange (groups db)
    (groups (snd (createGroup isValidObjectId castObjectId db newId user body))).
Proof.
  unfold createGroup.
  destruct (groupCreateSchema body) as [[[[name type] maxMembers] ids]|] eqn:Hs;
    simpl; [|apply GroupsKept, GroupsSame].
  destruct (List.find _ _) eqn:Hfind; simpl; [apply GroupsKept, GroupsSame|].
  destruct (negb (maxMembers =? 0)%Z && _) eqn:Hcap; simpl; [apply GroupsKept, GroupsSame|].
  destruct (some (byGroupId newId) (groups db)) eqn:Hfresh; simpl; [apply GroupsKept, GroupsSame|].
  apply GroupsCreate; [|by apply some_findOne].
  apply groupCreateSchema_Some in Hs as (_ & _ & _ & _ & Hvalid & _).
  split; [done|]. split; [by eexists|]. split; [done|].
  unfold withinCapacity. simpl. rewrite length_map.
  apply andb_false_iff in Hcap as [Hcap|Hcap];
    [left; apply negb_false_iff in Hcap; lia | right; lia].
Qed.

(** Every route but the creation rewrites the groups in one of the three
    ways of [GroupsRewrite]. *)
Lemma groupsRouter_rewrite db r :
  match r with
  | PostGroup _ _ _ => True
  | _ =>
    GroupsRewrite (groups db)
      (groups (snd (groupsRouter isValidObjectId castObjectId sha256 db r)))
  end.
Proof.
  destruct r; simpl; [done | | | | | | | | |].
  - apply joinOpenGroup_change.
  - rewrite requestJoinPrivate_groups. constructor.
  - apply decideJoinRequest_change.
  - apply leaveGroup_change.
  - apply banishMember_change.
  - apply transferOwnership_change.
  - apply deleteGroup_change.
  - rewrite createInvite_groups. constructor.
  - apply joinWithInvite_change.
Qed.

(** Every route changes the groups in one of the ways of
    [GroupsChange]. *)
Lemma groupsRouter_change db r :
  GroupsChange (groups db)
    (groups (snd (groupsRouter isValidObjectId castObjectId sha256 db r))).
Proof.
  pose proof (groupsRouter_rewrite db r) as Hr.
  destruct r; [apply createGroup_change | by apply GroupsKept ..].
Qed.
End Changes.

(** ** Invariants of the groups *)

Lemma deleteOne_sublist {A} (p : A -> bool) (l : list A) :
  deleteOne p l `sublist_of` l.
Proof.
  induction l as [|a l IH]; simpl; [done|].
  destruct (p a); [by apply sublist_cons | by apply sublist_skip].
Qed.

Lemma map_updateOne {A B} (key : A -> B) (p : A -> bool) (f : A -> A) (l : list A) :
  (forall x, x ∈ l -> p x = true -> key (f x) = key x) ->
  List.map key (updateOne p f l) = List.map key l.
Proof.
  induction l as [|a l IH]; intros Hkey; simpl; [done|].
  destruct (p a) eqn:Hp; simpl.
  - rewrite (Hkey a); [done | left | done].
  - rewrite IH; [done|]. intros x Hx. apply Hkey. by right.
Qed.

Lemma GroupsRewrite_Forall (P : Group.t -> Prop) l l' :
  (forall g g', MemberWrite g g' -> P g -> P g') ->
  GroupsRewrite l l' -> Forall P l -> Forall P l'.
Proof.
  intros Hw Hch Hall. rewrite Forall_forall in Hall.
  apply Forall_forall. destruct Hch as [|g g' Hg Hwr|g Hg _]; intros x Hx.
  - by apply Hall.
  - apply elem_of_updateOne in Hx as [Hx|(y & Hy & ->)]; [by apply Hall|].
    apply (Hw g); [done|]. apply Hall. by apply findOne_Some in Hg as [? _].
  - apply Hall. by apply elem_of_deleteOne in Hx.
Qed.

Lemma GroupsChange_Forall (P : Group.t -> Prop) l l' :
  (forall g g', MemberWrite g g' -> P g -> P g') ->
  (forall g, CreatedGroup g -> P g) ->
  GroupsChange l l' -> Forall P l -> Forall P l'.
Proof.
  intros Hw Hc Hch Hall. destruct Hch as [l' Hre|g' Hcr _].
  - by apply (GroupsRewrite_Forall P l).
  - apply Forall_app. split; [done|]. constructor; [auto | constructor].
Qed.

Lemma GroupsChange_ids l l' :
  GroupsChange l l' -> NoDup (List.map Group._id l) -> NoDup (List.map Group._id l').
Proof.
  intros Hch Hnd. destruct Hch as [l' [|g g' Hg Hwr|g Hg _]|g' _ Hfresh].
  - done.
  - rewrite map_updateOne; [done|]. intros x _ Hp.
    apply String.eqb_eq in Hp. rewrite Hp. by destruct Hwr.
  - eapply sublist_NoDup; [done|].
    apply (fmap_sublist Group._id), deleteOne_sublist.
  - rewrite List.map_app. simpl. apply NoDup_app. split; [done|]. split.
    + intros i Hi ->%list_elem_of_singleton.
      apply list_elem_of_In, List.in_map_iff in Hi as (x & Hid & Hx).
      apply list_elem_of_In in Hx.
      assert (byGroupId (Group._id g') x = true) as Hp
        by (unfold byGroupId; rewrite Hid; apply String.eqb_refl).
      unfold findOne in Hfresh. apply list_elem_of_In in Hx.
      pose proof (List.find_none _ _ Hfresh x Hx). congruence.
    + apply NoDup_singleton.
Qed.

Lemma MemberWrite_owner g g' : MemberWrite g g' -> ownerIsMember g -> ownerIsMember g'.
Proof.
  unfold ownerIsMember.
  destruct 1 as [u Hb Hm Hc|u Hc|u before after Hms Hnb Hne|u Hne Hm Hb|o Ho];
    simpl; intros Hown.
  - apply elem_of_app. by left.
  - destruct (some _ (Group.members g)); [done | apply elem_of_app; by left].
  - rewrite Hms in Hown. apply elem_of_app in Hown as [?|Hown];
      [apply elem_of_app; by left|].
    apply elem_of_cons in Hown as [?|?]; [congruence | apply elem_of_app; by right].
  - apply elem_of_List_filter. split; [done|].
    apply negb_true_iff, String.eqb_neq. congruence.
  - done.
Qed.

Lemma MemberWrite_sets g g' :
  MemberWrite g g' -> rostersAreSets g -> rostersAreSets g'.
Proof.
  unfold rostersAreSets.
  destruct 1 as [u Hb Hm Hc|u Hc|u before after Hms Hnb Hne|u Hne Hm Hb|o Ho];
    simpl; intros [Hnm Hnb'].
  - split; [|done]. apply NoDup_app. split; [done|]. split; [|apply NoDup_singleton].
    by intros x Hx ->%list_elem_of_singleton.
  - split; [|by apply NoDup_List_filter].
    destruct (some _ (Group.members g)) eqn:Hs; [done|].
    apply some_eqb_false in Hs.
    apply NoDup_app. split; [done|]. split; [|apply NoDup_singleton].
    by intros x Hx ->%list_elem_of_singleton.
  - split; [|done]. rewrite Hms in Hnm.
    apply NoDup_app in Hnm as (H1 & H2 & H3). apply NoDup_cons in H3 as [_ H3].
    apply NoDup_app. split; [done|]. split; [|done].
    intros x Hx Hx'. apply (H2 x Hx). by right.
  - split; [by apply NoDup_List_filter|].
    apply NoDup_app. split; [done|]. split; [|apply NoDup_singleton].
    by intros x Hx ->%list_elem_of_singleton.
  - done.
Qed.

Lemma MemberWrite_capacityValid g g' :
  MemberWrite g g' -> capacityValid g -> capacityValid g'.
Proof. unfold capacityValid. by destruct 1. Qed.

Lemma runRequests_ind (isValidObjectId : string -> bool)
    (castObjectId : string -> ObjectId) (sha256 : string -> string)
    (P : Db -> Prop) db rs :
  (forall db r, P db -> P (snd (groupsRouter isValidObjectId castObjectId sha256 db r))) ->
  P db -> P (runRequests isValidObjectId castObjectId sha256 db rs).
Proof.
  intros Hstep. revert db. induction rs as [|r rs IH]; intros db Hdb; simpl; [done|].
  apply IH. by apply Hstep.
Qed.

Section GroupInvariants.
Variable isValidObjectId : string -> bool.
Variable castObjectId : string -> ObjectId.
Variable sha256 : string -> string.

(** X1. The owner of every stored group is one of its members, after every
    request if before it, hence in every database that the routes build
    from one without groups. *)
Theorem owner_stays_member :
  (forall db r,
     Forall ownerIsMember (groups db) ->
     Forall ownerIsMember (groups (snd (groupsRouter isValidObjectId castObjectId sha256 db r))))
  /\ (forall ms us rs,
        Forall ownerIsMember
          (groups (runRequests isValidObjectId castObjectId sha256 (blankDb ms us) rs))).
Proof.
  assert (Hstep : forall db r,
     Forall ownerIsMember (groups db) ->
     Forall ownerIsMember (groups (snd (groupsRouter isValidObjectId castObjectId sha256 db r)))).
  { intros db r. apply GroupsChange_Forall.
    - apply MemberWrite_owner.
    - intros g (_ & [ids Hms] & _). unfold ownerIsMember. rewrite Hms. left.
    - apply groupsRouter_change. }
  split; [exact Hstep|]. intros ms us rs.
  apply (runRequests_ind _ _ _ (fun db => Forall ownerIsMember (groups db)));
    [exact Hstep | constructor].
Qed.

(** A list of ids that are their own casts is stored as it is. *)
Lemma map_cast_canonical ids :
  Forall (fun id => castObjectId id = id) ids -> List.map castObjectId ids = ids.
Proof. induction 1 as [|id ids Hid _ IH]; simpl; [done | by rewrite Hid, IH]. Qed.

(** X2. Members and banned users of every stored group are sets, no id
    twice in either list, as long as groups are created with initial member
    ids written the way they are stored: this holds after every request if
    before it, for every request other than a creation and for every
    creation whose initial member ids are each their own cast; hence in
    every database that such requests build from one without groups. (A
    creation that writes one id in two spellings stores it twice.) *)
Theorem rosters_stay_sets :
  (forall db r,
     canonicalInitialIds castObjectId r ->
     Forall rostersAreSets (groups db) ->
     Forall rostersAreSets
       (groups (snd (groupsRouter isValidObjectId castObjectId sha256 db r))))
  /\ (forall ms us rs,
        Forall (canonicalInitialIds castObjectId) rs ->
        Forall rostersAreSets
          (groups (runRequests isValidObjectId castObjectId sha256 (blankDb ms us) rs))).
Proof.
  assert (Hstep : forall db r,
     canonicalInitialIds castObjectId r ->
     Forall rostersAreSets (groups db) ->
     Forall rostersAreSets
       (groups (snd (groupsRouter isValidObjectId castObjectId sha256 db r)))).
  { intros db r Hcanon Hall.
    pose proof (groupsRouter_rewrite isValidObjectId castObjectId sha256 db r) as Hre.
    destruct r as [newId user req| | | | | | | | |];
      try by apply (GroupsRewrite_Forall _ _ _ MemberWrite_sets Hre).
    clear Hre. simpl in *. unfold createGroup.
    destruct (groupCreateSchema req) as [[[[name type] maxMembers] ids]|] eqn:Hs;
      [|done].
    apply groupCreateSchema_Some in Hs as (_ & _ & _ & _ & _ & ->).
    destruct (List.find _ _); [done|].
    destruct (negb _ && _); [done|].
    destruct (some (byGroupId newId) (groups db)); [done|].
    simpl. apply Forall_app. split; [done|]. constructor; [|constructor].
    split; simpl; [|constructor].
    rewrite map_cast_canonical.
    - constructor; [|apply newSet_NoDup].
      intros Hin. apply newSet_elem, elem_of_List_filter in Hin as [_ Hin].
      apply andb_true_iff in Hin as [_ Hin]. by rewrite String.eqb_refl in Hin.
    - apply Forall_forall. intros id Hin.
      apply newSet_elem, elem_of_List_filter in Hin as [Hin _].
      by apply (proj1 (Forall_forall _ _) Hcanon). }
  split; [exact Hstep|]. intros ms us rs Hrs.
  assert (Hgen : forall db,
            Forall rostersAreSets (groups db) ->
            Forall rostersAreSets
              (groups (runRequests isValidObjectId castObjectId sha256 db rs))).
  { induction Hrs as [|r rs Hr _ IH]; intros db Hdb; simpl; [done|].
    apply IH. by apply Hstep. }
  apply Hgen. constructor.
Qed.

(** X3. The capacity of every stored group is 0 or at least 2, after every
    request if before it (no route changes a capacity, and [createGroup]
    stores none but 0 or 2 and more), hence in every database that the
    routes build from one without groups. *)
Theorem capacities_stay_valid :
  (forall db r,
     Forall capacityValid (groups db) ->
     Forall capacityValid (groups (snd (groupsRouter isValidObjectId castObjectId sha256 db r))))
  /\ (forall ms us rs,
        Forall capacityValid
          (groups (runRequests isValidObjectId castObjectId sha256 (blankDb ms us) rs))).
Proof.
  assert (Hstep : forall db r,
     Forall capacityValid (groups db) ->
     Forall capacityValid (groups (snd (groupsRouter isValidObjectId castObjectId sha256 db r)))).
  { intros db r. apply GroupsChange_Forall.
    - apply MemberWrite_capacityValid.
    - by intros g (_ & _ & Hv & _).
    - apply groupsRouter_change. }
  split; [exact Hstep|]. intros ms us rs.
  apply (runRequests_ind _ _ _ (fun db => Forall capacityValid (groups db)));
    [exact Hstep | constructor].
Qed.

(** X4. Stored groups have distinct ids, after every request if before it
    (a write keeps the id, a creation under a used id is refused), hence
    in every database that the routes build from one without groups. *)
Theorem group_ids_stay_unique :
  (forall db r,
     groupIdsUnique db ->
     groupIdsUnique (snd (groupsRouter isValidObjectId castObjectId sha256 db r)))
  /\ (forall ms us rs,
        groupIdsUnique (runRequests isValidObjectId castObjectId sha256 (blankDb ms us) rs)).
Proof.
  assert (Hstep : forall db r,
     groupIdsUnique db ->
     groupIdsUnique (snd (groupsRouter isValidObjectId castObjectId sha256 db r))).
  { intros db r. apply GroupsChange_ids, groupsRouter_change. }
  split; [exact Hstep|]. intros ms us rs.
  apply (runRequests_ind _ _ _ groupIdsUnique); [exact Hstep | constructor].
Qed.
End GroupInvariants.

Lemma owner_stays_member_witness :
  Forall ownerIsMember
    (groups (snd (groupsRouter isHex24 castHex tagDigest demoDb
                    (PostLeave 7000 carol (Group._id club))))).
Proof.
  apply (proj1 (owner_stays_member isHex24 castHex tagDigest)).
  refine (bool_decide_unpack _ _). vm_compute. exact I.
Defined.

Lemma rosters_stay_sets_witness :
  Forall rostersAreSets
    (groups (snd (groupsRouter isHex24 castHex tagDigest demoDb
                    (PostGroup newObjectId alice teamBody)))).
Proof.
  apply (proj1 (rosters_stay_sets isHex24 castHex tagDigest)).
  - refine (bool_decide_unpack _ _). vm_compute. exact I.
  - refine (bool_decide_unpack _ _). vm_compute. exact I.
Defined.

(** Without the condition of X2: two spellings of an id, both stored. *)
Example two_spellings_stored_twice :
  ~ Forall rostersAreSets
      (groups (snd (groupsRouter isHex24 castHex tagDigest demoDb
                      (PostGroup newObjectId alice spellingsBody)))).
Proof. refine (bool_decide_unpack _ _). vm_compute. exact I. Qed.

Lemma capacities_stay_valid_witness :
  Forall capacityValid
    (groups (snd (groupsRouter isHex24 castHex tagDigest demoDb
                    (PostGroup newObjectId alice teamBody)))).
Proof.
  apply (proj1 (capacities_stay_valid isHex24 castHex tagDigest)).
  refine (bool_decide_unpack _ _). vm_compute. exact I.
Defined.

Lemma group_ids_stay_unique_witness :
  groupIdsUnique
    (snd (groupsRouter isHex24 castHex tagDigest demoDb
            (PostGroup newObjectId alice teamBody))).
Proof.
  apply (proj1 (group_ids_stay_unique isHex24 castHex tagDigest) demoDb
           (PostGroup newObjectId alice teamBody)).
  refine (bool_decide_unpack _ _). vm_compute. exact I.
Defined.

(** ** What a request does to the join requests *)

Lemma upsertPending_change newId now gid uid jrs jr jrs' :
  upsertPending newId now gid uid jrs = inr (jr, jrs') -> RequestsChange jrs jrs'.
Proof.
  unfold upsertPending.
  destruct (findOne (byGroupUser gid uid) jrs) as [old|] eqn:Hold.
  - intros [= <- <-]. constructor.
  - destruct (some (byRequestId newId) jrs) eqn:Hid; [done|].
    intros [= <- <-]. apply RequestsInsert; simpl; [by apply some_findOne|done|done].
Qed.

Lemma ensureNotBanned_requests db newId now g u :
  RequestsChange (joinRequests db)
    (joinRequests (snd (ensureNotBanned db newId now g u))).
Proof.
  unfold ensureNotBanned.
  destruct (some _ (Group.bannedUsers g)); simpl; [|constructor].
  destruct (upsertPending _ _ _ _ _) as [err|[jr jrs]] eqn:Hup; simpl; [constructor|].
  by apply upsertPending_change in Hup.
Qed.

Lemma submitJoinRequest_requests db newId now g u :
  RequestsChange (joinRequests db)
    (joinRequests (snd (submitJoinRequest db newId now g u))).
Proof.
  unfold submitJoinRequest.
  destruct (upsertPending _ _ _ _ _) as [err|[jr jrs]] eqn:Hup; simpl;
    repeat (case_match; simpl; try apply RequestsSame);
    by apply upsertPending_change in Hup.
Qed.

Lemma RequestsChange_save l rid jr s :
  findOne (byRequestId rid) l = Some jr ->
  RequestsChange l
    (updateOne (byRequestId (JoinRequest._id (JoinRequest.set_status s jr)))
       (fun _ => JoinRequest.set_status s jr) l).
Proof.
  intros Hjr. pose proof (findOne_byRequestId _ _ _ Hjr) as [_ Hid]. simpl.
  rewrite Hid, <- (updateOne_found _ (JoinRequest.set_status s) _ jr Hjr).
  constructor.
Qed.

Section RequestChanges.
Variable isValidObjectId : string -> bool.
Variable castObjectId : string -> ObjectId.
Variable sha256 : string -> string.

Lemma groupsRouter_requests db r :
  RequestsChange (joinRequests db)
    (joinRequests (snd (groupsRouter isValidObjectId castObjectId sha256 db r))).
Proof.
  destruct r; simpl.
  - unfold createGroup. repeat (case_match; simpl; try apply RequestsSame).
  - unfold joinOpenGroup.
    destruct (isValidObjectId groupId); simpl; [|constructor].
    destruct (findOne _ _) as [group|]; simpl; [|constructor].
    case_bool_decide; simpl; [|constructor].
    pose proof (ensureNotBanned_requests db newId now group user) as Hch.
    destruct (ensureNotBanned _ _ _ _ _) as [[err|] db1]; simpl in *; [done|].
    repeat (case_match; simpl; try done).
  - unfold requestJoinPrivate.
    destruct (isValidObjectId groupId); simpl; [|constructor].
    destruct (findOne _ _) as [group|]; simpl; [|constructor].
    case_bool_decide; simpl; [|constructor].
    destruct (some _ (Group.members group)); simpl; [constructor|].
    pose proof (ensureNotBanned_requests db newId now group user) as Hch.
    destruct (ensureNotBanned db newId now group user) as [[err|] db1] eqn:He;
      simpl in *; [done|].
    apply ensureNotBanned_None in He as [-> _].
    repeat (case_match; simpl; try apply RequestsSame);
      apply submitJoinRequest_requests.
  - unfold decideJoinRequest.
    repeat (case_match; simpl; try apply RequestsSame);
      by apply (RequestsChange_save _ (castObjectId requestId)).
  - unfold leaveGroup. repeat (case_match; simpl; try apply RequestsSame).
  - unfold banishMember. repeat (case_match; simpl; try apply RequestsSame).
  - unfold transferOwnership. repeat (case_match; simpl; try apply RequestsSame).
  - unfold deleteGroup. repeat (case_match; simpl; try apply RequestsSame).
  - unfold createInvite. repeat (case_match; simpl; try apply RequestsSame).
  - unfold joinWithInvite. repeat (case_match; simpl; try apply RequestsSame).
Qed.
End RequestChanges.

Lemma findOne_None_key {A} (key : A -> string) (k : string) (l : list A) :
  findOne (fun x => key x =? k) l = None -> k ∉ List.map key l.
Proof.
  intros Hnone Hin.
  apply list_elem_of_In, List.in_map_iff in Hin as (x & Hk & Hx).
  pose proof (List.find_none _ _ Hnone x Hx) as Hp. simpl in Hp.
  rewrite Hk, String.eqb_refl in Hp. done.
Qed.

Lemma byGroupUser_None gid uid l :
  findOne (byGroupUser gid uid) l = None -> (gid, uid) ∉ List.map requestKey l.
Proof.
  intros Hnone Hin.
  apply list_elem_of_In, List.in_map_iff in Hin as (x & Hk & Hx).
  pose proof (List.find_none _ _ Hnone x Hx) as Hp.
  unfold byGroupUser in Hp. unfold requestKey in Hk. injection Hk as Hg Hu.
  by rewrite Hg, Hu, !String.eqb_refl in Hp.
Qed.

Lemma NoDup_snoc {A} (l : list A) (x : A) : NoDup l -> x ∉ l -> NoDup (l ++ [x]).
Proof.
  intros Hnd Hx. apply NoDup_app. split; [done|]. split; [|apply NoDup_singleton].
  by intros y Hy ->%list_elem_of_singleton.
Qed.

(** A change keeps the ids and the pairs of the stored requests, in
    order, and may add one at the end. *)
Lemma RequestsChange_keys l l' :
  RequestsChange l l' ->
  exists new,
    List.map JoinRequest._id l' = (List.map JoinRequest._id l ++ List.map JoinRequest._id new)%list
    /\ List.map requestKey l' = (List.map requestKey l ++ List.map requestKey new)%list
    /\ List.map JoinRequest.createdAt l'
       = (List.map JoinRequest.createdAt l ++ List.map JoinRequest.createdAt new)%list
    /\ (length new <= 1)%nat
    /\ Forall (fun jr => (JoinRequest._id jr ∉ List.map JoinRequest._id l)
                         /\ (requestKey jr ∉ List.map requestKey l)
                         /\ JoinRequest.status jr = pending) new.
Proof.
  destruct 1 as [|p s|jr Hid Hkey Hst].
  - exists []. rewrite !app_nil_r. repeat split; [simpl; lia | constructor].
  - exists []. rewrite !app_nil_r, !map_updateOne by by intros [].
    repeat split; [simpl; lia | constructor].
  - exists [jr]. rewrite !List.map_app. repeat split; [simpl; lia|].
    constructor; [|constructor]. split; [|split; [|done]].
    + by apply (findOne_None_key JoinRequest._id).
    + by apply byGroupUser_None.
Qed.

Section RequestInvariants.
Variable isValidObjectId : string -> bool.
Variable castObjectId : string -> ObjectId.
Variable sha256 : string -> string.

(** X5. Join requests are one per [_id] and one per (group, user) pair,
    after every request to the routes if before it, hence in every
    database that the routes build from one without join requests: the
    upsert writes to the pair's request when there is one and inserts
    under an unused id otherwise. *)
Theorem join_requests_stay_unique :
  (forall db r,
     requestsUnique db ->
     requestsUnique (snd (groupsRouter isValidObjectId castObjectId sha256 db r)))
  /\ (forall ms us rs,
        requestsUnique (runRequests isValidObjectId castObjectId sha256 (blankDb ms us) rs)).
Proof.
  assert (Hstep : forall db r,
     requestsUnique db ->
     requestsUnique (snd (groupsRouter isValidObjectId castObjectId sha256 db r))).
  { intros db r [Hids Hkeys]. unfold requestsUnique.
    destruct (RequestsChange_keys _ _ (groupsRouter_requests isValidObjectId castObjectId sha256 db r))
      as (new & -> & -> & _ & Hlen & Hnew).
    destruct new as [|jr [|? ?]]; [|apply Forall_cons in Hnew as [(H1 & H2 & _) _]|
                                   simpl in Hlen; lia].
    - by rewrite !app_nil_r.
    - simpl. split; by apply NoDup_snoc. }
  split; [exact Hstep|]. intros ms us rs.
  apply (runRequests_ind _ _ _ requestsUnique); [exact Hstep|].
  split; constructor.
Qed.

(** X6. No route deletes a join request or rewrites anything but its
    status: the requests stored before a request are stored after it, in
    the same order, with their ids, groups, users and creation times; at
    most one request is added, a pending one. *)
Theorem join_requests_are_kept db r :
  let before := joinRequests db in
  let after := joinRequests (snd (groupsRouter isValidObjectId castObjectId sha256 db r)) in
  exists new,
    List.map JoinRequest._id after
    = (List.map JoinRequest._id before ++ List.map JoinRequest._id new)%list
    /\ List.map requestKey after
       = (List.map requestKey before ++ List.map requestKey new)%list
    /\ List.map JoinRequest.createdAt after
       = (List.map JoinRequest.createdAt before
            ++ List.map JoinRequest.createdAt new)%list
    /\ (length new <= 1)%nat
    /\ Forall (fun jr => JoinRequest.status jr = pending) new.
Proof.
  intros before after.
  destruct (RequestsChange_keys _ _ (groupsRouter_requests isValidObjectId castObjectId sha256 db r))
    as (new & H1 & H2 & H3 & H4 & H5).
  exists new. repeat split; try done.
  eapply Forall_impl; [exact H5|]. by intros jr (_ & _ & ?).
Qed.
End RequestInvariants.

Lemma join_requests_stay_unique_witness :
  requestsUnique
    (snd (groupsRouter isHex24 castHex tagDigest demoDb
            (PostRequestJoin newObjectId 7000 bob (Group._id club)))).
Proof.
  apply (proj1 (join_requests_stay_unique isHex24 castHex tagDigest) demoDb).
  refine (bool_decide_unpack _ _). vm_compute. exact I.
Defined.

(** ** What a request does to the invites *)

Section InviteChanges.
Variable isValidObjectId : string -> bool.
Variable castObjectId : string -> ObjectId.
Variable sha256 : string -> string.

Lemma createInvite_change db now rawToken user groupId body :
  InvitesChange (invites db)
    (invites (snd (createInvite isValidObjectId castObjectId sha256 db now rawToken user
                     groupId body))).
Proof.
  unfold createInvite.
  repeat (case_match; simpl; try apply InvitesSame).
  apply InvitesInsert; simpl; [by apply some_findOne | done | lia | done].
Qed.

Lemma joinWithInvite_invites db now user token :
  InvitesChange (invites db) (invites (snd (joinWithInvite sha256 db now user token))).
Proof.
  unfold joinWithInvite.
  destruct token as [token|]; simpl; [|constructor].
  destruct (token =? EmptyString); simpl; [constructor|].
  destruct (findOne _ (invites db)) as [invite|] eqn:Hi; simpl; [|constructor].
  destruct (Invite.disabled invite) eqn:Hdis; simpl; [constructor|].
  destruct (Invite.expiresAt invite <=? now)%Z; simpl; [constructor|].
  destruct (Invite.maxUses invite <=? Invite.uses invite)%Z eqn:Huses; simpl;
    [constructor|].
  destruct (findOne _ (groups db)) as [group|]; simpl; [|constructor].
  destruct (some _ (Group.bannedUsers group)); simpl; [constructor|].
  destruct (capacityOk group); simpl; [|constructor].
  pose proof (findOne_byTokenHash _ _ _ Hi) as [_ Hh].
  assert (Hinv : invites (if negb (some (fun m => m =? user) (Group.members group))
                          then saveGroup
                                 (Group.set_members (Group.members group ++ [user])%list
                                    group) db
                          else db) = invites db)
    by (by destruct (some _ (Group.members group))).
  rewrite Hinv.
  assert (Hfound : findOne (byTokenHash (Invite.tokenHash invite)) (invites db)
                   = Some invite) by by rewrite Hh.
  assert (Hlt : (Invite.uses invite < Invite.maxUses invite)%Z) by lia.
  pose proof (InvitesRedeem (invites db) invite Hfound Hdis Hlt) as Hch.
  unfold redeemed in Hch. by rewrite Hdis in Hch.
Qed.

Lemma groupsRouter_invites db r :
  InvitesChange (invites db)
    (invites (snd (groupsRouter isValidObjectId castObjectId sha256 db r))).
Proof.
  destruct r; simpl;
    try apply createInvite_change; try apply joinWithInvite_invites.
  - unfold createGroup. repeat (case_match; simpl; try apply InvitesSame).
  - unfold joinOpenGroup. repeat (case_match; simpl; try apply InvitesSame);
      match goal with
      | H : ensureNotBanned ?db ?i ?n ?g ?u = (_, ?db1) |- _ =>
        pose proof (ensureNotBanned_invites db i n g u) as Hinv;
        rewrite H in Hinv; simpl in Hinv; rewrite Hinv; constructor
      end.
  - unfold requestJoinPrivate, submitJoinRequest.
    repeat (case_match; simpl; try apply InvitesSame);
      match goal with
      | H : ensureNotBanned ?db ?i ?n ?g ?u = (_, ?db1) |- _ =>
        pose proof (ensureNotBanned_invites db i n g u) as Hinv;
        rewrite H in Hinv; simpl in Hinv; rewrite Hinv; constructor
      end.
  - unfold decideJoinRequest. repeat (case_match; simpl; try apply InvitesSame).
  - unfold leaveGroup. repeat (case_match; simpl; try apply InvitesSame).
  - unfold banishMember. repeat (case_match; simpl; try apply InvitesSame).
  - unfold transferOwnership. repeat (case_match; simpl; try apply InvitesSame).
  - unfold deleteGroup. repeat (case_match; simpl; try apply InvitesSame).
Qed.
End InviteChanges.

Lemma redeemed_ok i :
  Invite.disabled i = false -> (Invite.uses i < Invite.maxUses i)%Z ->
  inviteOk i -> inviteOk (redeemed i).
Proof.
  unfold inviteOk, redeemed. simpl. intros Hd Hlt (H1 & H2 & H3).
  split; [done|]. split; [lia|]. intros Heq.
  assert ((Invite.maxUses i <=? Invite.uses i + 1)%Z = true) as -> by lia. done.
Qed.

Lemma InvitesChange_ok l l' :
  InvitesChange l l' -> Forall inviteOk l -> Forall inviteOk l'.
Proof.
  intros Hch Hall. rewrite Forall_forall in Hall. apply Forall_forall.
  destruct Hch as [|i Hfresh Hu Hm Hd|i Hi Hd Hlt]; intros x Hx.
  - by apply Hall.
  - apply elem_of_app in Hx as [Hx| ->%list_elem_of_singleton]; [by apply Hall|].
    unfold inviteOk. rewrite Hu. split; [done|]. split; [lia|]. lia.
  - apply elem_of_updateOne in Hx as [Hx|(y & Hy & ->)]; [by apply Hall|].
    apply redeemed_ok; [done..|]. apply Hall. by apply findOne_Some in Hi as [? _].
Qed.

Lemma InvitesChange_hashes l l' :
  InvitesChange l l' ->
  NoDup (List.map Invite.tokenHash l) -> NoDup (List.map Invite.tokenHash l').
Proof.
  intros Hch Hnd. destruct Hch as [|i Hfresh Hu Hm Hd|i Hi Hd Hlt].
  - done.
  - rewrite List.map_app. simpl. apply NoDup_snoc; [done|].
    by apply (findOne_None_key Invite.tokenHash).
  - rewrite map_updateOne; [done|]. intros x _ Hp.
    apply String.eqb_eq in Hp. by rewrite Hp.
Qed.

Section InviteInvariants.
Variable isValidObjectId : string -> bool.
Variable castObjectId : string -> ObjectId.
Variable sha256 : string -> string.

Lemma runRequests_inviteOk ms us rs :
  Forall inviteOk (invites (runRequests isValidObjectId castObjectId sha256 (blankDb ms us) rs)).
Proof.
  apply (runRequests_ind _ _ _ (fun db => Forall inviteOk (invites db)));
    [|constructor].
  intros db r. apply InvitesChange_ok, groupsRouter_invites.
Qed.

(** X7. Every stored invite has at least one use to give, has given
    between 0 and maxUses of them, and is disabled once it has given them
    all; stored invites have distinct token hashes. Both hold after every
    request if before it, hence in every database that the routes build
    from one without invites. *)
Theorem invites_stay_sound :
  (forall db r,
     let db' := snd (groupsRouter isValidObjectId castObjectId sha256 db r) in
     (Forall inviteOk (invites db) -> Forall inviteOk (invites db'))
     /\ (tokenHashesUnique db -> tokenHashesUnique db'))
  /\ (forall ms us rs,
        let db := runRequests isValidObjectId castObjectId sha256 (blankDb ms us) rs in
        Forall inviteOk (invites db) /\ tokenHashesUnique db).
Proof.
  assert (Hstep : forall db r,
     let db' := snd (groupsRouter isValidObjectId castObjectId sha256 db r) in
     (Forall inviteOk (invites db) -> Forall inviteOk (invites db'))
     /\ (tokenHashesUnique db -> tokenHashesUnique db')).
  { intros db r db'. split.
    - apply InvitesChange_ok, groupsRouter_invites.
    - apply InvitesChange_hashes, groupsRouter_invites. }
  split; [exact Hstep|]. intros ms us rs.
  apply (runRequests_ind _ _ _
           (fun db => Forall inviteOk (invites db) /\ tokenHashesUnique db)).
  - intros db r [H1 H2]. destruct (Hstep db r) as [H1' H2']. auto.
  - split; constructor.
Qed.

(** X8. The answer "Invite exhausted" is out of reach: in a database whose
    invites are disabled once spent, and so in every database that the
    routes build from one without invites, no redemption is answered with
    it; a spent invite is answered "Invalid invite". *)
Theorem invite_exhausted_is_unreachable :
  (forall db now user token,
     Forall inviteOk (invites db) ->
     fst (joinWithInvite sha256 db now user token)
     ≠ mkRes 400 (JError "Invite exhausted"))
  /\ (forall ms us rs now user token,
        fst (joinWithInvite sha256
               (runRequests isValidObjectId castObjectId sha256 (blankDb ms us) rs) now user token)
        ≠ mkRes 400 (JError "Invite exhausted"))
  /\ (forall db now user token invite,
        Forall inviteOk (invites db) ->
        token ≠ EmptyString ->
        findOne (byTokenHash (sha256 token)) (invites db) = Some invite ->
        Invite.uses invite = Invite.maxUses invite ->
        joinWithInvite sha256 db now user (Some token)
        = (mkRes 400 (JError "Invalid invite"), db)).
Proof.
  assert (Hone : forall db now user token,
     Forall inviteOk (invites db) ->
     fst (joinWithInvite sha256 db now user token)
     ≠ mkRes 400 (JError "Invite exhausted")).
  { intros db now user token Hall. unfold joinWithInvite.
    destruct token as [token|]; simpl; [|done].
    destruct (token =? EmptyString); simpl; [done|].
    destruct (findOne _ (invites db)) as [invite|] eqn:Hi; simpl; [|done].
    destruct (Invite.disabled invite) eqn:Hdis; simpl; [done|].
    destruct (Invite.expiresAt invite <=? now)%Z; simpl; [done|].
    destruct (Invite.maxUses invite <=? Invite.uses invite)%Z eqn:Huses; simpl.
    - exfalso. rewrite Forall_forall in Hall.
      apply findOne_Some in Hi as [Hin _]. destruct (Hall _ Hin) as (H1 & H2 & H3).
      assert (Invite.uses invite = Invite.maxUses invite) as Heq by lia.
      rewrite (H3 Heq) in Hdis. done.
    - repeat (case_match; simpl; try done). }
  split; [exact Hone|]. split.
  - intros ms us rs now user token. apply Hone, runRequests_inviteOk.
  - intros db now user token invite Hall Hne Hi Heq.
    apply (joinWithInvite_disabled _ _ _ _ _ invite); [done..|].
    rewrite Forall_forall in Hall. apply findOne_Some in Hi as [Hin _].
    by apply (Hall _ Hin).
Qed.
End InviteInvariants.

Lemma invites_stay_sound_witness :
  Forall inviteOk
    (invites (snd (groupsRouter isHex24 castHex tagDigest demoDb
                     (PostJoinWithInvite 7000 dave (Some "s3cret"))))).
Proof.
  apply (proj1 (invites_stay_sound isHex24 castHex tagDigest) demoDb).
  refine (bool_decide_unpack _ _). vm_compute. exact I.
Defined.

Lemma invite_exhausted_is_unreachable_witness :
  let db1 := snd (createInvite isHex24 castHex tagDigest demoDb 1000 "fresh-token"
                    alice (Group._id club) (mkCreateInviteBody (Some 0%Z) None)) in
  let db2 := snd (joinWithInvite tagDigest db1 2000 dave (Some "fresh-token")) in
  fst (joinWithInvite tagDigest demoDb 7000 dave (Some "s3cret"))
  ≠ mkRes 400 (JError "Invite exhausted")
  /\ findOne (byTokenHash (tagDigest "fresh-token")) (invites db2)
     = Some (Invite.mk (Group._id club) alice (tagDigest "fresh-token")
               1 1 3601000 true)
  /\ joinWithInvite tagDigest db2 3000 erin (Some "fresh-token")
     = (mkRes 400 (JError "Invalid invite"), db2).
Proof.
  intros db1 db2.
  destruct (invite_exhausted_is_unreachable isHex24 castHex tagDigest)
    as (Hone & _ & Hspent).
  assert (Hfind : findOne (byTokenHash (tagDigest "fresh-token")) (invites db2)
                  = Some (Invite.mk (Group._id club) alice
                            (tagDigest "fresh-token") 1 1 3601000 true))
    by (vm_compute; reflexivity).
  split; [|split; [exact Hfind|]].
  - apply (Hone demoDb).
    refine (bool_decide_unpack _ _). vm_compute. exact I.
  - apply (Hspent db2 3000%Z erin "fresh-token"
             (Invite.mk (Group._id club) alice (tagDigest "fresh-token")
                1 1 3601000 true)).
    + refine (bool_decide_unpack _ _). vm_compute. exact I.
    + done.
    + exact Hfind.
    + reflexivity.
Defined.

(** ** Deleting a group, and what is left behind *)

Lemma findOne_deleteOne_unique l gid :
  NoDup (List.map Group._id l) ->
  findOne (byGroupId gid) (deleteOne (byGroupId gid) l) = None.
Proof.
  unfold findOne. induction l as [|a l IH]; simpl; [done|]. intros Hnd.
  apply NoDup_cons in Hnd as [Hna Hnd].
  destruct (byGroupId gid a) eqn:Hp; simpl.
  - apply String.eqb_eq in Hp.
    destruct (List.find (byGroupId gid) l) as [x|] eqn:Hx; [|done].
    apply List.find_some in Hx as [Hin Hpx]. apply String.eqb_eq in Hpx.
    exfalso. apply Hna. apply list_elem_of_In, List.in_map_iff.
    exists x. split; [congruence | done].
  - rewrite Hp. by apply IH.
Qed.

Lemma findOne_deleteOne_ne l gid gid' :
  gid' ≠ gid ->
  findOne (byGroupId gid') (deleteOne (byGroupId gid) l) = findOne (byGroupId gid') l.
Proof.
  intros Hne. unfold findOne. induction l as [|a l IH]; simpl; [done|].
  destruct (byGroupId gid a) eqn:Hp; simpl.
  - apply String.eqb_eq in Hp.
    assert (byGroupId gid' a = false) as ->; [|done].
    unfold byGroupId. apply String.eqb_neq. congruence.
  - by rewrite IH.
Qed.

Section Deleting.
Variable isValidObjectId : string -> bool.
Variable castObjectId : string -> ObjectId.
Variable sha256 : string -> string.

(** X9. [deleteGroup] succeeds exactly when the id in the URL is valid,
    a group is stored under the id it is cast to (so under any spelling of
    that id), the caller is its owner and it has at most one member;
    otherwise it answers an error and changes nothing. A deletion removes
    the group document only: join requests, leave histories, invites and
    messages of the group stay as they are (no cascade). With distinct
    group ids the group is gone afterwards, and every other group is found
    as before. *)
Theorem deleteGroup_only_when_alone db user groupId :
  let call := deleteGroup isValidObjectId castObjectId db user groupId in
  (status (fst call) = 200%Z <->
   isValidObjectId groupId = true
   /\ exists g, findOne (byGroupId (castObjectId groupId)) (groups db) = Some g
                /\ Group.owner g = user /\ (length (Group.members g) <= 1)%nat)
  /\ (status (fst call) ≠ 200%Z -> snd call = db)
  /\ snd call = set_groups (groups (snd call)) db
  /\ (status (fst call) = 200%Z -> groupIdsUnique db ->
      findOne (byGroupId (castObjectId groupId)) (groups (snd call)) = None
      /\ forall other, other ≠ castObjectId groupId ->
           findOne (byGroupId other) (groups (snd call))
           = findOne (byGroupId other) (groups db)).
Proof.
  unfold deleteGroup.
  destruct (isValidObjectId groupId); simpl.
  2: { repeat split; try done. by intros (? & _). by destruct db. }
  destruct (findOne (byGroupId (castObjectId groupId)) (groups db)) as [g|] eqn:Hg; simpl.
  2: { repeat split; try done. by intros (_ & ? & ? & _). by destruct db. }
  pose proof (findOne_byGroupId _ _ _ Hg) as [_ Hid].
  destruct (Group.owner g =? user) eqn:Hown; simpl.
  - apply String.eqb_eq in Hown.
    destruct (1 <? length (Group.members g))%nat eqn:Hlen; simpl.
    + apply Nat.ltb_lt in Hlen. repeat split; try done; try by destruct db.
      intros (_ & g' & [= <-] & _ & ?). lia.
    + apply Nat.ltb_ge in Hlen. repeat split; try done.
      * exists g. repeat split; [done | lia].
      * rewrite Hid. by apply findOne_deleteOne_unique.
      * intros other Hne. rewrite Hid. by apply findOne_deleteOne_ne.
  - apply String.eqb_neq in Hown. repeat split; try done; try by destruct db.
    intros (_ & g' & [= <-] & ? & _). done.
Qed.

(** X10. What a deleted group leaves behind answers 404 and is not used
    up: once no group is stored under the id, redeeming an invite of the
    group that is enabled, unexpired and unspent is answered "Group not
    found" and leaves the invite as it is, and a decision on a join
    request of the group is answered "Group not found" and leaves the
    request as it is. *)
Theorem orphans_of_a_deleted_group db groupId :
  findOne (byGroupId groupId) (groups db) = None ->
  (forall now user token invite,
     token ≠ EmptyString ->
     findOne (byTokenHash (sha256 token)) (invites db) = Some invite ->
     Invite.group invite = groupId ->
     Invite.disabled invite = false ->
     (now < Invite.expiresAt invite)%Z ->
     (Invite.uses invite < Invite.maxUses invite)%Z ->
     joinWithInvite sha256 db now user (Some token)
     = (mkRes 404 (JError "Group not found"), db))
  /\ (forall user requestId decision jr,
        isValidObjectId requestId = true ->
        is_Some (decisionSchema decision) ->
        findOne (byRequestId (castObjectId requestId)) (joinRequests db) = Some jr ->
        JoinRequest.group jr = groupId ->
        decideJoinRequest isValidObjectId castObjectId db user requestId decision
        = (mkRes 404 (JError "Group not found"), db)).
Proof.
  intros Hnone. split.
  - intros now user token invite Hne Hi Hg Hd He Hu. unfold joinWithInvite.
    apply String.eqb_neq in Hne. rewrite Hne, Hi, Hd, Hg, Hnone.
    assert ((Invite.expiresAt invite <=? now)%Z = false) as -> by lia.
    assert ((Invite.maxUses invite <=? Invite.uses invite)%Z = false) as -> by lia.
    done.
  - intros user requestId decision jr Hv [d Hd] Hjr Hg. unfold decideJoinRequest.
    by rewrite Hv, Hd, Hjr, Hg, Hnone.
Qed.
End Deleting.

Lemma deleteGroup_only_when_alone_witness :
  let db1 := snd (deleteGroup isHex24 castHex soloDb dave "65B000000000000000000004") in
  findOne (byGroupId (Group._id soloGroup)) (groups db1) = None
  /\ findOne (byGroupId (Group._id club)) (groups db1) = Some club.
Proof.
  destruct (deleteGroup_only_when_alone isHex24 castHex soloDb dave
              "65B000000000000000000004")
    as (_ & _ & _ & Hgone).
  destruct Hgone as [Hnone Hothers];
    [reflexivity | refine (bool_decide_unpack _ _); vm_compute; exact I |].
  split; [exact Hnone|]. rewrite (Hothers (Group._id club)); [reflexivity | discriminate].
Defined.

Lemma orphans_of_a_deleted_group_witness :
  let db1 := snd (deleteGroup isHex24 castHex soloDb dave (Group._id soloGroup)) in
  joinWithInvite tagDigest db1 7000 erin (Some "solo-token")
  = (mkRes 404 (JError "Group not found"), db1).
Proof.
  refine (proj1 (orphans_of_a_deleted_group isHex24 castHex tagDigest
                   (snd (deleteGroup isHex24 castHex soloDb dave (Group._id soloGroup)))
                   (Group._id soloGroup) eq_refl)
            7000%Z erin "solo-token" soloInvite _ eq_refl eq_refl eq_refl _ _);
    [discriminate | reflexivity | reflexivity].
Defined.

Example dave_deletes_solo :
  deleteGroup isHex24 castHex soloDb dave (Group._id soloGroup)
  = (mkRes 200 (JMessage "Group deleted"), set_groups [club] soloDb)
  /\ deleteGroup isHex24 castHex soloDb alice (Group._id club)
     = (mkRes 400 (JError "Group can be deleted only if owner is sole member"), soloDb)
  /\ deleteGroup isHex24 castHex soloDb erin (Group._id soloGroup)
     = (mkRes 403 (JError "Only owner"), soloDb)
  /\ deleteGroup isHex24 castHex soloDb dave "65B000000000000000000004"
     = (mkRes 200 (JMessage "Group deleted"), set_groups [club] soloDb).
Proof. repeat split; reflexivity. Qed.

(** ** Handing a group over *)

Section Transfer.
Variable isValidObjectId : string -> bool.
Variable castObjectId : string -> ObjectId.
Variable sha256 : string -> string.

(** X11. The owner hands the group to another member: the transfer
    succeeds, the new owner is the stored owner, members and banned users
    are as before (the former owner stays a member). From then on the
    former owner is refused on the owner's routes (banish, transfer,
    delete, invite creation, 403 each) and, being an ordinary member, can
    leave. *)
Theorem transferOwnership_hands_over db user groupId newOwnerId g :
  isValidObjectId groupId = true ->
  isValidObjectId newOwnerId = true ->
  findOne (byGroupId (castObjectId groupId)) (groups db) = Some g ->
  Group.owner g = user ->
  some (fun m => m =? newOwnerId) (Group.members g) = true ->
  newOwnerId ≠ user ->
  ownerIsMember g ->
  let call := transferOwnership isValidObjectId castObjectId db user groupId newOwnerId in
  let db1 := snd call in
  fst call = mkRes 200 (JMessage "Ownership transferred")
  /\ findOne (byGroupId (castObjectId groupId)) (groups db1) = Some (Group.set_owner newOwnerId g)
  /\ db1 = set_groups (groups db1) db
  /\ (forall userId,
        isValidObjectId userId = true ->
        banishMember isValidObjectId castObjectId db1 user groupId userId
        = (mkRes 403 (JError "Only owner"), db1))
  /\ (forall other,
        transferOwnership isValidObjectId castObjectId db1 user groupId other
        = (mkRes 403 (JError "Only owner"), db1))
  /\ deleteGroup isValidObjectId castObjectId db1 user groupId = (mkRes 403 (JError "Only owner"), db1)
  /\ (forall now rawToken body,
        createInvite isValidObjectId castObjectId sha256 db1 now rawToken user groupId body
        = (mkRes 403 (JError "Only owner can create invites"), db1))
  /\ (forall now,
        fst (leaveGroup isValidObjectId castObjectId db1 now user groupId)
        = mkRes 200 (JMessage "Left group")).
Proof.
  intros Hv Hvn Hg Hown Hm Hne Hmem call db1.
  pose proof (findOne_byGroupId _ _ _ Hg) as [_ Hid].
  assert (Hcall : call = (mkRes 200 (JMessage "Ownership transferred"),
                          saveGroup (Group.set_owner newOwnerId g) db)).
  { subst call. unfold transferOwnership.
    by rewrite Hv, Hg, Hown, String.eqb_refl, Hvn, Hm. }
  assert (Hg1 : findOne (byGroupId (castObjectId groupId)) (groups db1)
                = Some (Group.set_owner newOwnerId g)).
  { subst db1. rewrite Hcall. simpl. rewrite Hid.
    apply (findOne_replace _ _ g); [done|].
    unfold byGroupId. simpl. rewrite Hid. apply String.eqb_refl. }
  assert (Hnot : (Group.owner (Group.set_owner newOwnerId g) =? user) = false)
    by (simpl; by apply String.eqb_neq).
  split; [by rewrite Hcall|]. split; [done|].
  split; [subst db1; by rewrite Hcall|].
  split; [|split; [|split; [|split]]].
  - intros userId Hvu. unfold banishMember. by rewrite Hv, Hvu, Hg1, Hnot.
  - intros other. unfold transferOwnership. by rewrite Hv, Hg1, Hnot.
  - unfold deleteGroup. by rewrite Hv, Hg1, Hnot.
  - intros now rawToken body. unfold createInvite. by rewrite Hv, Hg1, Hnot.
  - intros now. unfold leaveGroup. rewrite Hv, Hg1. simpl.
    destruct (findIndex (fun m => m =? user) (Group.members g)) as [idx|] eqn:Hidx.
    + simpl in Hnot. by rewrite Hnot.
    + apply findIndex_None, some_eqb_false in Hidx.
      unfold ownerIsMember in Hmem. by rewrite Hown in Hmem.
Qed.
End Transfer.

Lemma transferOwnership_hands_over_witness :
  let db1 := snd (transferOwnership isHex24 castHex demoDb alice (Group._id club) carol) in
  findOne (byGroupId (Group._id club)) (groups db1)
  = Some (Group.mk "65b000000000000000000003" "club" private carol 0
            [alice; carol] [bob])
  /\ fst (leaveGroup isHex24 castHex db1 7000 alice (Group._id club))
     = mkRes 200 (JMessage "Left group").
Proof.
  assert (Hm : ownerIsMember club) by (refine (bool_decide_unpack _ _); vm_compute; exact I).
  destruct (transferOwnership_hands_over isHex24 castHex tagDigest demoDb alice
              (Group._id club) carol club eq_refl eq_refl eq_refl eq_refl eq_refl)
    as (_ & Hfound & _ & _ & _ & _ & _ & Hleave); [discriminate | exact Hm |].
  split; [exact Hfound | exact (Hleave 7000%Z)].
Defined.

Example carol_cannot_banish_before_transfer :
  banishMember isHex24 castHex demoDb carol (Group._id club) alice
  = (mkRes 403 (JError "Only owner"), demoDb)
  /\ fst (banishMember isHex24 castHex
            (snd (transferOwnership isHex24 castHex demoDb alice (Group._id club) carol))
            carol (Group._id club) alice)
     = mkRes 200 (JMessage "User banished").
Proof. split; reflexivity. Qed.

(** ** Asking twice *)

Section Idempotence.
Variable isValidObjectId : string -> bool.
Variable castObjectId : string -> ObjectId.

(** What a successful join-open has checked and written. *)
Lemma joinOpenGroup_joined db newId now user groupId res db1 :
  joinOpenGroup isValidObjectId castObjectId db newId now user groupId = (res, db1) ->
  body res = JMessage "Joined" ->
  exists g,
    isValidObjectId groupId = true
    /\ findOne (byGroupId (castObjectId groupId)) (groups db) = Some g
    /\ Group.type g = open
    /\ some (fun u => u =? user) (Group.bannedUsers g) = false
    /\ some (fun m => m =? user) (Group.members g) = false
    /\ capacityOk g = true
    /\ res = mkRes 200 (JMessage "Joined")
    /\ db1 = saveGroup (Group.set_members (Group.members g ++ [user])%list g) db.
Proof.
  unfold joinOpenGroup.
  destruct (isValidObjectId groupId); simpl; [|by intros [= <- <-]].
  destruct (findOne _ _) as [g|] eqn:Hg; simpl; [|by intros [= <- <-]].
  case_bool_decide as Hty; simpl; [|by intros [= <- <-]].
  destruct (ensureNotBanned db newId now g user) as [[err|] db'] eqn:He; simpl.
  - intros [= <- <-]. by destruct err.
  - apply ensureNotBanned_None in He as [-> Hnb]. apply some_eqb_false in Hnb.
    destruct (some _ (Group.members g)) eqn:Hm; simpl; [by intros [= <- <-]|].
    destruct (capacityOk g) eqn:Hc; simpl; [|by intros [= <- <-]].
    intros [= <- <-] _. by exists g.
Qed.

(** X12. Joining an open group twice: after a join that answered
    "Joined", the user is in members once more than before, and every
    further join by that user, whenever it comes, is answered 200 "Already
    a member" and changes nothing. *)
Theorem joinOpenGroup_twice db newId now user groupId res db1 :
  joinOpenGroup isValidObjectId castObjectId db newId now user groupId = (res, db1) ->
  body res = JMessage "Joined" ->
  (exists g,
     findOne (byGroupId (castObjectId groupId)) (groups db) = Some g
     /\ findOne (byGroupId (castObjectId groupId)) (groups db1)
        = Some (Group.set_members (Group.members g ++ [user])%list g)
     /\ (user ∉ Group.members g))
  /\ forall newId' now',
       joinOpenGroup isValidObjectId castObjectId db1 newId' now' user groupId
       = (mkRes 200 (JMessage "Already a member"), db1).
Proof.
  intros Hcall Hbody.
  destruct (joinOpenGroup_joined _ _ _ _ _ _ _ Hcall Hbody)
    as (g & Hv & Hg & Hty & Hb & Hm & Hc & -> & ->).
  pose proof (findOne_byGroupId _ _ _ Hg) as [_ Hid].
  assert (Hg1 : findOne (byGroupId (castObjectId groupId))
                  (groups (saveGroup
                             (Group.set_members (Group.members g ++ [user])%list g) db))
                = Some (Group.set_members (Group.members g ++ [user])%list g)).
  { simpl. rewrite Hid. apply (findOne_replace _ _ g); [done|].
    unfold byGroupId. simpl. rewrite Hid. apply String.eqb_refl. }
  split.
  - exists g. split; [done|]. split; [done|]. by apply some_eqb_false.
  - intros newId' now'. unfold joinOpenGroup, ensureNotBanned.
    rewrite Hv, Hg1. simpl. rewrite Hty. simpl. rewrite Hb. simpl.
    assert (some (fun m => m =? user) (Group.members g ++ [user])%list = true) as ->;
      [|done].
    apply some_eqb_true, elem_of_app. right. by left.
Qed.

(** What a request-join that was answered with a request id has checked,
    and what it leaves stored. *)
Lemma requestJoinPrivate_submitted db newId now user groupId msg requestId db1 :
  requestJoinPrivate isValidObjectId castObjectId db newId now user groupId
  = (mkRes 200 (JMessageRequest msg requestId), db1) ->
  exists g jr,
    isValidObjectId groupId = true
    /\ findOne (byGroupId (castObjectId groupId)) (groups db) = Some g
    /\ Group.type g = private
    /\ some (fun m => m =? user) (Group.members g) = false
    /\ some (fun u => u =? user) (Group.bannedUsers g) = false
    /\ match lastLeaveOf (Group._id g) user (leaveHistories db) with
       | Some l => (COOLDOWN_HOURS
                    <= inject_Z (now - LeaveHistory.leftAt l) / 3600000)%Q
       | None => True
       end
    /\ groups db1 = groups db /\ leaveHistories db1 = leaveHistories db
    /\ findOne (byGroupUser (Group._id g) user) (joinRequests db1) = Some jr
    /\ JoinRequest.status jr = pending
    /\ JoinRequest._id jr = requestId.
Proof.
  unfold requestJoinPrivate.
  destruct (isValidObjectId groupId); simpl; [|done].
  destruct (findOne (byGroupId (castObjectId groupId)) (groups db)) as [g|] eqn:Hg; simpl; [|done].
  case_bool_decide as Hty; simpl; [|done].
  destruct (some (fun m => m =? user) (Group.members g)) eqn:Hm; simpl; [done|].
  destruct (ensureNotBanned db newId now g user) as [[err|] db'] eqn:He; simpl.
  { intros [= Hres _]. by destruct err. }
  apply ensureNotBanned_None in He as [-> Hnb]. apply some_eqb_false in Hnb.
  assert (Hsubmit : submitJoinRequest db newId now g user
                    = (mkRes 200 (JMessageRequest msg requestId), db1) ->
                    groups db1 = groups db /\ leaveHistories db1 = leaveHistories db
                    /\ exists jr, findOne (byGroupUser (Group._id g) user)
                                    (joinRequests db1) = Some jr
                                  /\ JoinRequest.status jr = pending
                                  /\ JoinRequest._id jr = requestId).
  { unfold submitJoinRequest.
    destruct (findOne (byGroupUser (Group._id g) user) (joinRequests db))
      as [existing|] eqn:Hex.
    - case_bool_decide as Hst.
      + intros [= _ <- <-]. repeat split; try done. by exists existing.
      + destruct (upsertPending _ _ _ _ _) as [err|[jr jrs]] eqn:Hup; simpl.
        * intros [= Hres _]. by destruct err.
        * intros [= _ <- <-]. repeat split; try done. exists jr.
          by apply upsertPending_inr in Hup as (? & ? & _).
    - destruct (upsertPending _ _ _ _ _) as [err|[jr jrs]] eqn:Hup; simpl.
      + intros [= Hres _]. by destruct err.
      + intros [= _ <- <-]. repeat split; try done. exists jr.
        by apply upsertPending_inr in Hup as (? & ? & _). }
  destruct (lastLeaveOf (Group._id g) user (leaveHistories db)) as [l|] eqn:Hl.
  - destruct (Qlt_le_dec _ _) as [Hlt|Hge]; [done|].
    intros (Hgs & Hls & jr & Hjr & Hst & Hjid)%Hsubmit.
    exists g, jr. by rewrite Hl.
  - intros (Hgs & Hls & jr & Hjr & Hst & Hjid)%Hsubmit.
    exists g, jr. by rewrite Hl.
Qed.

(** X13. Asking twice to join a private group: after a request that was
    answered 200 with a request id, every further request of that user at
    the same or a later time is answered "Join request already submitted"
    with the same id and changes nothing. *)
Theorem requestJoinPrivate_twice db newId now user groupId msg requestId db1 :
  requestJoinPrivate isValidObjectId castObjectId db newId now user groupId
  = (mkRes 200 (JMessageRequest msg requestId), db1) ->
  forall newId' now',
    (now <= now')%Z ->
    requestJoinPrivate isValidObjectId castObjectId db1 newId' now' user groupId
    = (mkRes 200 (JMessageRequest "Join request already submitted" requestId), db1).
Proof.
  intros (g & jr & Hv & Hg & Hty & Hm & Hnb & Hcool & Hgs & Hls & Hjr & Hst & Hjid)
           %requestJoinPrivate_submitted newId' now' Hle.
  assert (Hsub : submitJoinRequest db1 newId' now' g user
                 = (mkRes 200 (JMessageRequest "Join request already submitted"
                                 requestId), db1)).
  { unfold submitJoinRequest. rewrite Hjr.
    rewrite bool_decide_eq_true_2 by done. by rewrite Hjid. }
  unfold requestJoinPrivate, ensureNotBanned.
  rewrite Hv, Hgs, Hg. simpl. rewrite bool_decide_eq_true_2 by done. simpl.
  rewrite Hm, Hnb, Hls.
  destruct (lastLeaveOf (Group._id g) user (leaveHistories db)) as [l|]; [|done].
  destruct (Qlt_le_dec _ _) as [Hlt|_]; [|done].
  exfalso. apply (proj1 (hours_lt_cooldown _)) in Hlt.
  apply Qle_not_lt in Hcool. apply Hcool, hours_lt_cooldown. lia.
Qed.
End Idempotence.

Lemma joinOpenGroup_twice_witness :
  let db1 := snd (joinOpenGroup isHex24 castHex demoDb newObjectId 6000 dave (Group._id lounge)) in
  joinOpenGroup isHex24 castHex db1 newObjectId 7000 dave (Group._id lounge)
  = (mkRes 200 (JMessage "Already a member"), db1).
Proof.
  intros db1.
  refine (proj2 (joinOpenGroup_twice isHex24 castHex demoDb newObjectId 6000 dave
                   (Group._id lounge) (mkRes 200 (JMessage "Joined")) db1 _ _) _ _).
  - vm_compute. reflexivity.
  - reflexivity.
Defined.

Lemma requestJoinPrivate_twice_witness :
  let db1 := snd (requestJoinPrivate isHex24 castHex demoDb newObjectId 6000 dave
                    (Group._id board)) in
  requestJoinPrivate isHex24 castHex db1 "65d00000000000000000000a" 6000 dave (Group._id board)
  = (mkRes 200 (JMessageRequest "Join request already submitted" newObjectId), db1).
Proof.
  intros db1.
  refine (requestJoinPrivate_twice isHex24 castHex demoDb newObjectId 6000 dave
            (Group._id board) "Join request submitted" newObjectId db1 _ _ _ _).
  - vm_compute. reflexivity.
  - lia.
Defined.

(** ** What banishing takes away *)

Section Banish.
Variable isValidObjectId : string -> bool.
Variable castObjectId : string -> ObjectId.
Variable node : NodeCrypto.
Variable key : option string.

(** What a successful banish has checked and written. *)
Lemma banishMember_banished db user groupId userId res db1 :
  banishMember isValidObjectId castObjectId db user groupId userId = (res, db1) ->
  body res = JMessage "User banished" ->
  exists g,
    isValidObjectId groupId = true /\ isValidObjectId userId = true
    /\ findOne (byGroupId (castObjectId groupId)) (groups db) = Some g
    /\ (Group.owner g =? user) = true /\ (userId =? user) = false
    /\ some (fun m => m =? userId) (Group.members g) = true
    /\ some (fun u => u =? userId) (Group.bannedUsers g) = false
    /\ db1 = saveGroup
               (Group.set_bannedUsers (Group.bannedUsers g ++ [userId])%list
                  (Group.set_members
                     (List.filter (fun m => negb (m =? userId)) (Group.members g)) g))
               db.
Proof.
  unfold banishMember.
  destruct (isValidObjectId groupId); simpl; [|by intros [= <- <-]].
  destruct (isValidObjectId userId); simpl; [|by intros [= <- <-]].
  destruct (findOne _ _) as [g|] eqn:Hg; simpl; [|by intros [= <- <-]].
  destruct (Group.owner g =? user) eqn:Ho; simpl; [|by intros [= <- <-]].
  destruct (userId =? user) eqn:Hself; simpl; [by intros [= <- <-]|].
  destruct (some _ (Group.bannedUsers g)) eqn:Hb; simpl; [by intros [= <- <-]|].
  destruct (some _ (Group.members g)) eqn:Hm; simpl; [|by intros [= <- <-]].
  intros [= <- <-] _. by exists g.
Qed.

(** X14. Banishing locks the user out: after a banish that answered "User
    banished", the same banish again is answered 200 "User is already
    banned" and changes nothing, and the banished user is refused with 403
    "Join group first" when listing, polling or sending a valid text to
    the group (an invalid text is refused with 400 before); none of these
    calls changes the database. *)
Theorem banishMember_locks_out db user groupId userId res db1 :
  banishMember isValidObjectId castObjectId db user groupId userId = (res, db1) ->
  body res = JMessage "User banished" ->
  banishMember isValidObjectId castObjectId db1 user groupId userId
  = (mkRes 200 (JMessage "User is already banned"), db1)
  /\ (forall since,
        listMessages isValidObjectId castObjectId node key db1 userId groupId since
        = (mkRes 403 (JError "Join group first"), db1))
  /\ (forall now since,
        pollEvents isValidObjectId castObjectId db1 now userId groupId since
        = (mkRes 403 (JError "Join group first"), db1))
  /\ (forall newId now iv text,
        sendMessage isValidObjectId castObjectId node key db1 newId now iv userId groupId text
        = (match sendSchema text with
           | Some _ => mkRes 403 (JError "Join group first")
           | None => mkRes 400 (JErrorDetails "Validation failed")
           end, db1)).
Proof.
  intros Hcall Hbody.
  destruct (banishMember_banished _ _ _ _ _ _ Hcall Hbody)
    as (g & Hv & Hvu & Hg & Ho & Hself & Hm & Hb & ->).
  pose proof (findOne_byGroupId _ _ _ Hg) as [_ Hid].
  set (g' := Group.set_bannedUsers _ _).
  assert (Hg' : findOne (byGroupId (castObjectId groupId)) (groups (saveGroup g' db)) = Some g').
  { simpl. change (Group._id g) with (Group._id g'). simpl. rewrite Hid.
    apply (findOne_replace _ _ g); [done|].
    unfold byGroupId. simpl. rewrite Hid. apply String.eqb_refl. }
  assert (Hout : some (fun m => m =? userId) (Group.members g') = false).
  { apply some_eqb_false. intros [_ Hne]%elem_of_List_filter.
    by rewrite String.eqb_refl in Hne. }
  assert (Hin : some (fun u => u =? userId) (Group.bannedUsers g') = true).
  { apply some_eqb_true, elem_of_app. right. by left. }
  repeat split.
  - assert (Ho' : (Group.owner g' =? user) = true) by exact Ho.
    unfold banishMember. by rewrite Hv, Hvu, Hg', Ho', Hself, Hin.
  - intros since. unfold listMessages, findGroupById. rewrite Hv, Hg'.
    by rewrite Hout.
  - intros now since. unfold pollEvents, findGroupById. rewrite Hv, Hg'.
    by rewrite Hout.
  - intros newId now iv text. unfold sendMessage, findGroupById.
    destruct (sendSchema text); [|done]. rewrite Hv, Hg'. by rewrite Hout.
Qed.
End Banish.

Lemma banishMember_locks_out_witness :
  let db1 := snd (banishMember isHex24 castHex demoDb alice (Group._id lounge) carol) in
  banishMember isHex24 castHex db1 alice (Group._id lounge) carol
  = (mkRes 200 (JMessage "User is already banned"), db1)
  /\ listMessages isHex24 castHex demoNode demoKey db1 carol (Group._id lounge) None
     = (mkRes 403 (JError "Join group first"), db1).
Proof.
  intros db1.
  destruct (banishMember_locks_out isHex24 castHex demoNode demoKey demoDb alice (Group._id lounge)
              carol (mkRes 200 (JMessage "User banished")) db1)
    as (Hagain & Hlist & _).
  - vm_compute. reflexivity.
  - reflexivity.
  - split; [exact Hagain | exact (Hlist None)].
Defined.

(** ** The owner's queue of join requests *)

(** Replacing the document of a unique key. *)
Lemma elem_of_updateOne_key {A} (key : A -> string) (k : string) (z : A) (l : list A) x :
  NoDup (List.map key l) ->
  findOne (fun a => key a =? k) l = Some x ->
  forall y, y ∈ updateOne (fun a => key a =? k) (fun _ => z) l
            <-> y = z \/ (y ∈ l /\ key y <> k).
Proof.
  unfold findOne. induction l as [|a l IH]; simpl; [done|].
  intros Hnd Hx y. apply NoDup_cons in Hnd as [Hnotin Hnd].
  destruct (key a =? k) eqn:Hk.
  - apply String.eqb_eq in Hk. rewrite elem_of_cons. split.
    + intros [->|Hin]; [by left|]. right. split; [by right|].
      intros Hy. apply Hnotin. rewrite Hk, <- Hy.
      by apply (list_elem_of_fmap_2 key).
    + intros [->|[Hin Hne]]; [by left|]. right.
      apply elem_of_cons in Hin as [->|Hin]; done.
  - apply String.eqb_neq in Hk. rewrite elem_of_cons, (IH Hnd Hx y), elem_of_cons.
    split.
    + intros [->|[->|[Hin Hne]]]; [right; split; [by left|done] | by left |].
      right. split; [by right | done].
    + intros [->|[[->|Hin] Hne]]; [right; by left | by left |].
      right. right. done.
Qed.

Section Queue.
Variable isValidObjectId : string -> bool.
Variable castObjectId : string -> ObjectId.

Lemma listJoinRequests_inr db user groupId views :
  listJoinRequests isValidObjectId castObjectId db user groupId = inr views ->
  exists g,
    findOne (byGroupId (castObjectId groupId)) (groups db) = Some g
    /\ Group.owner g = user
    /\ views = List.map (populateUser db)
                 (merge_sort requestedAt_desc
                    (List.filter (pendingOf (Group._id g)) (joinRequests db))).
Proof.
  unfold listJoinRequests.
  destruct (isValidObjectId groupId); simpl; [|done].
  destruct (findOne _ _) as [g|]; [|done].
  destruct (Group.owner g =? user) eqn:Ho; simpl; [|done].
  intros [= <-]. exists g. by apply String.eqb_eq in Ho.
Qed.

Lemma elem_of_queue db gid v :
  v ∈ List.map (populateUser db)
        (merge_sort requestedAt_desc (List.filter (pendingOf gid) (joinRequests db)))
  <-> exists jr, jr ∈ joinRequests db
                 /\ JoinRequest.group jr = gid
                 /\ JoinRequest.status jr = pending
                 /\ v = populateUser db jr.
Proof.
  split.
  - intros (jr & -> & Hin)%list_elem_of_fmap_1.
    rewrite merge_sort_Permutation in Hin.
    apply elem_of_List_filter in Hin as [Hin Hp].
    unfold pendingOf in Hp. apply andb_true_iff in Hp as [Hg Hs].
    apply String.eqb_eq in Hg. apply bool_decide_eq_true in Hs.
    by exists jr.
  - intros (jr & Hin & Hg & Hs & ->).
    apply (list_elem_of_fmap_2 (populateUser db)).
    rewrite merge_sort_Permutation. apply elem_of_List_filter. split; [done|].
    unfold pendingOf. rewrite Hg, String.eqb_refl. simpl.
    by apply bool_decide_eq_true.
Qed.

(** X15. The queue that GET /groups/:groupId/requests answers with: it is
    only given to the owner of a stored group, it holds exactly the stored
    pending requests of that group (each with its user's id and email
    looked up), one entry per request, newest first. *)
Theorem listJoinRequests_queue db user groupId views :
  listJoinRequests isValidObjectId castObjectId db user groupId = inr views ->
  exists g,
    findOne (byGroupId (castObjectId groupId)) (groups db) = Some g
    /\ Group.owner g = user
    /\ (forall v, v ∈ views
                  <-> exists jr, jr ∈ joinRequests db
                                 /\ JoinRequest.group jr = Group._id g
                                 /\ JoinRequest.status jr = pending
                                 /\ v = populateUser db jr)
    /\ length views
       = length (List.filter (pendingOf (Group._id g)) (joinRequests db))
    /\ StronglySorted (fun a b => (rv_createdAt b <= rv_createdAt a)%Z) views.
Proof.
  intros (g & Hg & Ho & ->)%listJoinRequests_inr.
  exists g. split; [done|]. split; [done|]. split; [|split].
  - intros v. apply elem_of_queue.
  - rewrite length_map. apply Permutation_length, merge_sort_Permutation.
  - apply (StronglySorted_fmap _ requestedAt_desc); [done|].
    apply StronglySorted_merge_sort; apply _.
Qed.

(** X16. A decided request leaves the queue: when request ids are unique
    and the owner's decision on a request is answered 200, the owner's
    queue of that request's group (asked for under any valid spelling of
    the group's id) held the request before, and afterwards holds exactly
    the other entries. *)
Theorem decided_request_leaves_queue db user requestId decision jr groupId res db1 :
  NoDup (List.map JoinRequest._id (joinRequests db)) ->
  findOne (byRequestId (castObjectId requestId)) (joinRequests db) = Some jr ->
  isValidObjectId groupId = true ->
  castObjectId groupId = JoinRequest.group jr ->
  decideJoinRequest isValidObjectId castObjectId db user requestId decision = (res, db1) ->
  status res = 200%Z ->
  exists before after,
    listJoinRequests isValidObjectId castObjectId db user groupId = inr before
    /\ listJoinRequests isValidObjectId castObjectId db1 user groupId = inr after
    /\ populateUser db jr ∈ before
    /\ forall v, v ∈ after <-> v ∈ before /\ rv_id v <> castObjectId requestId.
Proof.
  intros Hnd Hjr Hvg Hcast Hcall Hst.
  pose proof (findOne_byRequestId _ _ _ Hjr) as [Hin Hid].
  assert (exists g s g',
            findOne (byGroupId (JoinRequest.group jr)) (groups db) = Some g
            /\ (Group.owner g =? user) = true
            /\ JoinRequest.status jr = pending
            /\ s <> pending
            /\ findOne (byGroupId (JoinRequest.group jr)) (groups db1) = Some g'
            /\ Group.owner g' = Group.owner g /\ Group._id g' = Group._id g
            /\ users db1 = users db
            /\ joinRequests db1
               = updateOne (byRequestId (castObjectId requestId))
                   (fun _ => JoinRequest.set_status s jr) (joinRequests db))
    as (g & s & g' & Hg & Ho & Hpend & Hs & Hg' & Ho' & Hid' & Hus & Hjrs).
  { revert Hcall. unfold decideJoinRequest. rewrite Hjr.
    destruct (isValidObjectId requestId); simpl; [|intros [= <- <-]; by simpl in Hst].
    destruct (decisionSchema decision) as [d|]; [|intros [= <- <-]; by simpl in Hst].
    destruct (findOne (byGroupId _) _) as [g|] eqn:Hg;
      [|intros [= <- <-]; by simpl in Hst].
    destruct (Group.owner g =? user) eqn:Ho; simpl;
      [|intros [= <- <-]; by simpl in Hst].
    case_bool_decide as Hpend; simpl; [|intros [= <- <-]; by simpl in Hst].
    pose proof (findOne_byGroupId _ _ _ Hg) as [_ Hgid].
    destruct d.
    - destruct (capacityOk g); simpl; [|intros [= <- <-]; by simpl in Hst].
      intros [= _ <-]. exists g, approved, (pullBanned_addMember (JoinRequest.user jr) g).
      simpl. rewrite Hid, Hgid. repeat split; try done.
      apply (findOne_updateOne _ _ _ g); [done|].
      unfold byGroupId. simpl. rewrite Hgid. apply String.eqb_refl.
    - intros [= _ <-]. exists g, declined, g.
      simpl. rewrite Hid. repeat split; done. }
  pose proof (findOne_byGroupId _ _ _ Hg) as [_ Hgid].
  eexists _, _. split; [|split; [|split]].
  - unfold listJoinRequests. rewrite Hvg, Hcast, Hg, Ho. simpl. reflexivity.
  - unfold listJoinRequests. rewrite Hvg, Hcast, Hg', Ho', Ho. simpl. reflexivity.
  - apply elem_of_queue. exists jr. by rewrite Hgid.
  - intros v. rewrite Hid', !elem_of_queue. split.
    + intros (x & Hx & Hxg & Hxs & ->). rewrite Hjrs in Hx.
      apply (elem_of_updateOne_key JoinRequest._id (castObjectId requestId) _ _ jr Hnd Hjr) in Hx
        as [->|[Hx Hne]]; [done|].
      split; [|done]. exists x. repeat split; try done.
      unfold populateUser. by rewrite Hus.
    + intros [(x & Hx & Hxg & Hxs & ->) Hne]. exists x.
      split; [|repeat split; try done; unfold populateUser; by rewrite Hus].
      rewrite Hjrs.
      apply (elem_of_updateOne_key JoinRequest._id (castObjectId requestId) _ _ jr Hnd Hjr).
      right. done.
Qed.
End Queue.

Lemma listJoinRequests_queue_witness :
  let db1 := snd (requestJoinPrivate isHex24 castHex demoDb newObjectId 400000000 dave
                    (Group._id club)) in
  exists g,
    findOne (byGroupId (Group._id club)) (groups db1) = Some g
    /\ Group.owner g = alice
    /\ StronglySorted (fun a b => (rv_createdAt b <= rv_createdAt a)%Z)
         [populateUser db1
            (JoinRequest.mk newObjectId (Group._id club) dave pending 400000000);
          populateUser db1 erinAtClub].
Proof.
  intros db1.
  destruct (listJoinRequests_queue isHex24 castHex db1 alice "65B000000000000000000003"
              [populateUser db1
                 (JoinRequest.mk newObjectId (Group._id club) dave pending 400000000);
               populateUser db1 erinAtClub] eq_refl)
    as (g & Hg & Ho & _ & _ & Hsorted).
  by exists g.
Defined.

Lemma decided_request_leaves_queue_witness :
  let db1 := snd (decideJoinRequest isHex24 castHex demoDb alice
                    (JoinRequest._id erinAtClub) "decline") in
  exists before after,
    listJoinRequests isHex24 castHex demoDb alice "65B000000000000000000003"
    = inr before
    /\ listJoinRequests isHex24 castHex db1 alice "65B000000000000000000003" = inr after
    /\ populateUser demoDb erinAtClub ∈ before
    /\ forall v, v ∈ after <-> v ∈ before /\ rv_id v <> JoinRequest._id erinAtClub.
Proof.
  intros db1.
  refine (decided_request_leaves_queue isHex24 castHex demoDb alice
            (JoinRequest._id erinAtClub) "decline" erinAtClub
            "65B000000000000000000003"
            (mkRes 200 (JMessageStatus "Decision recorded" declined)) db1
            _ _ _ _ _ _).
  - refine (bool_decide_unpack _ _). vm_compute. exact I.
  - reflexivity.
  - reflexivity.
  - reflexivity.
  - vm_compute. reflexivity.
  - reflexivity.
Defined.

(** ** The groups of a user *)


Section Mine.
Variable isValidObjectId : string -> bool.
Variable castObjectId : string -> ObjectId.

End Mine.


Example carol_polls_under_another_spelling :
  myGroups isHex24 castHex demoDb carol = Some [lounge; board; club]
  /\ fst (pollEvents isHex24 castHex demoDb 7000 carol "65B000000000000000000001" None)
     = mkRes 200 (JPoll 0 7000).
Proof. split; reflexivity. Qed.

(** ** Where a new group shows up *)

Section Listing.
Variable isValidObjectId : string -> bool.
Variable castObjectId : string -> ObjectId.

(** X18. A created group is listed: after a [createGroup] answered 201
    with a group, that group is the one found under the new id; the public
    listing is the one before, followed by the group without its banned
    list when it is open and by nothing when it is private; and the
    listing of own groups of every user is the one before, followed by the
    group exactly when the user is one of its members. *)
Theorem createGroup_then_listed db newId user body g db1 :
  createGroup isValidObjectId castObjectId db newId user body = (mkRes 201 (JGroup g), db1) ->
  findOne (byGroupId newId) (groups db1) = Some g
  /\ listPublicGroups db1
     = (listPublicGroups db
        ++ match Group.type g with
           | open => [selectWithoutBanned g]
           | private => []
           end)%list
  /\ forall m mine,
       myGroups isValidObjectId castObjectId db m = Some mine ->
       myGroups isValidObjectId castObjectId db1 m
       = Some (mine ++ if some (fun x => x =? castObjectId m) (Group.members g)
                       then [g] else [])%list.
Proof.
  unfold createGroup.
  destruct (groupCreateSchema body) as [[[[name type] maxMembers] ids]|]; [|done].
  destruct (List.find _ _) as [bad|]; [done|].
  destruct (negb _ && _); [done|].
  destruct (some (byGroupId newId) (groups db)) eqn:Hfresh; [done|].
  intros [= <- <-]. simpl. split; [|split].
  - apply some_findOne in Hfresh. rewrite (findOne_app_r _ _ _ Hfresh).
    unfold findOne, byGroupId. simpl. by rewrite String.eqb_refl.
  - unfold listPublicGroups. simpl. rewrite List.filter_app, List.map_app. simpl.
    by destruct type.
  - intros m mine. unfold myGroups. destruct (isValidObjectId m); [|done].
    intros [= <-]. simpl. rewrite List.filter_app. simpl.
    by destruct (some _ (user :: _)).
Qed.
End Listing.

Lemma createGroup_then_listed_witness :
  let db1 := snd (createGroup isHex24 castHex demoDb newObjectId alice teamBody) in
  listPublicGroups db1
  = [selectWithoutBanned lounge;
     mkPublicGroup newObjectId "team" open alice 3 [alice; frank]].
Proof.
  intros db1.
  refine (proj1 (proj2 (createGroup_then_listed isHex24 castHex demoDb newObjectId
                          alice teamBody
                          (Group.mk newObjectId "team" open alice 3 [alice; frank] [])
                          db1 _))).
  vm_compute. reflexivity.
Defined.

(** ** Polling *)

Section Polling.
Variable isValidObjectId : string -> bool.
Variable castObjectId : string -> ObjectId.
Variable node : NodeCrypto.
Variable key : option string.

(** X19. Polling counts what listing returns: whenever listing a group
    since a given time is answered with messages, polling the group since
    that time is answered with their number; and polling without [since]
    is polling since one minute before now. *)
Theorem pollEvents_counts_listed db now user groupId :
  (forall since out,
     listMessages isValidObjectId castObjectId node key db user groupId (Some since)
     = (json (JMessages out), db) ->
     pollEvents isValidObjectId castObjectId db now user groupId (Some since)
     = (json (JPoll (length out) now), db))
  /\ pollEvents isValidObjectId castObjectId db now user groupId None
     = pollEvents isValidObjectId castObjectId db now user groupId (Some (now - 60000)%Z).
Proof.
  split; [|done].
  intros since out. unfold listMessages, pollEvents.
  destruct (findGroupById isValidObjectId castObjectId db groupId) as [err|[g|]];
    [by destruct err | | done].
  destruct (some _ (Group.members g)); simpl; [|done].
  destruct (mapThrowing _ _) as [err|views] eqn:Hviews.
  - intros [= Hres]. by destruct err.
  - intros [= <-]. apply mapThrowing_length in Hviews. by rewrite Hviews.
Qed.

(** X20. A sent message shows up in the next poll: after a [sendMessage]
    answered 201, every poll that was answered with a count before is
    answered with that count plus one when it polls the same group (its id
    in any spelling) since a time before the message's, and with the same
    count otherwise. *)
Theorem sendMessage_then_poll db newId now iv user groupId text res db1 :
  sendMessage isValidObjectId castObjectId node key db newId now iv user groupId text = (res, db1) ->
  status res = 201%Z ->
  forall reader groupId' now' since n,
    pollEvents isValidObjectId castObjectId db now' reader groupId' (Some since)
    = (json (JPoll n now'), db) ->
    pollEvents isValidObjectId castObjectId db1 now' reader groupId' (Some since)
    = (json (JPoll (n + if (castObjectId groupId' =? castObjectId groupId)%string
                        && (since <? now)%Z
                     then 1 else 0)%nat
                now'), db1).
Proof.
  unfold sendMessage, findGroupById.
  destruct (sendSchema text) as [text'|]; [|by intros [= <- <-]].
  destruct (isValidObjectId groupId); [|by intros [= <- <-]].
  destruct (findOne (byGroupId (castObjectId groupId)) (groups db)) as [g|] eqn:Hg;
    [|by intros [= <- <-]].
  destruct (some _ (Group.members g)); simpl; [|by intros [= <- <-]].
  destruct (encryptMessage node key iv text') as [err|payload] eqn:Henc.
  { apply encryptMessage_inl in Henc as (_ & msg & ->). by intros [= <- <-]. }
  destruct (some _ (messages db)); [by intros [= <- <-]|].
  intros [= <- <-] _ reader groupId' now' since n.
  apply findOne_byGroupId in Hg as [_ Hid].
  unfold pollEvents, findGroupById. simpl.
  destruct (isValidObjectId groupId'); [|done].
  destruct (findOne (byGroupId (castObjectId groupId')) (groups db)) as [g'|] eqn:Hg'; [|done].
  destruct (some _ (Group.members g')); simpl; [|done].
  apply findOne_byGroupId in Hg' as [_ Hid'].
  intros [= <-]. do 3 f_equal.
  unfold findMessages. simpl.
  rewrite !(Permutation_length (merge_sort_Permutation _ _)).
  rewrite List.filter_app, length_app. f_equal. simpl.
  unfold messageFilter. simpl. rewrite Hid, Hid', (String.eqb_sym (castObjectId groupId) (castObjectId groupId')).
  by destruct (_ && _).
Qed.
End Polling.

Lemma sendMessage_then_poll_witness :
  let db1 := snd (sendMessage isHex24 castHex demoNode demoKey demoDb newObjectId 5000 demoIv carol
                    (Group._id lounge) (jsString "hello")) in
  pollEvents isHex24 castHex db1 6000 alice (Group._id lounge) (Some 0%Z)
  = (json (JPoll 1 6000), db1).
Proof.
  intros db1.
  refine (sendMessage_then_poll isHex24 castHex demoNode demoKey demoDb newObjectId 5000 demoIv carol
            (Group._id lounge) (jsString "hello") (mkRes 201 (JSent newObjectId 5000)) db1 _ _
            alice (Group._id lounge) 6000%Z 0%Z 0%nat _).
  - vm_compute. reflexivity.
  - reflexivity.
  - vm_compute. reflexivity.
Defined.

Lemma pollEvents_counts_listed_witness :
  let db1 := snd (sendMessage isHex24 castHex demoNode demoKey demoDb newObjectId 5000 demoIv carol
                    (Group._id lounge) (jsString "hello")) in
  pollEvents isHex24 castHex db1 6000 alice (Group._id lounge) (Some 0%Z)
  = (json (JPoll 1 6000), db1).
Proof.
  intros db1.
  refine (proj1 (pollEvents_counts_listed isHex24 castHex demoNode demoKey db1 6000 alice
                   (Group._id lounge)) 0%Z
            [mkView newObjectId (Some carol) (Some "carol@example.com") 5000
               (jsString "hello")] _).
  vm_compute. reflexivity.
Defined.

(** ** Redeeming invites *)

Section Redeeming.
Variable sha256 : string -> string.

(** A redemption that passes every check. *)
Lemma joinWithInvite_redeems db now user token invite g :
  token ≠ EmptyString ->
  findOne (byTokenHash (sha256 token)) (invites db) = Some invite ->
  Invite.disabled invite = false ->
  (now < Invite.expiresAt invite)%Z ->
  (Invite.uses invite < Invite.maxUses invite)%Z ->
  findOne (byGroupId (Invite.group invite)) (groups db) = Some g ->
  some (fun u => u =? user) (Group.bannedUsers g) = false ->
  capacityOk g = true ->
  joinWithInvite sha256 db now user (Some token)
  = (mkRes 200 (JMessageGroup "Joined via invite" (Group._id g)),
     set_invites
       (updateOne (byTokenHash (sha256 token)) (fun _ => redeemed invite) (invites db))
       (if some (fun m => m =? user) (Group.members g) then db
        else saveGroup (Group.set_members (Group.members g ++ [user])%list g) db)).
Proof.
  intros Hne Hf Hdis Hexp Huses Hg Hban Hcap.
  pose proof (findOne_byTokenHash _ _ _ Hf) as [_ Hh].
  unfold joinWithInvite.
  apply String.eqb_neq in Hne. rewrite Hne, Hf, Hdis.
  assert ((Invite.expiresAt invite <=? now)%Z = false) as -> by lia.
  assert ((Invite.maxUses invite <=? Invite.uses invite)%Z = false) as -> by lia.
  rewrite Hg, Hban, Hcap. simpl. unfold redeemed. rewrite Hh, Hdis.
  by destruct (some _ (Group.members g)).
Qed.

(** X21. Every redemption is counted: a redemption of an enabled,
    unexpired, unspent invite by a user who is not banned from its group,
    while [capacityOk] holds of the group, is answered 200 and replaces the
    invite by the one with one more use, disabled when that reaches
    [maxUses]. A user who is a member already uses the invite up all the
    same and leaves the groups as they are; any other user is appended to
    the members. Leave histories and join requests are neither read nor
    written: the answer is the same whatever they hold. *)
Theorem joinWithInvite_counts_every_redemption db now user token invite g :
  token ≠ EmptyString ->
  findOne (byTokenHash (sha256 token)) (invites db) = Some invite ->
  Invite.disabled invite = false ->
  (now < Invite.expiresAt invite)%Z ->
  (Invite.uses invite < Invite.maxUses invite)%Z ->
  findOne (byGroupId (Invite.group invite)) (groups db) = Some g ->
  (user ∉ Group.bannedUsers g) ->
  capacityOk g = true ->
  let call := joinWithInvite sha256 db now user (Some token) in
  fst call = mkRes 200 (JMessageGroup "Joined via invite" (Group._id g))
  /\ findOne (byTokenHash (sha256 token)) (invites (snd call)) = Some (redeemed invite)
  /\ (user ∈ Group.members g -> groups (snd call) = groups db)
  /\ ((user ∉ Group.members g) ->
      findOne (byGroupId (Invite.group invite)) (groups (snd call))
      = Some (Group.set_members (Group.members g ++ [user])%list g))
  /\ leaveHistories (snd call) = leaveHistories db
  /\ joinRequests (snd call) = joinRequests db
  /\ forall lhs jrs,
       fst (joinWithInvite sha256 (set_leaveHistories lhs (set_joinRequests jrs db))
              now user (Some token))
       = fst call.
Proof.
  intros Hne Hf Hdis Hexp Huses Hg Hban Hcap call.
  apply some_eqb_false in Hban.
  pose proof (findOne_byTokenHash _ _ _ Hf) as [_ Hh].
  pose proof (findOne_byGroupId _ _ _ Hg) as [_ Hgid].
  pose proof (joinWithInvite_redeems db now user token invite g
                Hne Hf Hdis Hexp Huses Hg Hban Hcap) as Hcall.
  fold call in Hcall.
  assert (Hany : forall lhs jrs,
            fst (joinWithInvite sha256 (set_leaveHistories lhs (set_joinRequests jrs db))
                   now user (Some token))
            = fst call).
  { intros lhs jrs.
    by rewrite Hcall, (joinWithInvite_redeems
                         (set_leaveHistories lhs (set_joinRequests jrs db)) now user
                         token invite g Hne Hf Hdis Hexp Huses Hg Hban Hcap). }
  clearbody call. subst call. simpl.
  split; [done|]. split; [|split; [|split; [|split; [|split]]]].
  - apply (findOne_replace _ _ invite); [done|].
    unfold byTokenHash, redeemed. simpl. rewrite Hh. apply String.eqb_refl.
  - intros Hm%some_eqb_true. by rewrite Hm.
  - intros Hm%some_eqb_false. rewrite Hm. simpl. rewrite Hgid.
    apply (findOne_replace _ _ g); [done|].
    unfold byGroupId. simpl. rewrite Hgid. apply String.eqb_refl.
  - by destruct (some _ (Group.members g)).
  - by destruct (some _ (Group.members g)).
  - exact Hany.
Qed.

Variable isValidObjectId : string -> bool.
Variable castObjectId : string -> ObjectId.

(** What a successful [createInvite] has checked and written. *)
Lemma createInvite_created db now rawToken user groupId body token expiresAt maxUses db1 :
  createInvite isValidObjectId castObjectId sha256 db now rawToken user groupId body
  = (mkRes 201 (JInvite token expiresAt maxUses), db1) ->
  exists g mx mins,
    findOne (byGroupId (castObjectId groupId)) (groups db) = Some g
    /\ Group.owner g = user
    /\ some (byTokenHash (sha256 rawToken)) (invites db) = false
    /\ validDate (now + Z.max 1 mins * 60000) = true
    /\ token = rawToken
    /\ expiresAt = (now + Z.max 1 mins * 60000)%Z
    /\ maxUses = Z.max 1 mx
    /\ db1 = set_invites
               (invites db
                ++ [Invite.mk (Group._id g) user (sha256 rawToken) (Z.max 1 mx) 0
                      (now + Z.max 1 mins * 60000) false])%list db.
Proof.
  unfold createInvite.
  destruct (isValidObjectId groupId); simpl; [|done].
  destruct (findOne (byGroupId (castObjectId groupId)) (groups db)) as [g|] eqn:Hg; [|done].
  destruct (Group.owner g =? user) eqn:Ho; simpl; [|done].
  destruct (createInviteSchema body) as [[mx mins]|] eqn:Hschema; [|done].
  destruct (validDate _) eqn:Hdate; simpl; [|done].
  destruct (some _ (invites db)) eqn:Hfresh; [done|].
  intros [= <- <- <- <-]. apply String.eqb_eq in Ho.
  by exists g, mx, mins.
Qed.

(** X22. An invite works as soon as it is created: a [createInvite]
    answered 201 hands out the raw token drawn for it, a limit of at least
    one use and an expiry that is a date at least one minute ahead, and
    stores an unused, enabled invite of the owner's group under the token's
    digest. From then on, while nothing else is written, the raw token
    (not empty) lets every user who is not banned from the group in, before
    the expiry, while [capacityOk] holds of the group; from the expiry on
    it is answered 400 "Invite expired". *)
Theorem createInvite_then_joinWithInvite
    db now rawToken user groupId body token expiresAt maxUses db1 :
  createInvite isValidObjectId castObjectId sha256 db now rawToken user groupId body
  = (mkRes 201 (JInvite token expiresAt maxUses), db1) ->
  rawToken ≠ EmptyString ->
  token = rawToken /\ (now + 60000 <= expiresAt)%Z /\ (1 <= maxUses)%Z
  /\ validDate expiresAt = true
  /\ exists g,
       findOne (byGroupId (castObjectId groupId)) (groups db) = Some g
       /\ Group.owner g = user
       /\ groups db1 = groups db
       /\ findOne (byTokenHash (sha256 rawToken)) (invites db1)
          = Some (Invite.mk (Group._id g) user (sha256 rawToken) maxUses 0
                    expiresAt false)
       /\ forall now' joiner,
            ((now' < expiresAt)%Z ->
             (joiner ∉ Group.bannedUsers g) ->
             capacityOk g = true ->
             fst (joinWithInvite sha256 db1 now' joiner (Some rawToken))
             = mkRes 200 (JMessageGroup "Joined via invite" (castObjectId groupId)))
            /\ ((expiresAt <= now')%Z ->
                joinWithInvite sha256 db1 now' joiner (Some rawToken)
                = (mkRes 400 (JError "Invite expired"), db1)).
Proof.
  intros (g & mx & mins & Hg & Ho & Hfresh & Hdate & -> & -> & -> & ->)
           %createInvite_created Hne.
  pose proof (findOne_byGroupId _ _ _ Hg) as [_ Hid].
  set (invite := Invite.mk (Group._id g) user (sha256 rawToken) (Z.max 1 mx) 0
                   (now + Z.max 1 mins * 60000) false).
  assert (Hfound : findOne (byTokenHash (sha256 rawToken)) (invites db ++ [invite])
                   = Some invite).
  { apply some_findOne in Hfresh. rewrite (findOne_app_r _ _ _ Hfresh).
    unfold findOne, byTokenHash. simpl. by rewrite String.eqb_refl. }
  split; [done|]. split; [lia|]. split; [lia|]. split; [done|].
  exists g. split; [done|]. split; [done|]. split; [done|]. split; [exact Hfound|].
  intros now' joiner. split.
  - intros Hexp Hban%some_eqb_false Hcap.
    rewrite (joinWithInvite_redeems _ now' joiner rawToken invite g);
      try done; simpl; [by rewrite Hid | lia | by rewrite Hid].
  - intros Hexp. unfold joinWithInvite.
    apply String.eqb_neq in Hne. rewrite Hne.
    change (invites (set_invites (invites db ++ [invite]) db))
      with (invites db ++ [invite])%list.
    rewrite Hfound. simpl.
    by assert ((now + Z.max 1 mins * 60000 <=? now')%Z = true) as -> by lia.
Qed.
End Redeeming.

Lemma joinWithInvite_counts_every_redemption_witness :
  let call := joinWithInvite tagDigest soloDb 5000 dave (Some "solo-token") in
  fst call = mkRes 200 (JMessageGroup "Joined via invite" (Group._id soloGroup))
  /\ findOne (byTokenHash (tagDigest "solo-token")) (invites (snd call))
     = Some (redeemed soloInvite)
  /\ groups (snd call) = groups soloDb.
Proof.
  intros call.
  assert (Hne : "solo-token" ≠ EmptyString) by done.
  assert (Hexp : (5000 < Invite.expiresAt soloInvite)%Z) by (simpl; lia).
  assert (Huses : (Invite.uses soloInvite < Invite.maxUses soloInvite)%Z)
    by (simpl; lia).
  assert (Hban : dave ∉ Group.bannedUsers soloGroup)
    by (intros Hin; by apply elem_of_nil in Hin).
  destruct (joinWithInvite_counts_every_redemption tagDigest soloDb 5000 dave
              "solo-token" soloInvite soloGroup Hne eq_refl eq_refl Hexp Huses
              eq_refl Hban eq_refl)
    as (Hres & Hinv & Hmember & _).
  split; [exact Hres|]. split; [exact Hinv|]. apply Hmember. by left.
Defined.

Lemma createInvite_then_joinWithInvite_witness :
  let db1 := snd (createInvite isHex24 castHex tagDigest demoDb 1000 "fresh-token" alice
                    (Group._id club) (mkCreateInviteBody (Some 0%Z) None)) in
  fst (joinWithInvite tagDigest db1 2000 dave (Some "fresh-token"))
  = mkRes 200 (JMessageGroup "Joined via invite" (Group._id club)).
Proof.
  intros db1.
  destruct (createInvite_then_joinWithInvite tagDigest isHex24 castHex demoDb 1000 "fresh-token"
              alice (Group._id club) (mkCreateInviteBody (Some 0%Z) None)
              "fresh-token" 3601000 1 db1)
    as (_ & _ & _ & _ & g & Hg & _ & _ & _ & Hjoin).
  - vm_compute. reflexivity.
  - done.
  - injection Hg as <-. apply (Hjoin 2000%Z dave).
    + lia.
    + intros Hin. apply list_elem_of_singleton in Hin. done.
    + reflexivity.
Defined.

(** ** What the routes leave alone *)

Section Frame.
Variable isValidObjectId : string -> bool.
Variable castObjectId : string -> ObjectId.
Variable sha256 : string -> string.

Lemma ensureNotBanned_frame db newId now g u :
  let db1 := snd (ensureNotBanned db newId now g u) in
  groups db1 = groups db /\ leaveHistories db1 = leaveHistories db
  /\ invites db1 = invites db /\ messages db1 = messages db /\ users db1 = users db.
Proof. unfold ensureNotBanned. by repeat case_match. Qed.

Lemma submitJoinRequest_frame db newId now g u :
  let db1 := snd (submitJoinRequest db newId now g u) in
  groups db1 = groups db /\ leaveHistories db1 = leaveHistories db
  /\ invites db1 = invites db /\ messages db1 = messages db /\ users db1 = users db.
Proof. unfold submitJoinRequest. by repeat case_match. Qed.

Lemma requestJoinPrivate_frame db newId now user groupId :
  let db1 := snd (requestJoinPrivate isValidObjectId castObjectId db newId now user groupId) in
  groups db1 = groups db /\ leaveHistories db1 = leaveHistories db
  /\ invites db1 = invites db /\ messages db1 = messages db /\ users db1 = users db.
Proof.
  unfold requestJoinPrivate.
  destruct (isValidObjectId groupId); simpl; [|done].
  destruct (findOne _ _) as [g|]; simpl; [|done].
  case_bool_decide; simpl; [|done].
  destruct (some _ (Group.members g)); simpl; [done|].
  pose proof (ensureNotBanned_frame db newId now g user) as Hf.
  destruct (ensureNotBanned db newId now g user) as [[err|] db1]; simpl in *; [done|].
  destruct Hf as (Hg & Hl & Hi & Hm & Hu).
  pose proof (submitJoinRequest_frame db1 newId now g user) as Hs. simpl in Hs.
  rewrite Hg, Hl, Hi, Hm, Hu in Hs.
  destruct (lastLeaveOf _ _ _); [|done].
  by destruct (Qlt_le_dec _ _).
Qed.

(** One request: messages and users stay, the leave histories stay or get
    one more record at the end. *)
Lemma groupsRouter_frame db r :
  let db1 := snd (groupsRouter isValidObjectId castObjectId sha256 db r) in
  messages db1 = messages db /\ users db1 = users db
  /\ (leaveHistories db1 = leaveHistories db
      \/ exists l, leaveHistories db1 = (leaveHistories db ++ [l])%list).
Proof.
  destruct r; simpl.
  - unfold createGroup. repeat case_match; simpl; auto.
  - unfold joinOpenGroup.
    destruct (isValidObjectId groupId); simpl; [|auto].
    destruct (findOne _ _) as [g|]; simpl; [|auto].
    case_bool_decide; simpl; [|auto].
    pose proof (ensureNotBanned_frame db newId now g user) as Hf.
    destruct (ensureNotBanned db newId now g user) as [[err|] db1]; simpl in *.
    + destruct Hf as (_ & -> & _ & -> & ->). auto.
    + destruct Hf as (_ & <- & _ & <- & <-). repeat case_match; simpl; auto.
  - pose proof (requestJoinPrivate_frame db newId now user groupId) as Hf.
    simpl in Hf. destruct Hf as (_ & -> & _ & -> & ->). auto.
  - unfold decideJoinRequest. repeat case_match; simpl; auto.
  - unfold leaveGroup. repeat case_match; simpl; eauto.
  - unfold banishMember. repeat case_match; simpl; auto.
  - unfold transferOwnership. repeat case_match; simpl; auto.
  - unfold deleteGroup. repeat case_match; simpl; auto.
  - unfold createInvite. repeat case_match; simpl; auto.
  - unfold joinWithInvite. repeat case_match; simpl; auto.
Qed.

(** X23. The group routes keep the records: whatever requests the group
    routes handle, one after the other, the stored messages and users are
    the same afterwards, and the leave histories only grow at the end: no
    route removes or rewrites a leave record, deleting the group
    included. *)
Theorem group_routes_keep_records db rs :
  let db1 := runRequests isValidObjectId castObjectId sha256 db rs in
  messages db1 = messages db /\ users db1 = users db
  /\ leaveHistories db `prefix_of` leaveHistories db1.
Proof.
  revert db. induction rs as [|r rs IH]; intros db; simpl; [done|].
  destruct (IH (snd (groupsRouter isValidObjectId castObjectId sha256 db r))) as (Hm & Hu & Hl).
  destruct (groupsRouter_frame db r) as (Hm1 & Hu1 & Hl1).
  simpl in *. rewrite Hm, Hu, Hm1, Hu1. split; [done|]. split; [done|].
  destruct Hl1 as [Hl1|[l Hl1]]; rewrite Hl1 in Hl; [done|].
  etrans; [|exact Hl]. by apply prefix_app_r.
Qed.

(** X24. Refusals write nothing, with one exception: when a group route
    answers with a status of 400 or more, the groups, invites and leave
    histories are as before, and so are the join requests unless the answer
    is the 403 given to a banned user by join-open or request-join, which
    may have put that user's request to pending. *)
Theorem refusals_write_nothing db r :
  let call := groupsRouter isValidObjectId castObjectId sha256 db r in
  (400 <= status (fst call))%Z ->
  groups (snd call) = groups db
  /\ invites (snd call) = invites db
  /\ leaveHistories (snd call) = leaveHistories db
  /\ (joinRequests (snd call) = joinRequests db
      \/ fst call
         = mkRes 403
             (JError "You are banned. A join request is now pending for owner approval.")
         /\ exists newId now user groupId,
              r = PostJoinOpen newId now user groupId
              \/ r = PostRequestJoin newId now user groupId).
Proof.
  destruct r; simpl.
  - unfold createGroup. repeat case_match; simpl; auto; lia.
  - unfold joinOpenGroup, ensureNotBanned.
    repeat case_match; simplify_eq; simpl; auto; try lia.
    intros _. repeat split; try done. right. split; [done|]. eauto 6.
  - pose proof (requestJoinPrivate_frame db newId now user groupId) as Hf.
    simpl in Hf. destruct Hf as (-> & -> & -> & _).
    intros Hst. repeat split; try done. revert Hst.
    unfold requestJoinPrivate, ensureNotBanned, submitJoinRequest.
    repeat case_match; simplify_eq; simpl; auto; try lia.
    intros _. right. split; [done|]. eauto 6.
  - unfold decideJoinRequest. repeat case_match; simpl; auto; lia.
  - unfold leaveGroup. repeat case_match; simpl; auto; lia.
  - unfold banishMember. repeat case_match; simpl; auto; lia.
  - unfold transferOwnership. repeat case_match; simpl; auto; lia.
  - unfold deleteGroup. repeat case_match; simpl; auto; lia.
  - unfold createInvite. repeat case_match; simpl; auto; lia.
  - unfold joinWithInvite. repeat case_match; simpl; auto; lia.
Qed.
End Frame.

Lemma refusals_write_nothing_witness :
  let call := groupsRouter isHex24 castHex tagDigest demoDb
                (PostJoinOpen newObjectId 6000 bob (Group._id lounge)) in
  groups (snd call) = groups demoDb
  /\ invites (snd call) = invites demoDb
  /\ leaveHistories (snd call) = leaveHistories demoDb.
Proof.
  intros call.
  destruct (refusals_write_nothing isHex24 castHex tagDigest demoDb
              (PostJoinOpen newObjectId 6000 bob (Group._id lounge)))
    as (Hg & Hi & Hl & _).
  - vm_compute. discriminate.
  - by repeat split.
Defined.

(** ** The bearer token *)

Lemma prefix_slice p s :
  String.prefix p s = true -> s = p ++ slice (String.length p) s.
Proof.
  revert s. induction p as [|c p IH]; intros s; simpl; [done|].
  destruct s as [|d s]; simpl; [done|].
  destruct (Ascii.ascii_dec c d) as [->|]; [|done].
  intros H. change (String d s = String d (p ++ slice (String.length p) s)).
  f_equal. by apply IH.
Qed.

Lemma String_prefix_app p s : String.prefix p (p ++ s) = true.
Proof.
  induction p as [|c p IH]; simpl; [by destruct s|].
  by destruct (Ascii.ascii_dec c c).
Qed.

Section Auth.
Variable jwtVerify : Date -> string -> option (option string * option string).

(** X25. [authRequired] lets a request through exactly when its
    Authorization header is "Bearer " followed by a token that is not
    empty and that [jwt.verify] accepts at that time, and then hands on the
    [sub] and [email] of that token; every other request, the ones without
    a header included, is answered 401, "Missing token" when there is no
    such token and "Invalid token" when the verification fails. *)
Theorem authRequired_passes_verified_bearers now authorization :
  match authRequired jwtVerify now authorization with
  | inr user =>
    exists token, authorization = Some ("Bearer " ++ token)
                  /\ token ≠ EmptyString /\ jwtVerify now token = Some user
  | inl res =>
    (res = mkRes 401 (JError "Missing token")
     /\ forall token, token ≠ EmptyString -> authorization ≠ Some ("Bearer " ++ token))
    \/ (res = mkRes 401 (JError "Invalid token")
        /\ exists token, authorization = Some ("Bearer " ++ token)
                         /\ jwtVerify now token = None)
  end.
Proof.
  unfold authRequired. destruct authorization as [hdr|]; [|by left].
  change (default EmptyString (Some hdr)) with hdr.
  destruct (String.prefix "Bearer " hdr) eqn:Hp.
  - apply (prefix_slice "Bearer ") in Hp.
    change (String.length "Bearer ") with 7%nat in Hp.
    revert Hp. generalize (slice 7 hdr). intros token ->.
    destruct (token =? EmptyString) eqn:He.
    + left. split; [done|]. intros token' Hne [= Hh].
      apply String.eqb_eq in He. subst token. cbv in Hh. by subst token'.
    + apply String.eqb_neq in He.
      destruct (jwtVerify now token) as [[sub email]|] eqn:Hv.
      * by exists token.
      * right. split; [done|]. by exists token.
  - left. split; [done|]. intros token _ [= ->].
    by rewrite (String_prefix_app "Bearer " token) in Hp.
Qed.
End Auth.

Example bearer_tokens :
  authRequired tagVerify 1000 (Some "Bearer t:65a0000000000000000000a1")
  = inr (Some alice, None)
  /\ authRequired tagVerify 1000 (Some "bearer t:65a0000000000000000000a1")
     = inl (mkRes 401 (JError "Missing token"))
  /\ authRequired tagVerify 1000 (Some "Bearer ") = inl (mkRes 401 (JError "Missing token"))
  /\ authRequired tagVerify 43200000 (Some "Bearer t:65a0000000000000000000a1")
     = inl (mkRes 401 (JError "Invalid token")).
Proof. repeat split; reflexivity. Qed.

(** ** Open groups have no cooldown *)

Section Rejoin.
Variable isValidObjectId : string -> bool.
Variable castObjectId : string -> ObjectId.

(** X26. Leaving an open group leaves no trace: when a member who is not
    the owner leaves an open group, no leave record is written, and, with
    the member list free of duplicates, the group within its capacity and
    the user not banned, a join-open of that user at any later or earlier
    time is answered "Joined" at once. *)
Theorem leave_open_group_then_rejoin db now user groupId g :
  isValidObjectId groupId = true ->
  findOne (byGroupId (castObjectId groupId)) (groups db) = Some g ->
  Group.type g = open ->
  user ∈ Group.members g ->
  Group.owner g ≠ user ->
  NoDup (Group.members g) ->
  (user ∉ Group.bannedUsers g) ->
  withinCapacity g ->
  let left := leaveGroup isValidObjectId castObjectId db now user groupId in
  fst left = mkRes 200 (JMessage "Left group")
  /\ leaveHistories (snd left) = leaveHistories db
  /\ forall newId now',
       fst (joinOpenGroup isValidObjectId castObjectId (snd left) newId now' user groupId)
       = mkRes 200 (JMessage "Joined").
Proof.
  intros Hv Hg Hty Hm Hown Hnd Hban Hcap left.
  pose proof (findOne_byGroupId _ _ _ Hg) as [_ Hid].
  apply some_eqb_true in Hm.
  destruct (leaveGroup_left isValidObjectId castObjectId db now user groupId g Hv Hg Hm Hown)
    as (before & after & Hms & Hnb & Hleft).
  fold left in Hleft. rewrite Hleft. clear Hleft left.
  rewrite bool_decide_eq_false_2 by (by rewrite Hty).
  split; [done|]. split; [done|]. intros newId now'.
  set (g' := Group.set_members (before ++ after)%list g).
  assert (Hg' : findOne (byGroupId (castObjectId groupId))
                  (updateOne (byGroupId (castObjectId groupId)) (fun _ => g') (groups db)) = Some g').
  { apply (findOne_replace _ _ g); [done|].
    unfold byGroupId. simpl. rewrite Hid. apply String.eqb_refl. }
  assert (Hout : some (fun m => m =? user) (Group.members g') = false).
  { apply some_eqb_false. simpl. rewrite Hms in Hnd.
    apply NoDup_app in Hnd as (_ & Hdisj & [Hna _]%NoDup_cons).
    intros [Hin|Hin]%elem_of_app; [done | done]. }
  assert (Hnb' : some (fun u => u =? user) (Group.bannedUsers g') = false)
    by (by apply some_eqb_false).
  assert (Hok : capacityOk g' = true).
  { apply capacityOk_true. simpl. unfold withinCapacity in Hcap.
    rewrite Hms, length_app in Hcap. simpl in Hcap. rewrite length_app. lia. }
  assert (Hty' : Group.type g' = open) by exact Hty.
  unfold joinOpenGroup, ensureNotBanned. cbn [groups snd].
  by rewrite Hv, Hg', Hty', Hnb', Hout, Hok.
Qed.
End Rejoin.

Lemma leave_open_group_then_rejoin_witness :
  let left := leaveGroup isHex24 castHex demoDb 5000 carol (Group._id lounge) in
  fst left = mkRes 200 (JMessage "Left group")
  /\ leaveHistories (snd left) = leaveHistories demoDb
  /\ forall newId now',
       fst (joinOpenGroup isHex24 castHex (snd left) newId now' carol (Group._id lounge))
       = mkRes 200 (JMessage "Joined").
Proof.
  apply (leave_open_group_then_rejoin isHex24 castHex demoDb 5000 carol (Group._id lounge)
           lounge eq_refl eq_refl eq_refl).
  - right. left.
  - discriminate.
  - refine (bool_decide_unpack _ _). vm_compute. exact I.
  - refine (bool_decide_unpack _ _). vm_compute. exact I.
  - right. simpl. lia.
Defined.
